(** * unmanic-plugins: the import reconciliation of the notifier plugins
      (notify_radarr, notify_sonarr) and the pass pipeline of rarbg_fix.

    The Python sources are embedded as executable Rocq functions.  Paths and
    names are [string]s, Python ints are [Z], dictionaries with a fixed set of
    keys are records whose optional keys are [option] fields.  The effectful
    function [import_mode] is written in a small monad that threads the file
    system, may raise a Python exception and records every logging, file
    system and API call it makes, in program order. *)

From Stdlib Require Import String Ascii List ZArith Bool Lia.
Import ListNotations.
Open Scope list_scope.
Open Scope string_scope.

Set Implicit Arguments.
Set Warnings "-register-all".

(* ------------------------------------------------------------------ *)
(** ** Python [str] operations used by the plugins *)

Module PyStr.

(** Python truthiness of a [str]: the empty string is falsy. *)
Definition truthy (s : string) : bool :=
  match s with EmptyString => false | String _ _ => true end.

(** Truthiness of a value that is either [None] or a [str]. *)
Definition truthy_opt (o : option string) : bool :=
  match o with None => false | Some s => truthy s end.

(** [needle in hay] on strings: [needle] occurs somewhere in [hay]. *)
Fixpoint contains (needle hay : string) : bool :=
  String.prefix needle hay ||
  match hay with
  | EmptyString => false
  | String _ t => contains needle t
  end.

(** [s.split(c)] for a one-character separator: never the empty list. *)
Fixpoint split (c : ascii) (s : string) : list string :=
  match s with
  | EmptyString => [EmptyString]
  | String a t =>
      if Ascii.eqb a c then EmptyString :: split c t
      else match split c t with
           | [] => [String a EmptyString]
           | h :: r => String a h :: r
           end
  end.

(** [s.replace(c, '')] for a one-character [c]. *)
Fixpoint remove_char (c : ascii) (s : string) : string :=
  match s with
  | EmptyString => EmptyString
  | String a t =>
      if Ascii.eqb a c then remove_char c t else String a (remove_char c t)
  end.

(** Splits [s] around the last occurrence of the character [c]:
    [Some (before, after)], or [None] when [c] does not occur;
    this is [s.rfind(c)] followed by the two slices. *)
Fixpoint rsplit_char (c : ascii) (s : string) : option (string * string) :=
  match s with
  | EmptyString => None
  | String a t =>
      match rsplit_char c t with
      | Some (h, r) => Some (String a h, r)
      | None => if Ascii.eqb a c then Some (EmptyString, t) else None
      end
  end.

(** The part of [s] before the last occurrence of [sep], if [sep] occurs. *)
Fixpoint rfind_head (sep s : string) : option string :=
  match s with
  | EmptyString => if String.prefix sep s then Some EmptyString else None
  | String a t =>
      match rfind_head sep t with
      | Some h => Some (String a h)
      | None => if String.prefix sep s then Some EmptyString else None
      end
  end.

(** [s.rpartition(sep)[0]]: the text before the last [sep], or [''] when
    [sep] does not occur (rpartition then returns [('', '', s)]). *)
Definition rpartition_head (sep s : string) : string :=
  match rfind_head sep s with Some h => h | None => EmptyString end.

Definition lower_ascii (a : ascii) : ascii :=
  let n := nat_of_ascii a in
  if (65 <=? n)%nat && (n <=? 90)%nat then ascii_of_nat (n + 32) else a.

(** [s.lower()] on ASCII text. *)
Fixpoint lower (s : string) : string :=
  match s with
  | EmptyString => EmptyString
  | String a t => String (lower_ascii a) (lower t)
  end.

Fixpoint all_char (c : ascii) (s : string) : bool :=
  match s with
  | EmptyString => true
  | String a t => Ascii.eqb a c && all_char c t
  end.

End PyStr.

(* ------------------------------------------------------------------ *)
(** ** [os.path] on POSIX ([posixpath], [os.sep = '/']) *)

Module OsPath.
Import PyStr.

Definition sep : ascii := "/"%char.
Definition extsep : ascii := "."%char.

Definition isabs (p : string) : bool := String.prefix "/" p.

Fixpoint ends_with_sep (p : string) : bool :=
  match p with
  | EmptyString => false
  | String a EmptyString => Ascii.eqb a sep
  | String _ t => ends_with_sep t
  end.

(** [os.path.join(a, b)]. *)
Definition join (a b : string) : string :=
  if isabs b then b
  else if negb (truthy a) || ends_with_sep a then a ++ b
  else a ++ "/" ++ b.

(** [os.path.join(a, *ps)]. *)
Definition join_all (a : string) (ps : list string) : string :=
  fold_left join ps a.

(** [os.path.basename(p)]: what follows the last slash. *)
Definition basename (p : string) : string :=
  match rsplit_char sep p with
  | Some (_, t) => t
  | None => p
  end.

(** [os.path.splitext(p)]: the extension starts at the last dot of the last
    path component, unless only dots precede it in that component. *)
Definition splitext (p : string) : string * string :=
  let '(dir, name) :=
    match rsplit_char sep p with
    | Some (h, t) => (h ++ "/", t)
    | None => (EmptyString, p)
    end in
  match rsplit_char extsep name with
  | Some (stem, ext) =>
      if all_char extsep stem then (p, EmptyString)
      else (dir ++ stem, String extsep ext)
  | None => (p, EmptyString)
  end.

(** The loop of [normpath] over the components, [acc] being [new_comps]
    reversed. *)
Fixpoint norm_comps (rooted : bool) (acc comps : list string) : list string :=
  match comps with
  | [] => rev acc
  | c :: rest =>
      if String.eqb c "" || String.eqb c "." then norm_comps rooted acc rest
      else if negb (String.eqb c "..")
              || (negb rooted && match acc with [] => true | _ => false end)
              || match acc with h :: _ => String.eqb h ".." | [] => false end
      then norm_comps rooted (c :: acc) rest
      else norm_comps rooted (tl acc) rest
  end.

(** Number of slashes [normpath] keeps in front: POSIX keeps exactly two
    leading slashes and folds three or more into one. *)
Definition initial_slashes (p : string) : nat :=
  if String.prefix "/" p then
    if String.prefix "//" p && negb (String.prefix "///" p) then 2 else 1
  else 0.

Definition slashes (n : nat) : string :=
  match n with 0 => "" | 1 => "/" | _ => "//" end.

(** [os.path.normpath(p)]. *)
Definition normpath (p : string) : string :=
  if String.eqb p "" then "."
  else
    let k := initial_slashes p in
    let comps := norm_comps (0 <? k)%nat [] (split sep p) in
    let r := slashes k ++ String.concat "/" comps in
    if String.eqb r "" then "." else r.

(** [os.path.abspath(p)] in the working directory [cwd]. *)
Definition abspath (cwd p : string) : string :=
  normpath (if isabs p then p else join cwd p).

(** [[x for x in abspath(p).split(sep) if x]]. *)
Definition abs_parts (cwd p : string) : list string :=
  filter truthy (split sep (abspath cwd p)).

(** [commonprefix] of two component lists. *)
Fixpoint commonprefix (l1 l2 : list string) : list string :=
  match l1, l2 with
  | a :: r1, b :: r2 => if String.eqb a b then a :: commonprefix r1 r2 else []
  | _, _ => []
  end.

(** [os.path.relpath(path, start)]; [None] stands for the [ValueError]
    raised on an empty [path]. *)
Definition relpath (cwd path start : string) : option string :=
  if negb (truthy path) then None
  else
    let start_list := abs_parts cwd start in
    let path_list := abs_parts cwd path in
    let i := length (commonprefix start_list path_list) in
    let rel_list := (repeat ".." (length start_list - i) ++ skipn i path_list)%list in
    match rel_list with
    | [] => Some "."
    | a :: ps => Some (join_all a ps)
    end.

End OsPath.

(* ------------------------------------------------------------------ *)
(** ** [fnmatch] patterns, as [pathlib] uses them for one path component *)

Module Glob.

Inductive ptok : Type :=
| PStar                      (* [*]: any run of characters, dots included *)
| PAny                       (* [?] *)
| PChar (c : ascii)          (* a literal character *)
| PNotChar (c : ascii).      (* [[!c]] *)

(** Reads the pattern syntax the plugins use. *)
Fixpoint compile (s : string) : list ptok :=
  match s with
  | EmptyString => []
  | String "*" t => PStar :: compile t
  | String "?" t => PAny :: compile t
  | String "[" (String "!" (String c (String "]" t))) => PNotChar c :: compile t
  | String a t => PChar a :: compile t
  end.

(** Whole-name match, case sensitive as on POSIX. *)
Fixpoint matches (p : list ptok) (s : string) : bool :=
  match p with
  | [] => match s with EmptyString => true | _ => false end
  | PStar :: p' =>
      (fix star (u : string) : bool :=
         matches p' u ||
         match u with
         | EmptyString => false
         | String _ t => star t
         end) s
  | PAny :: p' =>
      match s with EmptyString => false | String _ t => matches p' t end
  | PChar c :: p' =>
      match s with
      | EmptyString => false
      | String a t => Ascii.eqb a c && matches p' t
      end
  | PNotChar c :: p' =>
      match s with
      | EmptyString => false
      | String a t => negb (Ascii.eqb a c) && matches p' t
      end
  end.

Definition fnmatch (name pat : string) : bool := matches (compile pat) name.

End Glob.

(* ------------------------------------------------------------------ *)
(** ** The file system: a tree of named entries, without symbolic links.
       Entries of a directory are kept in listing ([os.scandir]) order. *)

Module Fs.

Inductive node : Type :=
| File
| Dir (entries : list (string * node)).

Fixpoint get (name : string) (es : list (string * node)) : option node :=
  match es with
  | [] => None
  | (k, v) :: r => if String.eqb k name then Some v else get name r
  end.

Fixpoint del (name : string) (es : list (string * node)) : list (string * node) :=
  match es with
  | [] => []
  | (k, v) :: r => if String.eqb k name then r else (k, v) :: del name r
  end.

(** Replaces the entry [name] in place, or appends it. *)
Fixpoint set (name : string) (x : node) (es : list (string * node))
  : list (string * node) :=
  match es with
  | [] => [(name, x)]
  | (k, v) :: r => if String.eqb k name then (k, x) :: r else (k, v) :: set name x r
  end.

Fixpoint lookup (n : node) (cs : list string) : option node :=
  match cs with
  | [] => Some n
  | c :: cs' =>
      match n with
      | File => None
      | Dir es =>
          match get c es with
          | Some m => lookup m cs'
          | None => None
          end
      end
  end.

(** The tree without the entry at [cs]; [None] when there is none. *)
Fixpoint remove (n : node) (cs : list string) : option node :=
  match cs with
  | [] => None
  | c :: cs' =>
      match n with
      | File => None
      | Dir es =>
          match get c es with
          | None => None
          | Some m =>
              match cs' with
              | [] => Some (Dir (del c es))
              | _ :: _ =>
                  match remove m cs' with
                  | Some m' => Some (Dir (set c m' es))
                  | None => None
                  end
              end
          end
      end
  end.

(** The tree with [x] as the entry at [cs], replacing what was there;
    [None] when the parent of [cs] is not an existing directory. *)
Fixpoint insert (n : node) (cs : list string) (x : node) : option node :=
  match cs with
  | [] => None
  | c :: cs' =>
      match n with
      | File => None
      | Dir es =>
          match cs' with
          | [] => Some (Dir (set c x es))
          | _ :: _ =>
              match get c es with
              | Some m =>
                  match insert m cs' x with
                  | Some m' => Some (Dir (set c m' es))
                  | None => None
                  end
              | None => None
              end
          end
      end
  end.

Fixpoint is_prefix (l1 l2 : list string) : bool :=
  match l1, l2 with
  | [], _ => true
  | a :: r1, b :: r2 => String.eqb a b && is_prefix r1 r2
  | _ :: _, [] => false
  end.

Fixpoint eqb_list (l1 l2 : list string) : bool :=
  match l1, l2 with
  | [], [] => true
  | a :: r1, b :: r2 => String.eqb a b && eqb_list r1 r2
  | _, _ => false
  end.

(** May an entry [src] be moved over what is at the target? *)
Definition may_replace (src : node) (target : option node) : bool :=
  match target, src with
  | None, _ => true
  | Some File, File => true
  | Some (Dir []), Dir _ => true
  | Some _, _ => false
  end.

(** [rename(2)] on component paths; [None] is an [OSError]. *)
Definition rename (t : node) (src dst : list string) : option node :=
  match lookup t src with
  | None => None                                   (* ENOENT *)
  | Some n =>
      if eqb_list src dst then Some t              (* same entry: nothing to do *)
      else if is_prefix src dst then None          (* EINVAL: into itself *)
      else if negb (may_replace n (lookup t dst)) then None
      else match remove t src with
           | Some t1 => insert t1 dst n            (* ENOENT/ENOTDIR on the parent *)
           | None => None
           end
  end.


(** [str(Path(base) / name)]. *)
Definition child (base name : string) : string :=
  if String.eqb base "." then name
  else if OsPath.ends_with_sep base then base ++ name
  else base ++ "/" ++ name.

(** The paths [Path(base).rglob(pat)] yields below the directory [n]: for
    every directory in pre-order, its entries whose name matches. *)
Fixpoint walk (pat : string) (base : string) (n : node) : list string :=
  match n with
  | File => []
  | Dir es =>
      (map (fun e => child base (fst e))
           (filter (fun e => Glob.fnmatch (fst e) pat) es)
       ++ flat_map (fun e => walk pat (child base (fst e)) (snd e)) es)%list
  end.

End Fs.

(* ------------------------------------------------------------------ *)
(** ** What a plugin run can observe and do *)

Module Host.
Import PyStr.

Inductive level : Type := Debug | Info | Warning | Error.

(** The calls a run makes, in program order.  A logging call is recorded by
    its level and its message template; its arguments are not formatted. *)
Inductive event : Type :=
| Log (lvl : level) (template : string)
| Rename (src dst : string)                        (* os.rename *)
| Chmod (path : string) (mode : Z)                 (* os.chmod *)
| GetQueue                                         (* api.get_queue() *)
| DelQueueBulk (remove_from_client blacklist : bool)
                                                   (* api.del_queue_bulk(...) *)
| PostCommand (name path : string) (downloadClientId : option string).
                                                   (* api.post_command(...) *)

Inductive exn : Type :=
| ValueError (msg : string)
| NameError (name : string)
| OSError (call path : string).

Inductive outcome (A : Type) : Type :=
| Returned (a : A)
| Raised (e : exn).
Arguments Returned {A} a.
Arguments Raised {A} e.

(** The world outside the plugin: the working directory of the host
    process and the file system. *)
Record world : Type := { cwd : string; root : Fs.node }.

Definition with_root (w : world) (t : Fs.node) : world :=
  {| cwd := cwd w; root := t |}.

Definition M (A : Type) : Type := world -> outcome A * world * list event.

Definition result_of {A} (r : outcome A * world * list event) : outcome A :=
  fst (fst r).
Definition world_of {A} (r : outcome A * world * list event) : world :=
  snd (fst r).
Definition events_of {A} (r : outcome A * world * list event) : list event :=
  snd r.

Definition ret {A} (a : A) : M A := fun w => (Returned a, w, []).

(** Sequencing: an exception ends the run, keeping what was done so far. *)
Definition bind {A B} (c : M A) (k : A -> M B) : M B :=
  fun w =>
    let r1 := c w in
    match result_of r1 with
    | Returned a =>
        let r2 := k a (world_of r1) in
        (result_of r2, world_of r2, (events_of r1 ++ events_of r2)%list)
    | Raised e => (Raised e, world_of r1, events_of r1)
    end.

Definition raise {A} (e : exn) : M A := fun w => (Raised e, w, []).

Definition emit (e : event) : M unit := fun w => (Returned tt, w, [e]).

Definition read {A} (f : world -> A) : M A := fun w => (Returned (f w), w, []).

End Host.

Notation "x <- c ;; k" := (Host.bind c (fun x => k))
  (at level 61, c at next level, right associativity).
Notation "c ;; k" := (Host.bind c (fun _ => k))
  (at level 61, right associativity).

(** [logger.debug/info/warning/error]. *)
Module logger.
Definition debug (template : string) : Host.M unit :=
  Host.emit (Host.Log Host.Debug template).
Definition info (template : string) : Host.M unit :=
  Host.emit (Host.Log Host.Info template).
Definition error (template : string) : Host.M unit :=
  Host.emit (Host.Log Host.Error template).
End logger.

(** The [os] and [pathlib] calls of the plugins, on the modelled file system.
    A path is resolved as [os.path.abspath] does, lexically. *)
Module os.
Import Host.

Definition resolve (w : world) (p : string) : list string :=
  OsPath.abs_parts (cwd w) p.

Definition isdir_at (w : world) (p : string) : bool :=
  match Fs.lookup (root w) (resolve w p) with
  | Some (Fs.Dir _) => true
  | _ => false
  end.

Definition exists_at (w : world) (p : string) : bool :=
  match Fs.lookup (root w) (resolve w p) with
  | Some _ => true
  | None => false
  end.

Definition rename_at (w : world) (src dst : string) : option world :=
  match Fs.rename (root w) (resolve w src) (resolve w dst) with
  | Some t => Some (with_root w t)
  | None => None
  end.

(** [str(pathlib.Path(p))]: empty and [.] components and a trailing slash
    are dropped. *)
Definition pure_path (p : string) : string :=
  let comps :=
    filter (fun c => negb (String.eqb c "" || String.eqb c "."))
           (PyStr.split OsPath.sep p) in
  let r := OsPath.slashes (OsPath.initial_slashes p) ++ String.concat "/" comps in
  if String.eqb r "" then "." else r.

Definition rglob_at (w : world) (p pat : string) : list string :=
  match Fs.lookup (root w) (resolve w p) with
  | Some n => Fs.walk pat (pure_path p) n
  | None => []
  end.

(** [os.path.isdir(p)]. *)
Definition path_isdir (p : string) : M bool := read (fun w => isdir_at w p).

(** [os.path.exists(p)]. *)
Definition path_exists (p : string) : M bool := read (fun w => exists_at w p).

(** [os.rename(src, dst)]. *)
Definition rename (src dst : string) : M unit :=
  emit (Rename src dst) ;;
  fun w =>
    match rename_at w src dst with
    | Some w' => (Returned tt, w', [])
    | None => (Raised (OSError "rename" src), w, [])
    end.

(** [os.chmod(p, mode)]. *)
Definition chmod (p : string) (mode : Z) : M unit :=
  emit (Chmod p mode) ;;
  ok <- path_exists p ;;
  if ok then ret tt else raise (OSError "chmod" p).

(** [list(pathlib.Path(p).rglob(pat))]; nothing when [p] is not a
    directory. *)
Definition rglob (p pat : string) : M (list string) :=
  read (fun w => rglob_at w p pat).

End os.

(** Evaluating a name that is bound neither locally nor at module level. *)
Definition unbound_name {A} (name : string) : Host.M A :=
  Host.raise (Host.NameError name).

(* ------------------------------------------------------------------ *)
(** ** The media manager's API, as the [pyarr] client presents it *)

Module Api.
Import Host.

(** One record of the download queue; each key may be absent or [None]. *)
Record item : Type :=
  { outputPath : option string;
    downloadId : option string;
    title : option string }.

(** The dictionary [get_queue] returns, by its [records] key. *)
Record queue : Type := { records : option (list item) }.

(** [queue.get('records', [])]. *)
Definition get_records (q : queue) : list item :=
  match records q with Some l => l | None => [] end.

(** What a command or a deletion answers: a dictionary, by its [message]
    key, a list, or something else. *)
Inductive response : Type :=
| RespDict (message : option string)
| RespList
| RespOther.

Definition is_dict (r : response) : bool :=
  match r with RespDict _ => true | _ => false end.
Definition is_list (r : response) : bool :=
  match r with RespList => true | _ => false end.

(** [isinstance(result, dict) and result.get('message')]. *)
Definition has_message (r : response) : bool :=
  match r with RespDict m => PyStr.truthy_opt m | _ => false end.

(** The answers the remote service gives during one run. *)
Record t : Type :=
  { queue_answer : queue;
    delete_answer : response;
    command_answer : response }.

(** A Python value whose shape does not matter to the plugin. *)
Inductive pyobject : Type := PyObject.

Definition get_queue (api : t) : M queue :=
  emit GetQueue ;; ret (queue_answer api).

Definition del_queue_bulk (api : t) (data : pyobject)
           (remove_from_client blacklist : bool) : M response :=
  emit (DelQueueBulk remove_from_client blacklist) ;; ret (delete_answer api).

Definition post_command (api : t) (name path : string)
           (downloadClientId : option string) : M response :=
  emit (PostCommand name path downloadClientId) ;; ret (command_answer api).

End Api.

(** [os.path.relpath] in the monad: a [ValueError] on an empty path. *)
Definition os_path_relpath (path start : string) : Host.M string :=
  fun w =>
    match OsPath.relpath (Host.cwd w) path start with
    | Some r => (Host.Returned r, w, [])
    | None => (Host.Raised (Host.ValueError "no path specified"), w, [])
    end.

(** [s.split(os.sep)[0]]. *)
Definition first_segment (s : string) : string :=
  hd EmptyString (PyStr.split OsPath.sep s).

(** [for x in xs: body(x)]. *)
Fixpoint for_each {A} (xs : list A) (body : A -> Host.M unit) : Host.M unit :=
  match xs with
  | [] => Host.ret tt
  | x :: r => body x ;; for_each r body
  end.

(** The delay branch of [import_mode], the same lines in both notifiers
    (notify_radarr 297-303, notify_sonarr 307-313): hide the delivered file
    under a [.tmp] name unless another notifier already did. *)
Definition hide_file (dest_path : string) : Host.M unit :=
  let newname := dest_path ++ ".tmp" in
  logger.debug "Hiding file as '%s'" ;;
  hidden <- os.path_exists newname ;;
  if negb hidden then os.rename dest_path newname else Host.ret tt.

(** The completion branch of [import_mode], the same lines in both notifiers
    (notify_radarr 306-310, notify_sonarr 316-320): un-hide every hidden
    file and open up the destination directory. *)
Definition unhide_file (tmp_file : string) : Host.M unit :=
  logger.debug "Un-hiding file '%s'" ;;
  os.rename tmp_file (fst (OsPath.splitext tmp_file)).

Definition unhide_files (abspath_dest : string) : Host.M unit :=
  tmp_files <- os.rglob abspath_dest "*.tmp" ;;
  for_each tmp_files unhide_file ;;
  os.chmod abspath_dest 511.                                  (* 0o777 *)

Inductive flow : Type := Next | Break.

(* ------------------------------------------------------------------ *)
(** ** notify_radarr/plugin.py *)

Module notify_radarr.
Import Host PyStr.

(** The variables the queue loop of [import_mode] assigns. *)
Record scan : Type :=
  { match_ : bool;
    extension_match : bool;
    download_id : option string;
    movie_title : option string }.

(** Lines 312-313 and 320-322. *)
Definition scan0 : scan :=
  {| match_ := false; extension_match := true;
     download_id := None; movie_title := None |}.

(** Lines 331-340: the match test of one candidate. *)
Definition test_item (is_dir : bool) (dest_basename item_output_basename : string)
           (st : scan) : scan :=
  if is_dir then
    if String.eqb dest_basename item_output_basename then
      {| match_ := true; extension_match := extension_match st;
         download_id := download_id st; movie_title := movie_title st |}
    else st
  else
    if String.eqb (fst (OsPath.splitext dest_basename))
                  (fst (OsPath.splitext item_output_basename)) then
      {| match_ := true;
         extension_match :=
           if negb (String.eqb dest_basename item_output_basename) then false
           else extension_match st;
         download_id := download_id st; movie_title := movie_title st |}
    else st.

(** Lines 325-362: the body of the loop over the queue records. *)
Definition scan_item (api : Api.t) (is_dir : bool)
           (dest_basename abspath_dest : string)
           (item : Api.item) (st : scan) : M (scan * flow) :=
  if negb (truthy_opt (Api.outputPath item)) then ret (st, Next)   (* continue *)
  else
    let item_output_basename :=
      OsPath.basename (match Api.outputPath item with Some p => p | None => "" end) in
    logger.debug "    - candidate: '%s'" ;;
    let st := test_item is_dir dest_basename item_output_basename st in
    if match_ st then
      logger.debug "        * match *" ;;
      st' <- (if extension_match st then
                ret {| match_ := match_ st; extension_match := extension_match st;
                       download_id := Api.downloadId item;
                       movie_title := Api.title item |}
              else
                (* line 354: [data] is not a name of this function or module *)
                data <- unbound_name "data" ;;
                result <- Api.del_queue_bulk api data true false ;;
                logger.debug "Delete result:\n%s" ;;
                (if Api.is_dict result || Api.is_list result then
                   logger.debug "Removed item from queue - extension mismatch\n%s"
                 else ret tt) ;;
                (if Api.has_message result then
                   logger.error "Failed to removie item from queue: '%s'"
                 else ret tt) ;;
                ret st) ;;
      ret (st', Break)
    else ret (st, Next).

(** Lines 324-362: [for item in queue.get('records', [])]. *)
Fixpoint scan_queue (api : Api.t) (is_dir : bool)
         (dest_basename abspath_dest : string)
         (items : list Api.item) (st : scan) : M scan :=
  match items with
  | [] => ret st
  | item :: rest =>
      r <- scan_item api is_dir dest_basename abspath_dest item st ;;
      match snd r with
      | Break => ret (fst r)
      | Next => scan_queue api is_dir dest_basename abspath_dest rest (fst r)
      end
  end.

(** Lines 364-385: the import request and the report of its answer. *)
Definition run_import (api : Api.t) (abspath_dest : string)
           (download_id : option string) : M unit :=
  result <- (if truthy_opt download_id then
               logger.info "Queued import movie '%s' using downloadClientId: '%s'" ;;
               Api.post_command api "DownloadedMoviesScan" abspath_dest download_id
             else
               logger.info "Queued import using just the file path '%s'" ;;
               Api.post_command api "DownloadedMoviesScan" abspath_dest None) ;;
  logger.debug "Queued import result \n%s" ;;
  if Api.has_message result then
    logger.error "Failed to queued import of: '%s'"
  else
    logger.info "Successfully queued import of: '%s'".

(** Lines 312-385: what follows the delay decision. *)
Definition match_and_import (api : Api.t) (is_dir : bool)
           (dest_basename abspath_dest : string) : M unit :=
  queue <- Api.get_queue api ;;
  logger.debug "Searching queue for: '%s'" ;;
  st <- scan_queue api is_dir dest_basename abspath_dest
                   (Api.get_records queue) scan0 ;;
  run_import api abspath_dest (download_id st).

(** Line 295: is the delivery still incomplete? *)
Definition delay (sourcefile_count destfile_count : Z) (sources_removed : bool)
  : bool :=
  (destfile_count <? sourcefile_count)%Z
  || (sources_removed && negb (sourcefile_count =? 0)%Z).

(** Lines 260-385. *)
Definition import_mode (api : Api.t)
           (source_path dest_path intermediate_root import_root : string)
           (sources_removed : bool) : M unit :=
  source_rel <- os_path_relpath source_path intermediate_root ;;
  let source_basename := first_segment source_rel in
  dest_rel <- os_path_relpath dest_path import_root ;;
  let dest_basename := first_segment dest_rel in
  let abspath_source := OsPath.join intermediate_root source_basename in
  let abspath_dest := OsPath.join import_root dest_basename in
  if negb (contains abspath_source source_path)
     || negb (contains abspath_dest dest_path) then
    logger.error "Import root ('%s') / intermediate_root ('%s') don't match source/desination files. Probable misconfiguration, exiting"
  else
    is_dir <- os.path_isdir abspath_source ;;
    logger.info "%s-type import - processing: '%s'" ;;
    logger.debug "abspath_source:      '%s'" ;;
    logger.debug "abspath_dest:        '%s'" ;;
    if is_dir && negb (String.eqb intermediate_root import_root) then
      sources <- os.rglob abspath_source "[!.]*.*" ;;
      let sourcefile_count := Z.of_nat (length sources) in
      dests <- os.rglob abspath_dest "[!.]*.*" ;;
      let destfile_count := Z.of_nat (length dests) in
      logger.debug "Files in import directory:       %d" ;;
      logger.debug "Files in intermediate directory: %d" ;;
      if delay sourcefile_count destfile_count sources_removed then
        logger.info "Delaying import until all (%d) intermediate files are processed" ;;
        hide_file dest_path
        (* return *)
      else
        logger.info "All intermediate files have been processed" ;;
        unhide_files abspath_dest ;;
        match_and_import api is_dir dest_basename abspath_dest
    else
      match_and_import api is_dir dest_basename abspath_dest.

End notify_radarr.

(* ------------------------------------------------------------------ *)
(** ** notify_sonarr/plugin.py *)

Module notify_sonarr.
Import Host PyStr.

Record scan : Type :=
  { match_ : bool;
    download_id : option string;
    episode_title : option string }.

(** Lines 322-323 and 330. *)
Definition scan0 : scan :=
  {| match_ := false; download_id := None; episode_title := None |}.

(** Lines 339-345: the match test of one candidate. *)
Definition test_item (is_dir : bool) (dest_basename item_output_basename : string)
           (st : scan) : scan :=
  if is_dir then
    if String.eqb dest_basename item_output_basename then
      {| match_ := true; download_id := download_id st;
         episode_title := episode_title st |}
    else st
  else
    if String.eqb (fst (OsPath.splitext dest_basename))
                  (fst (OsPath.splitext item_output_basename)) then
      {| match_ := true; download_id := download_id st;
         episode_title := episode_title st |}
    else st.

(** Lines 333-350: the body of the loop over the queue records. *)
Definition scan_item (is_dir : bool) (dest_basename : string)
           (item : Api.item) (st : scan) : M (scan * flow) :=
  if negb (truthy_opt (Api.outputPath item)) then ret (st, Next)   (* continue *)
  else
    let item_output_basename :=
      OsPath.basename (match Api.outputPath item with Some p => p | None => "" end) in
    logger.debug "    - candidate: '%s'" ;;
    let st := test_item is_dir dest_basename item_output_basename st in
    if match_ st then
      logger.debug "        * match *" ;;
      ret ({| match_ := match_ st; download_id := Api.downloadId item;
              episode_title := Api.title item |}, Break)
    else ret (st, Next).

(** Lines 332-350: [for item in queue.get('records', [])]. *)
Fixpoint scan_queue (is_dir : bool) (dest_basename : string)
         (items : list Api.item) (st : scan) : M scan :=
  match items with
  | [] => ret st
  | item :: rest =>
      r <- scan_item is_dir dest_basename item st ;;
      match snd r with
      | Break => ret (fst r)
      | Next => scan_queue is_dir dest_basename rest (fst r)
      end
  end.

(** Lines 352-380: the import request, unless suppressed, and the report
    of its answer. *)
Definition run_import (api : Api.t) (is_dir : bool) (abspath_dest : string)
           (download_id : option string) : M unit :=
  if truthy_opt download_id && is_dir then
    logger.info "Supressing import trigger to avoid double-import; file is in a named directory which sonarr imports automatically"
    (* return *)
  else
    result <- (if truthy_opt download_id then
                 logger.info "Queued import episode '%s' using downloadClientId: '%s'" ;;
                 Api.post_command api "DownloadedEpisodesScan" abspath_dest download_id
               else
                 logger.info "Queued import using just the file path '%s'" ;;
                 Api.post_command api "DownloadedEpisodesScan" abspath_dest None) ;;
    logger.debug "Queued import result \n%s" ;;
    if Api.has_message result then
      logger.error "Failed to queued import of: '%s'"
    else
      logger.info "Successfully queued import of: '%s'".

(** Lines 322-380: what follows the delay decision. *)
Definition match_and_import (api : Api.t) (is_dir : bool)
           (dest_basename abspath_dest : string) : M unit :=
  queue <- Api.get_queue api ;;
  logger.debug "Current queue \n%s" ;;
  logger.debug "Searching queue for: '%s'" ;;
  st <- scan_queue is_dir dest_basename (Api.get_records queue) scan0 ;;
  run_import api is_dir abspath_dest (download_id st).

(** Lines 300-303. *)
Definition files_remaining (sourcefile_count destfile_count : Z)
           (sources_removed : bool) : Z :=
  if sources_removed then sourcefile_count
  else (sourcefile_count - destfile_count)%Z.

(** Lines 261-380. *)
Definition import_mode (api : Api.t)
           (source_path dest_path intermediate_root import_root : string)
           (sources_removed : bool) : M unit :=
  source_rel <- os_path_relpath source_path intermediate_root ;;
  let source_basename := first_segment source_rel in
  dest_rel <- os_path_relpath dest_path import_root ;;
  let dest_basename := first_segment dest_rel in
  let abspath_source := OsPath.join intermediate_root source_basename in
  let abspath_dest := OsPath.join import_root dest_basename in
  let abspath_dest := remove_char "\" abspath_dest in
  if negb (contains abspath_source source_path) then
    logger.error "Source file '%s' is not under intermediate root '%s' - file will not be processed."
  else if negb (contains abspath_dest dest_path) then
    logger.error "Destination file '%s' is not under import root '%s' - file will not be processed."
  else
    is_dir <- os.path_isdir abspath_source ;;
    logger.info "%s-type import - processing: '%s'" ;;
    logger.debug "Source:       '%s'" ;;
    logger.debug "Destination:  '%s'" ;;
    if is_dir && negb (String.eqb intermediate_root import_root) then
      sources <- os.rglob abspath_source "[!.]*.*" ;;
      let sourcefile_count := Z.of_nat (length sources) in
      dests <- os.rglob abspath_dest "[!.]*.*" ;;
      let destfile_count := Z.of_nat (length dests) in
      logger.debug "Files in import directory:        %d" ;;
      logger.debug "Files in intermediate directory:  %d" ;;
      let files_remaining :=
        files_remaining sourcefile_count destfile_count sources_removed in
      logger.info "Processing (%d of %d) files" ;;
      if (files_remaining >? 0)%Z then
        hide_file dest_path
        (* return *)
      else
        logger.info "All files processed, notifying sonarr" ;;
        unhide_files abspath_dest ;;
        match_and_import api is_dir dest_basename abspath_dest
    else
      match_and_import api is_dir dest_basename abspath_dest.

End notify_sonarr.

(* ------------------------------------------------------------------ *)
(** ** rarbg_fix/plugin.py *)

Module rarbg_fix.
Import PyStr.

(** The progress parser handed back to the host: [ffmpeg.Parser] or
    [mkvtoolnix.Parser]. *)
Inductive parser : Type := FfmpegParser | MkvtoolnixParser.

(** The keys of the [data] dictionary the runner reads or writes;
    [pass_num] is absent on the first call. *)
Record data : Type :=
  { file_in : string;
    file_out : string;
    pass_num : option Z;
    repeat : bool;
    exec_command : list string;
    command_progress_parser : option parser }.

Definition set_file_in (v : string) (d : data) : data :=
  {| file_in := v; file_out := file_out d; pass_num := pass_num d;
     repeat := repeat d; exec_command := exec_command d;
     command_progress_parser := command_progress_parser d |}.
Definition set_file_out (v : string) (d : data) : data :=
  {| file_in := file_in d; file_out := v; pass_num := pass_num d;
     repeat := repeat d; exec_command := exec_command d;
     command_progress_parser := command_progress_parser d |}.
Definition set_pass_num (v : Z) (d : data) : data :=
  {| file_in := file_in d; file_out := file_out d; pass_num := Some v;
     repeat := repeat d; exec_command := exec_command d;
     command_progress_parser := command_progress_parser d |}.
Definition set_repeat (v : bool) (d : data) : data :=
  {| file_in := file_in d; file_out := file_out d; pass_num := pass_num d;
     repeat := v; exec_command := exec_command d;
     command_progress_parser := command_progress_parser d |}.
Definition set_exec_command (v : list string) (d : data) : data :=
  {| file_in := file_in d; file_out := file_out d; pass_num := pass_num d;
     repeat := repeat d; exec_command := v;
     command_progress_parser := command_progress_parser d |}.
Definition set_command_progress_parser (v : parser) (d : data) : data :=
  {| file_in := file_in d; file_out := file_out d; pass_num := pass_num d;
     repeat := repeat d; exec_command := exec_command d;
     command_progress_parser := Some v |}.

(** What the probe of a file reports: [format.format_name] and
    [format.tags.title], each [''] when absent. *)
Record probe : Type :=
  { format_name : string;
    title : string }.

(** The [rarbg_fix.lib.ffmpeg] helpers the runner calls; their code is not
    part of the plugin: [Probe.file], which fails or yields a probe, and
    [StreamMapper.streams_need_processing]. *)
Record ffmpeg : Type :=
  { probe_file : string -> option probe;
    streams_need_processing : probe -> bool }.

(** Lines 267-270. *)
Definition finish (p : parser) (d : data) : data :=
  set_command_progress_parser p d.

(** Lines 105-270.  The logging calls and the input and output files set
    on the stream mapper, which is dropped on return, leave no trace in the
    returned dictionary. *)
Definition on_worker_process (lib : ffmpeg) (d : data) : data :=
  let abspath := file_in d in
  let basename :=
    rpartition_head "-WORKING-" (rpartition_head "." (file_out d)) in
  let pass_num := match pass_num d with Some n => n | None => 1%Z end in
  match probe_file lib abspath with
  | None => d
  | Some probe =>
      let parser := FfmpegParser in
      if (pass_num =? 1)%Z then
        if negb (contains "mp4" (format_name probe)) then d
        else if negb (streams_need_processing lib probe) then d
        else if negb (contains "rarbg" (lower (title probe))) then d
        else
          let d := set_repeat true d in
          let d := set_pass_num 2 d in
          let d := set_file_out (basename ++ ".rarbg_video.mkv") d in
          let exec_args :=
            ["-y"; "-i"; abspath; "-map"; "0:v"; "-map"; "0:s?";
             "-c:v"; "copy"; file_out d; "-map"; "0:a"; "-c:a"; "copy";
             basename ++ ".rarbg_audio.mkv"] in
          let d := set_exec_command ("ffmpeg" :: exec_args) d in
          finish parser d
      else if (pass_num =? 2)%Z then
        let d := set_repeat true d in
        let d := set_pass_num 3 d in
        let d := set_file_in (basename ++ ".rarbg_video.mkv") d in
        let d := set_file_out (basename ++ ".rarbg_video_fixed.mkv") d in
        let exec_args := ["-A"; "-S"; "-o"; file_out d; file_in d] in
        let d := set_exec_command ("mkvmerge" :: exec_args) d in
        let parser := MkvtoolnixParser in
        finish parser d
      else if (pass_num =? 3)%Z then
        let d := set_repeat true d in
        let d := set_pass_num 4 d in
        let d := set_file_in (basename ++ ".rarbg_audio.mkv") d in
        let d := set_file_out (basename ++ ".rarbg_audio_fixed.mkv") d in
        let exec_args := ["-D"; "-o"; file_out d; file_in d] in
        let d := set_exec_command ("mkvmerge" :: exec_args) d in
        let parser := MkvtoolnixParser in
        finish parser d
      else if (pass_num =? 4)%Z then
        let d := set_repeat false d in
        let d := set_file_out (basename ++ ".rarbg_fixed.mp4") d in
        let exec_args :=
          ["-y"; "-i"; basename ++ ".rarbg_video_fixed.mkv";
           "-i"; basename ++ ".rarbg_audio_fixed.mkv";
           "-c"; "copy"; "-map"; "0"; "-map"; "1"; file_out d] in
        let d := set_exec_command ("ffmpeg" :: exec_args) d in
        finish parser d
      else finish parser d
  end.

End rarbg_fix.

(* ------------------------------------------------------------------ *)
(** ** The vocabulary of the specification (sections 3.3 to 3.6) *)

Module Spec.
Import Host.

(** [path] relative to [root_dir]; [path] is taken to be non-empty. *)
Definition relative (w : world) (path root_dir : string) : string :=
  match OsPath.relpath (cwd w) path root_dir with
  | Some r => r
  | None => EmptyString
  end.

(** First path segment of [path] relative to [root_dir]. *)
Definition first_rel_segment (w : world) (path root_dir : string) : string :=
  first_segment (relative w path root_dir).

Definition sourceBasename (w : world) (sourcePath intermediateRoot : string) :=
  first_rel_segment w sourcePath intermediateRoot.

Definition destBasename (w : world) (destPath importRoot : string) :=
  first_rel_segment w destPath importRoot.

(** [absSource = intermediateRoot/sourceBasename]. *)
Definition absSource (w : world) (sourcePath intermediateRoot : string) :=
  OsPath.join intermediateRoot (sourceBasename w sourcePath intermediateRoot).

(** [absDest = importRoot/destBasename]. *)
Definition absDest (w : world) (destPath importRoot : string) :=
  OsPath.join importRoot (destBasename w destPath importRoot).

(** The destination the sonarr notifier works with: [absDest] without its
    backslashes. *)
Definition absDest_sonarr (w : world) (destPath importRoot : string) :=
  PyStr.remove_char "\" (absDest w destPath importRoot).

Definition is_log (e : event) : bool :=
  match e with Log _ _ => true | _ => false end.


(** A request to the remote service. *)
Definition is_api_call (e : event) : bool :=
  match e with
  | GetQueue | DelQueueBulk _ _ | PostCommand _ _ _ => true
  | _ => false
  end.

(** A queue-removal request. *)
Definition is_removal (e : event) : bool :=
  match e with DelQueueBulk _ _ => true | _ => false end.

(** An import-scan request. *)
Definition is_import_scan (e : event) : bool :=
  match e with PostCommand _ _ _ => true | _ => false end.

(** An import-scan request by path only. *)
Definition is_path_only_scan (e : event) : bool :=
  match e with PostCommand _ _ None => true | _ => false end.

(** An import-scan request bound to a download id. *)
Definition is_id_bound_scan (e : event) : bool :=
  match e with PostCommand _ _ (Some _) => true | _ => false end.

(** The file system and API calls of a run, logging left out. *)
Definition calls (evs : list event) : list event :=
  filter (fun e => negb (is_log e)) evs.


(** Does a removal request occur, followed later by a path-only import
    scan? *)
Fixpoint removal_before_path_scan (evs : list event) : bool :=
  match evs with
  | [] => false
  | e :: r =>
      (is_removal e && existsb is_path_only_scan r) || removal_before_path_scan r
  end.

(** [srcCount], [dstCount]: what [rglob('[!.]*.*')] yields below [dir]. *)
Definition count (w : world) (dir : string) : Z :=
  Z.of_nat (length (os.rglob_at w dir "[!.]*.*")).



(** [remaining], in the words of section 3.4. *)
Definition remaining (sourcesRemoved : bool) (srcCount dstCount : Z) : Z :=
  if sourcesRemoved then srcCount else (srcCount - dstCount)%Z.

(** A pair of paths that passes validation, [dst] being the destination
    the notifier reconstructed. *)
Definition accepted (w : world) (sourcePath destPath intermediateRoot : string)
           (dst : string) : bool :=
  PyStr.truthy sourcePath && PyStr.truthy destPath
  && PyStr.contains (absSource w sourcePath intermediateRoot) sourcePath
  && PyStr.contains dst destPath.

(** An accepted directory delivery with the intermediate root distinct
    from the import root: the deliveries the delay decision is about. *)
Definition staged_directory (w : world)
           (sourcePath destPath intermediateRoot importRoot : string)
           (dst : string) : bool :=
  accepted w sourcePath destPath intermediateRoot dst
  && os.isdir_at w (absSource w sourcePath intermediateRoot)
  && negb (String.eqb intermediateRoot importRoot).

(** [remaining] for a delivery in the world [w]. *)
Definition remaining_at (w : world) (sourcePath intermediateRoot : string)
           (dst : string) (sourcesRemoved : bool) : Z :=
  remaining sourcesRemoved
            (count w (absSource w sourcePath intermediateRoot))
            (count w dst).

(** A staged directory delivery that is still incomplete. *)
Definition delayed_delivery (w : world)
           (sourcePath destPath intermediateRoot importRoot : string)
           (dst : string) (sourcesRemoved : bool) : bool :=
  staged_directory w sourcePath destPath intermediateRoot importRoot dst
  && (remaining_at w sourcePath intermediateRoot dst sourcesRemoved >? 0)%Z.



(** The match rule of section 3.5 for one queue record. *)
Definition record_matches (isDir : bool) (destBasename : string)
           (r : Api.item) : bool :=
  match Api.outputPath r with
  | None => false
  | Some p =>
      PyStr.truthy p &&
      (if isDir then String.eqb destBasename (OsPath.basename p)
       else String.eqb (fst (OsPath.splitext destBasename))
                       (fst (OsPath.splitext (OsPath.basename p))))
  end.

(** Did the extensions of a matching record agree as well? *)
Definition same_basename (destBasename : string) (r : Api.item) : bool :=
  match Api.outputPath r with
  | None => false
  | Some p => String.eqb destBasename (OsPath.basename p)
  end.

(** The earliest record of the queue that matches. *)
Definition first_match (isDir : bool) (destBasename : string)
           (records : list Api.item) : option Api.item :=
  find (record_matches isDir destBasename) records.

(** The [downloadId] of the earliest matching record, if any. *)
Definition matched_id (isDir : bool) (destBasename : string)
           (records : list Api.item) : option string :=
  match first_match isDir destBasename records with
  | Some r => Api.downloadId r
  | None => None
  end.

(** Does the earliest matching record differ from the delivery in its
    extension? *)
Definition mismatched (isDir : bool) (destBasename : string)
           (records : list Api.item) : bool :=
  match first_match isDir destBasename records with
  | Some r => negb (same_basename destBasename r)
  | None => false
  end.

(** A [downloadId] is usable when it is neither [None] nor empty. *)
Definition usable (downloadId : option string) : bool :=
  PyStr.truthy_opt downloadId.

(** The un-hide request for one hidden path. *)
Definition unhide_call (tmp_file : string) : event :=
  Rename tmp_file (fst (OsPath.splitext tmp_file)).

(** Puts [evs] in front of the events of a run. *)
Definition after {A} (evs : list event) (r : outcome A * world * list event)
  : outcome A * world * list event :=
  (result_of r, world_of r, (evs ++ events_of r)%list).

(** The answer to a rejected pair of paths: one error is logged, the
    function returns, the file system is as before. *)
Definition is_rejection (evs : list event) : bool :=
  match evs with
  | [Log Error _] => true
  | _ => false
  end.

Definition rejected (w : world) (r : outcome unit * world * list event)
  : Prop :=
  result_of r = Returned tt /\ world_of r = w
  /\ is_rejection (events_of r) = true.



(** Two runs that end alike, in the same world, after the same file
    system and API calls: equal up to logging. *)
Definition same_run {A} (r1 r2 : outcome A * world * list event) : Prop :=
  result_of r1 = result_of r2
  /\ world_of r1 = world_of r2
  /\ calls (events_of r1) = calls (events_of r2).

(** The import-scan request of section 3.6 for a destination and the
    [downloadId] the queue yielded. *)
Definition import_scan (command dest : string) (downloadId : option string)
  : event :=
  PostCommand command dest (if usable downloadId then downloadId else None).

(** The remediation pipeline of rarbg_fix as a table: the command of each
    pass, from the input file and the base name of the working file. *)
Definition split_command (input basename : string) : list string :=
  ["ffmpeg"; "-y"; "-i"; input; "-map"; "0:v"; "-map"; "0:s?";
   "-c:v"; "copy"; basename ++ ".rarbg_video.mkv";
   "-map"; "0:a"; "-c:a"; "copy"; basename ++ ".rarbg_audio.mkv"].

Definition video_remux_command (basename : string) : list string :=
  ["mkvmerge"; "-A"; "-S"; "-o"; basename ++ ".rarbg_video_fixed.mkv";
   basename ++ ".rarbg_video.mkv"].

Definition audio_remux_command (basename : string) : list string :=
  ["mkvmerge"; "-D"; "-o"; basename ++ ".rarbg_audio_fixed.mkv";
   basename ++ ".rarbg_audio.mkv"].

Definition recombine_command (basename : string) : list string :=
  ["ffmpeg"; "-y"; "-i"; basename ++ ".rarbg_video_fixed.mkv";
   "-i"; basename ++ ".rarbg_audio_fixed.mkv";
   "-c"; "copy"; "-map"; "0"; "-map"; "1"; basename ++ ".rarbg_fixed.mp4"].

Definition pipeline_command (pass : Z) (input basename : string) : list string :=
  if (pass =? 1)%Z then split_command input basename
  else if (pass =? 2)%Z then video_remux_command basename
  else if (pass =? 3)%Z then audio_remux_command basename
  else if (pass =? 4)%Z then recombine_command basename
  else [].

(** The pass the runner is entered with, and the base name it derives. *)
Definition current_pass (d : rarbg_fix.data) : Z :=
  match rarbg_fix.pass_num d with Some n => n | None => 1%Z end.

Definition basename_of (d : rarbg_fix.data) : string :=
  PyStr.rpartition_head "-WORKING-"
    (PyStr.rpartition_head "." (rarbg_fix.file_out d)).

(** The three tests of the first pass. *)
Definition first_pass_gates (lib : rarbg_fix.ffmpeg) (p : rarbg_fix.probe) : bool :=
  PyStr.contains "mp4" (rarbg_fix.format_name p)
  && rarbg_fix.streams_need_processing lib p
  && PyStr.contains "rarbg" (PyStr.lower (rarbg_fix.title p)).

End Spec.

(* ------------------------------------------------------------------ *)
(** ** Concrete deliveries used in the examples below *)

Module Scenario.
Import Host.

(** A staging directory with two media files and an import directory that
    has received one of them. *)
Definition tree : Fs.node :=
  Fs.Dir
    [("inter", Fs.Dir [("Show", Fs.Dir [("a.mkv", Fs.File); ("b.mkv", Fs.File);
                                         (".x.nfo", Fs.File)])]);
     ("import", Fs.Dir [("Show", Fs.Dir [("a.mkv", Fs.File)]);
                        ("Film.mkv", Fs.File)])].

Definition w0 : world := {| cwd := "/"; root := tree |}.

Definition record (path id name : string) : Api.item :=
  {| Api.outputPath := Some path; Api.downloadId := Some id;
     Api.title := Some name |}.

Definition api_of (rs : list Api.item) : Api.t :=
  {| Api.queue_answer := {| Api.records := Some rs |};
     Api.delete_answer := Api.RespList;
     Api.command_answer := Api.RespDict None |}.





(** A queue whose first record lacks its output path and whose next two
    both name the directory [Show]. *)
Definition no_path : Api.item :=
  {| Api.outputPath := None; Api.downloadId := Some "ID0";
     Api.title := Some "Zero" |}.
Definition show1 : Api.item := record "/downloads/Show" "ID1" "One".
Definition show2 : Api.item := record "/other/Show" "ID2" "Two".
Definition show_queue : list Api.item := [no_path; show1; show2].

(** A queue whose only record is a download of [Film] in another
    container. *)
Definition film_mp4 : Api.item := record "/downloads/Film.mp4" "ID7" "Film".

(** An always succeeding probe of an mp4 file released by RARBG. *)
Definition probe0 : rarbg_fix.probe :=
  {| rarbg_fix.format_name := "mov,mp4,m4a,3gp,3g2,mj2";
     rarbg_fix.title := "Film.2020.1080p.RARBG" |}.

Definition lib0 : rarbg_fix.ffmpeg :=
  {| rarbg_fix.probe_file := fun _ => Some probe0;
     rarbg_fix.streams_need_processing := fun _ => true |}.

(** A probe that fails on every file. *)
Definition lib_fail : rarbg_fix.ffmpeg :=
  {| rarbg_fix.probe_file := fun _ => None;
     rarbg_fix.streams_need_processing := fun _ => true |}.

Definition data0 (input : string) (pass : option Z) : rarbg_fix.data :=
  {| rarbg_fix.file_in := input;
     rarbg_fix.file_out := "/cache/film-WORKING-1-1.mp4";
     rarbg_fix.pass_num := pass;
     rarbg_fix.repeat := false;
     rarbg_fix.exec_command := [];
     rarbg_fix.command_progress_parser := None |}.

End Scenario.

(* ================================================================== *)
(** * The rest of the plugins: the callers of [import_mode], the update
      mode, the file test of rarbg_fix and the mkvmerge progress parser *)

From Stdlib Require DecimalString DecimalZ DecimalPos.

(* ------------------------------------------------------------------ *)
(** ** More of Python's [str] and [int].  A string is read as its sequence
       of code points, all below 256. *)

Module Py.
Import PyStr.

(** ['%d' % n]: the decimal numeral of an [int]. *)
Definition format_d (n : Z) : string :=
  DecimalString.NilZero.string_of_int (Z.to_int n).

(** [s.split(sep)] for a non-empty separator of any length, scanning from
    the left; [skip] counts the characters of a separator just found that
    are still to be passed over. *)
Fixpoint split_from (sep : string) (skip : nat) (s : string) : list string :=
  match s with
  | EmptyString => [EmptyString]
  | String a t =>
      match skip with
      | S k => split_from sep k t
      | O =>
          if String.prefix sep s then
            EmptyString :: split_from sep (String.length sep - 1) t
          else match split_from sep 0 t with
               | [] => [String a EmptyString]
               | h :: r => String a h :: r
               end
      end
  end.

Definition split_str (sep s : string) : list string := split_from sep 0 s.

(** The white space [int] skips around a numeral: tab to carriage return,
    the space, NEL and the no-break space. *)
Definition is_space (a : ascii) : bool :=
  let n := nat_of_ascii a in
  ((9 <=? n)%nat && (n <=? 13)%nat) || (n =? 32)%nat || (n =? 133)%nat
  || (n =? 160)%nat.

Definition is_digit (a : ascii) : bool :=
  let n := nat_of_ascii a in (48 <=? n)%nat && (n <=? 57)%nat.

Fixpoint lstrip (s : string) : string :=
  match s with
  | EmptyString => EmptyString
  | String a t => if is_space a then lstrip t else s
  end.

Fixpoint rstrip (s : string) : string :=
  match s with
  | EmptyString => EmptyString
  | String a t =>
      match rstrip t with
      | EmptyString => if is_space a then EmptyString else String a EmptyString
      | r => String a r
      end
  end.

(** The digits of a numeral, its underscores dropped: one underscore may
    stand between two digits, nowhere else; [None] for any other text. *)
Fixpoint digits (after_digit : bool) (s : string) : option string :=
  match s with
  | EmptyString => if after_digit then Some EmptyString else None
  | String a t =>
      if is_digit a then option_map (String a) (digits true t)
      else if Ascii.eqb a "_" && after_digit then digits false t
      else None
  end.

(** [int(s)] for a [str], base 10: [None] stands for the [ValueError]. *)
Definition int_of_str (s : string) : option Z :=
  let s := lstrip (rstrip s) in
  let '(negative, body) :=
    match s with
    | String "-" t => (true, t)
    | String "+" t => (false, t)
    | _ => (false, s)
    end in
  match digits false body with
  | Some ds =>
      match DecimalString.NilEmpty.uint_of_string ds with
      | Some u => Some (if negative then (- Z.of_uint u)%Z else Z.of_uint u)
      | None => None
      end
  | None => None
  end.

(** Does every character of [s] pass the test [p]? *)
Fixpoint all_chars (p : ascii -> bool) (s : string) : bool :=
  match s with
  | EmptyString => true
  | String a t => p a && all_chars p t
  end.

(** The value of an optional [int] when it is truthy: neither absent,
    nor [None], nor 0. *)
Definition nonzero (o : option Z) : option Z :=
  match o with
  | Some n => if (n =? 0)%Z then None else Some n
  | None => None
  end.

End Py.

(* ------------------------------------------------------------------ *)
(** ** rarbg_fix/lib/mkvtoolnix/parser.py *)

Module mkvtoolnix.
Import PyStr.

(** What [self.percent] may hold.  The attribute is inherited from
    [ffmpeg.Parser], whose code is not part of the plugin; this parser
    assigns it a [str]. *)
Inductive value : Type :=
| PyNone
| PyInt (n : Z)
| PyStr (s : string).

Inductive error : Type := ValueError | TypeError.

(** [int(v)]. *)
Definition int (v : value) : Z + error :=
  match v with
  | PyNone => inr TypeError
  | PyInt n => inl n
  | PyStr s =>
      match Py.int_of_str s with
      | Some n => inl n
      | None => inr ValueError
      end
  end.

(** Lines 26-48, [Parser.parse_progress]: from [self.percent] and a line of
    output to the new [self.percent], which is also the value of the key
    [percent] of the dictionary returned, or to the exception raised. *)
Definition parse_progress (percent : value) (line_text : string)
  : value + error :=
  if truthy line_text && contains "Progress: " line_text then
    let _percent :=
      match Py.split_str "Progress: " line_text with
      | _ :: text :: _ => Some (hd EmptyString (split "%" text))
      | _ => None                                   (* IndexError: pass *)
      end in
    match _percent with
    | Some p =>
        if truthy p then
          match Py.int_of_str p with
          | None => inr ValueError
          | Some a =>
              match int percent with
              | inr e => inr e
              | inl b => if (a >? b)%Z then inl (PyStr p) else inl percent
              end
          end
        else inl percent
    | None => inl percent
    end
  else inl percent.

End mkvtoolnix.

(* ------------------------------------------------------------------ *)
(** ** rarbg_fix/plugin.py: the library file test *)

Module rarbg_fix_test.
Import PyStr.

(** The keys of the [data] dictionary of the file test that the runner
    reads or writes. *)
Record data : Type :=
  { path : string;
    add_file_to_pending_tasks : bool }.

(** Lines 52-102, [on_library_management_file_test].  [init_probe] tells
    whether [ffmpeg.Probe.init_probe] hands back a probe object; the
    logging calls leave no trace in the returned dictionary. *)
Definition on_library_management_file_test (lib : rarbg_fix.ffmpeg)
           (init_probe : bool) (d : data) : data :=
  let abspath := path d in
  if negb init_probe then d
  else
    match rarbg_fix.probe_file lib abspath with
    | None => d
    | Some probe =>
        if negb (contains "mp4" (rarbg_fix.format_name probe)) then d
        else if negb (contains "rarbg" (lower (rarbg_fix.title probe))) then d
        else if rarbg_fix.streams_need_processing lib probe then
          {| path := path d; add_file_to_pending_tasks := true |}
        else d
    end.

End rarbg_fix_test.

(* ------------------------------------------------------------------ *)
(** ** The other modes of a notifier: what a task run can do besides the
       calls of [import_mode] *)

Module Pyarr.

(** The exceptions of [pyarr.exceptions] the notifiers handle. *)
Inductive error : Type :=
| PyarrUnauthorizedError
| PyarrAccessRestricted
| PyarrResourceNotFound
| PyarrBadGateway
| PyarrConnectionError.

End Pyarr.

Module Task.

Inductive exn : Type :=
| Plain (e : Host.exn)             (* raised by the code of [import_mode] *)
| PyarrError (e : Pyarr.error)
| AttributeError (name : string)
| KeyError (key : string)
| InvalidSize                      (* humanfriendly.InvalidSize *)
| OtherError (name : string).      (* anything else the client raises *)

(** A keyword argument of [post_command]. *)
Inductive arg : Type :=
| Int (n : Z)
| Ints (l : list Z).

(** The calls of a task run, in program order. *)
Inductive event : Type :=
| Did (e : Host.event)
| LookupMovie (term : string)                  (* api.lookup_movie(term) *)
| GetParsedTitle (title : string)              (* api.get_parsed_title(title) *)
| GetEpisodeFile (series_id : Z)     (* api.get_episode_file(id, series=True) *)
| Command (name : string) (kwargs : list (string * arg))
                                               (* api.post_command(name, **kwargs) *)
| Sleep (seconds : Z).                         (* time.sleep(seconds) *)

Inductive outcome (A : Type) : Type :=
| Returned (a : A)
| Raised (e : exn).
Arguments Returned {A} a.
Arguments Raised {A} e.

Definition M (A : Type) : Type :=
  Host.world -> outcome A * Host.world * list event.

Definition result_of {A} (r : outcome A * Host.world * list event) : outcome A :=
  fst (fst r).
Definition world_of {A} (r : outcome A * Host.world * list event) : Host.world :=
  snd (fst r).
Definition events_of {A} (r : outcome A * Host.world * list event) : list event :=
  snd r.

Definition ret {A} (a : A) : M A := fun w => (Returned a, w, []).

Definition bind {A B} (c : M A) (k : A -> M B) : M B :=
  fun w =>
    let r1 := c w in
    match result_of r1 with
    | Returned a =>
        let r2 := k a (world_of r1) in
        (result_of r2, world_of r2, (events_of r1 ++ events_of r2)%list)
    | Raised e => (Raised e, world_of r1, events_of r1)
    end.

Definition raise {A} (e : exn) : M A := fun w => (Raised e, w, []).

Definition emit (e : event) : M unit := fun w => (Returned tt, w, [e]).

(** A run of the code of [import_mode], as part of a task run. *)
Definition lift {A} (c : Host.M A) : M A :=
  fun w =>
    let r := c w in
    (match Host.result_of r with
     | Host.Returned a => Returned a
     | Host.Raised e => Raised (Plain e)
     end,
     Host.world_of r, map Did (Host.events_of r)).

(** [try: body / except ...: handler]: [handler e] is [None] when no
    [except] clause matches [e]. *)
Definition try_except {A} (body : M A) (handler : exn -> option (M A)) : M A :=
  fun w =>
    let r1 := body w in
    match result_of r1 with
    | Returned a => (Returned a, world_of r1, events_of r1)
    | Raised e =>
        match handler e with
        | Some h =>
            let r2 := h (world_of r1) in
            (result_of r2, world_of r2, (events_of r1 ++ events_of r2)%list)
        | None => (Raised e, world_of r1, events_of r1)
        end
    end.

(** Puts [evs] in front of the events of a run. *)
Definition after {A} (evs : list event) (r : outcome A * Host.world * list event)
  : outcome A * Host.world * list event :=
  (result_of r, world_of r, (evs ++ events_of r)%list).

(** What a method of the client does when called: it answers or raises. *)
Inductive answer (A : Type) : Type :=
| Answers (a : A)
| Fails (e : exn).
Arguments Answers {A} a.
Arguments Fails {A} e.

(** A call of the client: the request is made, then answered. *)
Definition call {A} (e : event) (a : answer A) : M A :=
  bind (emit e) (fun _ => match a with Answers x => ret x | Fails err => raise err end).

(** [result.get('message')]: only a dictionary has the method. *)
Definition get_message (result : Api.response) : M (option string) :=
  match result with
  | Api.RespDict m => ret m
  | _ => raise (AttributeError "get")
  end.

(** [time.sleep(seconds)]. *)
Definition sleep (seconds : Z) : M unit := emit (Sleep seconds).

Definition is_log (e : event) : bool :=
  match e with Did (Host.Log _ _) => true | _ => false end.

(** The calls of a task run, logging left out. *)
Definition calls (evs : list event) : list event :=
  filter (fun e => negb (is_log e)) evs.

(** A call of [import_mode] that changes the file system. *)
Definition changes_files (e : Host.event) : bool :=
  match e with
  | Host.Rename _ _ | Host.Chmod _ _ => true
  | _ => false
  end.

(** A call of a task run that changes the file system. *)
Definition is_fs_call (e : event) : bool :=
  match e with
  | Did e' => changes_files e'
  | _ => false
  end.

(** A request to the media manager. *)
Definition is_request (e : event) : bool :=
  match e with
  | Did e' => Spec.is_api_call e'
  | LookupMovie _ | GetParsedTitle _ | GetEpisodeFile _ | Command _ _ => true
  | Sleep _ => false
  end.

End Task.

Declare Scope task_scope.
Delimit Scope task_scope with task.
Notation "x <- c ;; k" := (Task.bind c (fun x => k))
  (at level 61, c at next level, right associativity) : task_scope.
Notation "c ;; k" := (Task.bind c (fun _ => k))
  (at level 61, right associativity) : task_scope.

(** [logger] calls inside a task run. *)
Module log.
Definition debug (template : string) : Task.M unit :=
  Task.lift (logger.debug template).
Definition info (template : string) : Task.M unit :=
  Task.lift (logger.info template).
Definition error (template : string) : Task.M unit :=
  Task.lift (logger.error template).
End log.

(** The second line the notifiers log for an exception of the client;
    [service] is the media manager's name in the message. *)
Definition pyarr_message (service : string) (e : Pyarr.error) : string :=
  match e with
  | Pyarr.PyarrUnauthorizedError =>
      "Unauthorized. Please ensure valid API Key is used."
  | Pyarr.PyarrAccessRestricted =>
      "Access restricted. Please ensure API Key has correct permissions"
  | Pyarr.PyarrResourceNotFound => "Resource not found"
  | Pyarr.PyarrBadGateway => "Bad Gateway. Check your server is accessible"
  | Pyarr.PyarrConnectionError =>
      "Timeout connecting to " ++ service ++ ". Check your server is accessible"
  end.

(** [for i, x in enumerate(xs, start): body(i, x)]. *)
Fixpoint for_each_from {A} (start : nat) (xs : list A)
         (body : nat -> A -> Task.M unit) : Task.M unit :=
  match xs with
  | [] => Task.ret tt
  | x :: r => (body start x ;; for_each_from (S start) r body)%task
  end.

(** What the host gives a notifier besides the file system tree. *)
Module Unmanic.

(** The plugin settings, with the types of their defaults (both notifiers,
    lines 46-57). *)
Record settings : Type :=
  { host_url : string;
    api_key : string;
    mode : string;
    rename_files : bool;
    limit_import_on_file_size : bool;
    minimum_file_size : string;
    import_root : string;
    delay_import : bool;
    intermediate_root : string;
    sources_removed : bool }.

(** [data['source_data']]. *)
Record source_data : Type := { abspath : option string }.

(** The keys of the [data] dictionary of [on_postprocessor_task_results]
    that the runner reads; [None] is an absent key. *)
Record task_data : Type :=
  { library_id : option Z;
    source : option source_data;
    destination_files : option (list string) }.

(** What lies outside the plugin and the modelled tree: the size [os.stat]
    reports for an existing path, [humanfriendly.parse_size] ([None] is its
    [InvalidSize]), and the stored settings [Settings(library_id=...)] and
    [Settings()] read. *)
Record env : Type :=
  { st_size : Host.world -> string -> Z;
    parse_size : string -> option Z;
    Settings : option Z -> settings }.

(** [os.stat(path).st_size]. *)
Definition os_stat_size (e : env) (path : string) : Task.M Z :=
  fun w =>
    if os.exists_at w path then (Task.Returned (st_size e w path), w, [])
    else (Task.Raised (Task.Plain (Host.OSError "stat" path)), w, []).

(** [humanfriendly.parse_size(text)]. *)
Definition humanfriendly_parse_size (e : env) (text : string) : Task.M Z :=
  match parse_size e text with
  | Some n => Task.ret n
  | None => Task.raise Task.InvalidSize
  end.

(** [check_file_size_under_max_file_size] (notify_radarr 170-174,
    notify_sonarr 180-184, the same lines). *)
Definition check_file_size_under_max_file_size (e : env)
           (path minimum_file_size : string) : Task.M bool :=
  (st_size <- os_stat_size e path ;;
   minimum <- humanfriendly_parse_size e minimum_file_size ;;
   if (minimum <? st_size)%Z then Task.ret false else Task.ret true)%task.

(** The intermediate root [process_files] works with (notify_radarr
    394-397, notify_sonarr 389-392). *)
Definition effective_intermediate_root (s : settings) : string :=
  if delay_import s && PyStr.truthy (intermediate_root s)
  then intermediate_root s
  else import_root s.

End Unmanic.

(** [import_mode] called with a source path that may be [None]:
    [os.path.relpath(None, ...)] raises the [ValueError] of an empty
    path. *)
Definition with_source_path {A} (source_path : option string)
           (import_mode : string -> Host.M A) : Host.M A :=
  match source_path with
  | Some p => import_mode p
  | None => Host.raise (Host.ValueError "no path specified")
  end.

(* ------------------------------------------------------------------ *)
(** ** notify_radarr/plugin.py: [update_mode], [process_files] and the
       runner *)

Module notify_radarr_task.
Import Task.

(** One result of a movie lookup, by the keys [update_mode] reads. *)
Record movie : Type :=
  { id : option Z;
    title : option string }.

(** The [RadarrAPI] client, by what its methods answer while one
    destination file is processed. *)
Record api : Type :=
  { lookup_movie_answer : string -> answer (list movie);
    post_command_answer : string -> answer Api.response;
    import_answers : Api.t }.

Definition lookup_movie (a : api) (term : string) : M (list movie) :=
  call (LookupMovie term) (lookup_movie_answer a term).

Definition post_command (a : api) (name : string)
           (kwargs : list (string * arg)) : M Api.response :=
  call (Command name kwargs) (post_command_answer a name).

(** The [except] clauses of lines 213-232 and 243-257: two errors are
    logged. *)
Definition on_pyarr_error {A} (template : string) (a : A)
  : exn -> option (M A) :=
  fun e =>
    match e with
    | PyarrError p =>
        Some (log.error template ;;
              log.error (pyarr_message "radarr" p) ;;
              ret a)%task
    | _ => None
    end.

(** Lines 200-232: the refresh request; [false] stands for the [return]
    that ends [update_mode]. *)
Definition refresh_movie (a : api) (movie_id : Z) : M bool :=
  try_except
    (result <- post_command a "RefreshMovie" [("movieIds", Ints [movie_id])] ;;
     log.debug "Received result:\n%s" ;;
     message <- get_message result ;;
     if PyStr.truthy_opt message then
       log.error "Failed to queue refresh of movie ID '%s' for file: '%s'" ;;
       log.error "Response from radarr: %s" ;;
       ret false                                                (* return *)
     else
       log.info "Successfully queued refresh of movie '%s' for file: '%s'" ;;
       ret true)%task
    (on_pyarr_error "Failed to queue refresh of movie '%s' for file: '%s'"
                    false).

(** Lines 235-257: the rename request. *)
Definition rename_movie (a : api) (movie_id : Z) : M unit :=
  (sleep 3 ;;
   try_except
     (result <- post_command a "RenameMovie" [("movieIds", Ints [movie_id])] ;;
      log.debug "Received result for 'RenameMovie' command:\n%s" ;;
      if Api.is_dict result then
        log.info "Successfully triggered rename of movie '%s' for file: '%s'"
      else
        log.error "Failed to trigger rename of movie ID '%s' for file: '%s'")
     (on_pyarr_error "Failed to trigger rename of movie '%s' for file: '%s'"
                     tt))%task.

(** Lines 177-257. *)
Definition update_mode (a : api) (abspath : string) (rename_files : bool)
  : M unit :=
  (let basename := OsPath.basename abspath in
   lookup_results <- lookup_movie a basename ;;
   (* lines 185-189: the first result with an id *)
   let movie_data :=
     find (fun result =>
             match Py.nonzero (id result) with Some _ => true | None => false end)
          lookup_results in
   let movie_title :=
     match movie_data with Some m => title m | None => None end in
   log.debug "Detected movie title: %s" ;;
   let movie_id := match movie_data with Some m => id m | None => None end in
   match Py.nonzero movie_id with
   | None =>
       log.error "Missing movie ID. Failed to queue refresh of movie for file: '%s'"
       (* return *)
   | Some movie_id =>
       log.debug "Detected movie ID: %s" ;;
       refreshed <- refresh_movie a movie_id ;;
       if refreshed && rename_files then rename_movie a movie_id else ret tt
   end)%task.

(** Lines 388-411.  [RadarrAPI host_url api_key n] is the client while the
    [n]-th destination file is processed. *)
Definition process_files (e : Unmanic.env) (RadarrAPI : string -> string -> nat -> api)
           (settings : Unmanic.settings) (source_file : option string)
           (destination_files : list string) (host_url api_key : string)
  : M unit :=
  let api := RadarrAPI host_url api_key in
  let mode := Unmanic.mode settings in
  let rename_files := Unmanic.rename_files settings in
  let import_root := Unmanic.import_root settings in
  let intermediate_root := Unmanic.effective_intermediate_root settings in
  let sources_removed := Unmanic.sources_removed settings in
  for_each_from 0 destination_files
    (fun n dest_file =>
       if String.eqb mode "update_mode" then
         update_mode (api n) dest_file rename_files
       else if String.eqb mode "import_mode" then
         (let minimum_file_size := Unmanic.minimum_file_size settings in
          small <- (if negb (Unmanic.delay_import settings) then
                      Unmanic.check_file_size_under_max_file_size
                        e dest_file minimum_file_size
                    else ret false) ;;
          if small then
            log.info "Ignoring file as it is under configured minimum size file: '%s'"
            (* continue *)
          else
            log.debug "Calling import source with source_file: '%s', dest_file: '%s'" ;;
            lift (with_source_path source_file
                    (fun source_path =>
                       notify_radarr.import_mode (import_answers (api n))
                         source_path dest_file intermediate_root import_root
                         sources_removed)))%task
       else ret tt).

(** Lines 414-451. *)
Definition on_postprocessor_task_results (e : Unmanic.env)
           (RadarrAPI : string -> string -> nat -> api)
           (data : Unmanic.task_data) : M unit :=
  let settings :=
    match Py.nonzero (Unmanic.library_id data) with
    | Some library_id => Unmanic.Settings e (Some library_id)
    | None => Unmanic.Settings e None
    end in
  let source_file :=
    match Unmanic.source data with
    | Some sd => Unmanic.abspath sd
    | None => None
    end in
  let destination_files :=
    match Unmanic.destination_files data with Some l => l | None => [] end in
  let host_url := Unmanic.host_url settings in
  let api_key := Unmanic.api_key settings in
  process_files e RadarrAPI settings source_file destination_files
                host_url api_key.

End notify_radarr_task.

(* ------------------------------------------------------------------ *)
(** ** notify_sonarr/plugin.py: [ordinalize], [update_mode],
       [process_files] and the runner *)

Module notify_sonarr_task.
Import Task.

(** Lines 166-178. *)
Definition ordinalize (number : Z) : string :=
  let ones := (number mod 10)%Z in
  let suffix :=
    if (number >? 3)%Z && (number <? 21)%Z then "th"
    else if (ones =? 1)%Z then "st"
    else if (ones =? 2)%Z then "nd"
    else if (ones =? 3)%Z then "rd"
    else "th" in
  Py.format_d number ++ suffix.

(** The [series] entry of a parsed title, by the keys [update_mode]
    reads. *)
Record series : Type :=
  { title : option string;
    id : option Z }.

(** The [SonarrAPI] client, by what its methods answer while one
    destination file is processed: a parsed title by its [series] key, an
    episode file by its [id] key. *)
Record api : Type :=
  { get_parsed_title_answer : string -> answer (option series);
    post_command_answer : string -> answer Api.response;
    get_episode_file_answer : Z -> answer (list (option Z));
    import_answers : Api.t }.

Definition get_parsed_title (a : api) (term : string) : M (option series) :=
  call (GetParsedTitle term) (get_parsed_title_answer a term).

Definition post_command (a : api) (name : string)
           (kwargs : list (string * arg)) : M Api.response :=
  call (Command name kwargs) (post_command_answer a name).

Definition get_episode_file (a : api) (series_id : Z) : M (list (option Z)) :=
  call (GetEpisodeFile series_id) (get_episode_file_answer a series_id).

(** Line 235: [[episode['id'] for episode in rename_list]]. *)
Fixpoint episode_ids (rename_list : list (option Z)) : M (list Z) :=
  match rename_list with
  | [] => ret []
  | Some i :: r => (ids <- episode_ids r ;; ret (i :: ids))%task
  | None :: _ => raise (KeyError "id")
  end.

(** The first line logged by the [except] clauses of lines 210-229. *)
Definition rescan_failed (p : Pyarr.error) : string :=
  match p with
  | Pyarr.PyarrConnectionError =>
      "Failed to queued refresh of series ID '%s' for file: '%s'"
  | _ => "Failed to queue refresh of series ID '%s' for file: '%s'"
  end.

(** Lines 200-229: the rescan request; [false] stands for the [return]
    that ends [update_mode]. *)
Definition rescan_series (a : api) (series_id : Z) : M bool :=
  try_except
    (result <- post_command a "RescanSeries" [("seriesId", Int series_id)] ;;
     message <- get_message result ;;
     if PyStr.truthy_opt message then
       log.error "Failed to queue refresh of series ID '%s' for file: '%s'" ;;
       log.error "Response from sonarr: %s" ;;
       ret false                                                (* return *)
     else
       log.info "Successfully queued refresh of the Series '%s' for file: '%s'" ;;
       ret true)%task
    (fun e =>
       match e with
       | PyarrError p =>
           Some (log.error (rescan_failed p) ;;
                 log.error (pyarr_message "sonarr" p) ;;
                 ret false)%task                                (* return *)
       | _ => None
       end).

(** Lines 232-258: the rename request. *)
Definition rename_episode_files (a : api) (series_id : Z) : M unit :=
  (sleep 10 ;;
   try_except
     (rename_list <- get_episode_file a series_id ;;
      file_ids <- episode_ids rename_list ;;
      result <- post_command a "RenameFiles"
                  [("seriesId", Int series_id); ("files", Ints file_ids)] ;;
      if Api.is_dict result then
        log.info "Successfully triggered rename of series '%s' for file: '%s'"
      else
        log.error "Failed to trigger rename of series ID '%s' for file: '%s'")
     (fun e =>
        match e with
        | PyarrError p =>
            Some (log.error "Failed to trigger rename of series '%s' for file: '%s'" ;;
                  log.error (pyarr_message "sonarr" p))
        | _ =>                                       (* except BaseException *)
            Some (log.error "Failed to trigger rename of series ID '%s' for file: '%s'\nError received: %s")
        end))%task.

(** Lines 187-258. *)
Definition update_mode (a : api) (dest_path : string) (rename_files : bool)
  : M unit :=
  (let basename := OsPath.basename dest_path in
   episode_data <- get_parsed_title a basename ;;
   let series_title :=
     match episode_data with Some s => title s | None => None end in
   let series_id :=
     match episode_data with Some s => id s | None => None end in
   match Py.nonzero series_id with
   | None =>
       log.error "Missing series ID. Failed to queued refresh of series for file: '%s'"
       (* return *)
   | Some series_id =>
       rescanned <- rescan_series a series_id ;;
       if rescanned && rename_files then rename_episode_files a series_id
       else ret tt
   end)%task.

(** Lines 383-406.  [SonarrAPI host_url api_key n] is the client while the
    [n]-th destination file is processed. *)
Definition process_files (e : Unmanic.env) (SonarrAPI : string -> string -> nat -> api)
           (settings : Unmanic.settings) (source_file : option string)
           (destination_files : list string) (host_url api_key : string)
  : M unit :=
  let api := SonarrAPI host_url api_key in
  let mode := Unmanic.mode settings in
  let rename_files := Unmanic.rename_files settings in
  let import_root := Unmanic.import_root settings in
  let intermediate_root := Unmanic.effective_intermediate_root settings in
  let sources_removed := Unmanic.sources_removed settings in
  for_each_from 0 destination_files
    (fun n dest_file =>
       if String.eqb mode "update_mode" then
         update_mode (api n) dest_file rename_files
       else if String.eqb mode "import_mode" then
         (let minimum_file_size := Unmanic.minimum_file_size settings in
          small <- (if negb (Unmanic.delay_import settings) then
                      Unmanic.check_file_size_under_max_file_size
                        e dest_file minimum_file_size
                    else ret false) ;;
          if small then
            log.info "Ignoring file as it is under configured minimum size file: '%s'"
            (* continue *)
          else
            log.debug "Calling import source with source_file: '%s', dest_file: '%s'" ;;
            lift (with_source_path source_file
                    (fun source_path =>
                       notify_sonarr.import_mode (import_answers (api n))
                         source_path dest_file intermediate_root import_root
                         sources_removed)))%task
       else ret tt).

(** Lines 409-437. *)
Definition on_postprocessor_task_results (e : Unmanic.env)
           (SonarrAPI : string -> string -> nat -> api)
           (data : Unmanic.task_data) : M unit :=
  let settings :=
    match Py.nonzero (Unmanic.library_id data) with
    | Some library_id => Unmanic.Settings e (Some library_id)
    | None => Unmanic.Settings e None
    end in
  let source_file :=
    match Unmanic.source data with
    | Some sd => Unmanic.abspath sd
    | None => None
    end in
  let destination_files :=
    match Unmanic.destination_files data with Some l => l | None => [] end in
  let host_url := Unmanic.host_url settings in
  let api_key := Unmanic.api_key settings in
  process_files e SonarrAPI settings source_file destination_files
                host_url api_key.

End notify_sonarr_task.

(* ------------------------------------------------------------------ *)
(** ** Words for the properties of the code above *)

Module Notions.
Import Task.

(** The id of the first lookup result that has a truthy one. *)
Definition first_id (results : list notify_radarr_task.movie) : option Z :=
  match find (fun result =>
                match Py.nonzero (notify_radarr_task.id result) with
                | Some _ => true
                | None => false
                end) results with
  | Some m => Py.nonzero (notify_radarr_task.id m)
  | None => None
  end.

(** A refresh request that was accepted: answered with a dictionary that
    carries no message. *)
Definition accepted (ans : answer Api.response) : bool :=
  match ans with
  | Answers (Api.RespDict m) => negb (PyStr.truthy_opt m)
  | _ => false
  end.

(** The series id of a parsed title, when it is truthy. *)
Definition series_id (episode_data : option notify_sonarr_task.series)
  : option Z :=
  match episode_data with
  | Some s => Py.nonzero (notify_sonarr_task.id s)
  | None => None
  end.

(** The ids of the episode files, when each of them has one. *)
Fixpoint all_ids (rename_list : list (option Z)) : option (list Z) :=
  match rename_list with
  | [] => Some []
  | Some i :: r => option_map (cons i) (all_ids r)
  | None :: _ => None
  end.

(** The settings the runner works with: those of the task's library, the
    global ones when the library id is absent or 0. *)
Definition task_settings (e : Unmanic.env) (data : Unmanic.task_data)
  : Unmanic.settings :=
  Unmanic.Settings e (Py.nonzero (Unmanic.library_id data)).

(** The source path the runner finds in its data. *)
Definition source_path (data : Unmanic.task_data) : option string :=
  match Unmanic.source data with
  | Some sd => Unmanic.abspath sd
  | None => None
  end.

(** A call of the code of [import_mode], logging included. *)
Definition is_import_call (e : event) : bool :=
  match e with Did _ => true | _ => false end.

(** A request of the update mode, or its pause. *)
Definition is_update_call (e : event) : bool :=
  match e with Did e' => Spec.is_log e' | _ => true end.

(** The runner is entered on pass [n] with a file it can probe and a
    working file whose base name is [base]; on the first pass the file
    passes the three tests. *)
Definition at_pass (lib : rarbg_fix.ffmpeg) (d : rarbg_fix.data) (n : Z)
           (base : string) : Prop :=
  exists p,
    rarbg_fix.probe_file lib (rarbg_fix.file_in d) = Some p
    /\ Spec.current_pass d = n
    /\ Spec.basename_of d = base
    /\ (n = 1%Z -> Spec.first_pass_gates lib p = true).

(** [self.percent] after a run of output lines, each given to
    [parse_progress] in turn; the first exception ends the run. *)
Fixpoint after_lines (percent : mkvtoolnix.value) (lines : list string)
  : mkvtoolnix.value + mkvtoolnix.error :=
  match lines with
  | [] => inl percent
  | line :: rest =>
      match mkvtoolnix.parse_progress percent line with
      | inl percent' => after_lines percent' rest
      | inr err => inr err
      end
  end.

(** The suffix English gives the ordinal of a natural number: [th] for the
    numbers that end in 11, 12 or 13, otherwise [st], [nd], [rd] after a
    last digit 1, 2, 3, and [th] after any other. *)
Definition english_suffix (n : Z) : string :=
  let tens := (n mod 100)%Z in
  let ones := (n mod 10)%Z in
  if (11 <=? tens)%Z && (tens <=? 13)%Z then "th"
  else if (ones =? 1)%Z then "st"
  else if (ones =? 2)%Z then "nd"
  else if (ones =? 3)%Z then "rd"
  else "th".

End Notions.

(** The cases of the loop body of [process_files], by the mode set. *)
Ltac loop_body_cases settings :=
  destruct (String.eqb (Unmanic.mode settings) "update_mode") eqn:Emode;
  [|destruct (String.eqb (Unmanic.mode settings) "import_mode") eqn:Eimp].

(* ------------------------------------------------------------------ *)
(** ** Concrete tasks used in the examples below *)

Module Cases.

(** Every file is 50 bytes long; sizes are written as plain numbers. *)
Definition env0 (s : Unmanic.settings) : Unmanic.env :=
  {| Unmanic.st_size := fun _ _ => 50%Z;
     Unmanic.parse_size := Py.int_of_str;
     Unmanic.Settings := fun _ => s |}.

Definition settings0 (mode : string) (delay : bool) : Unmanic.settings :=
  {| Unmanic.host_url := "http://localhost:7878";
     Unmanic.api_key := "";
     Unmanic.mode := mode;
     Unmanic.rename_files := true;
     Unmanic.limit_import_on_file_size := false;
     Unmanic.minimum_file_size := "100";
     Unmanic.import_root := "/import";
     Unmanic.delay_import := delay;
     Unmanic.intermediate_root := "/inter";
     Unmanic.sources_removed := false |}.

(** A radarr that knows the movie and accepts every command, with a queue
    that holds the film in another container. *)
Definition radarr0 : string -> string -> nat -> notify_radarr_task.api :=
  fun _ _ _ =>
    {| notify_radarr_task.lookup_movie_answer := fun _ =>
         Task.Answers [{| notify_radarr_task.id := None;
                          notify_radarr_task.title := Some "?" |};
                       {| notify_radarr_task.id := Some 7%Z;
                          notify_radarr_task.title := Some "Film" |}];
       notify_radarr_task.post_command_answer := fun _ =>
         Task.Answers (Api.RespDict None);
       notify_radarr_task.import_answers :=
         Scenario.api_of [Scenario.film_mp4] |}.

(** A radarr that cannot be reached. *)
Definition radarr_down : string -> string -> nat -> notify_radarr_task.api :=
  fun _ _ _ =>
    {| notify_radarr_task.lookup_movie_answer := fun _ =>
         Task.Fails (Task.PyarrError Pyarr.PyarrConnectionError);
       notify_radarr_task.post_command_answer := fun _ =>
         Task.Fails (Task.PyarrError Pyarr.PyarrConnectionError);
       notify_radarr_task.import_answers := Scenario.api_of [] |}.

(** A sonarr that knows the series and accepts the rescan, and whose
    episode files cannot be listed. *)
Definition sonarr0 : string -> string -> nat -> notify_sonarr_task.api :=
  fun _ _ _ =>
    {| notify_sonarr_task.get_parsed_title_answer := fun _ =>
         Task.Answers (Some {| notify_sonarr_task.title := Some "Show";
                               notify_sonarr_task.id := Some 3%Z |});
       notify_sonarr_task.post_command_answer := fun _ =>
         Task.Answers (Api.RespDict None);
       notify_sonarr_task.get_episode_file_answer := fun _ =>
         Task.Fails (Task.OtherError "Timeout");
       notify_sonarr_task.import_answers :=
         Scenario.api_of Scenario.show_queue |}.

Definition task0 (source : option string) (files : list string)
  : Unmanic.task_data :=
  {| Unmanic.library_id := Some 1%Z;
     Unmanic.source := Some {| Unmanic.abspath := source |};
     Unmanic.destination_files := Some files |}.

End Cases.

(* ================================================================== *)
(** * Properties *)

Example relpath_ex1 :
  OsPath.relpath "/" "/inter/Show/S01/e1.mkv" "/inter" = Some "Show/S01/e1.mkv".
Proof. reflexivity. Qed.
Example relpath_ex2 :
  OsPath.relpath "/" "/x/y" "/inter/a" = Some "../../x/y".
Proof. reflexivity. Qed.
Example splitext_ex1 : OsPath.splitext "/a.b/c.tar.gz" = ("/a.b/c.tar", ".gz").
Proof. reflexivity. Qed.
Example splitext_ex2 : OsPath.splitext "/a.b/..tmp" = ("/a.b/..tmp", "").
Proof. reflexivity. Qed.
Example splitext_ex3 : OsPath.splitext "/a.b/c" = ("/a.b/c", "").
Proof. reflexivity. Qed.
Example normpath_ex1 : OsPath.normpath "//a/./b/../c//" = "//a/c".
Proof. reflexivity. Qed.
Example normpath_ex2 : OsPath.normpath "a/../../b" = "../b".
Proof. reflexivity. Qed.
Example normpath_ex3 : OsPath.normpath "/../a" = "/a".
Proof. reflexivity. Qed.
Example rpart_ex : PyStr.rpartition_head "-WORKING-" (PyStr.rpartition_head "." "/c/f-WORKING-1-1.mp4") = "/c/f".
Proof. reflexivity. Qed.
Example split_ex : PyStr.split "/" "a//b/" = ["a"; ""; "b"; ""].
Proof. reflexivity. Qed.

(* ------------------------------------------------------------------ *)
(** ** Hiding and un-hiding a name *)

Section HideUnhide.
Import PyStr OsPath.

Lemma append_assoc (a b c : string) : (a ++ b) ++ c = a ++ (b ++ c).
Proof. induction a as [|x a IH]; simpl; [reflexivity | now rewrite IH]. Qed.

Lemma rsplit_char_join (c : ascii) (s h t : string) :
  rsplit_char c s = Some (h, t) -> s = h ++ String c t.
Proof.
  revert h t; induction s as [|a s IH]; intros h t; simpl; [discriminate|].
  destruct (rsplit_char c s) as [[h' t']|].
  - intros [= <- <-]. simpl. now rewrite (IH h' t').
  - destruct (Ascii.eqb a c) eqn:E; [|discriminate].
    intros [= <- <-]. apply Ascii.eqb_eq in E. now subst.
Qed.

Lemma rsplit_sep_app_tmp (s : string) :
  rsplit_char sep (s ++ ".tmp") =
  match rsplit_char sep s with
  | Some (h, t) => Some (h, t ++ ".tmp")
  | None => None
  end.
Proof.
  induction s as [|a s IH]; [reflexivity|].
  simpl. rewrite IH.
  destruct (rsplit_char sep s) as [[h t]|]; [reflexivity|].
  now destruct (Ascii.eqb a sep).
Qed.

Lemma rsplit_dot_app_tmp (s : string) :
  rsplit_char extsep (s ++ ".tmp") = Some (s, "tmp").
Proof.
  induction s as [|a s IH]; [reflexivity|].
  simpl. now rewrite IH.
Qed.

(** What [splitext] does to a hidden name, in both cases. *)
Lemma splitext_hidden (p : string) :
  splitext (p ++ ".tmp") =
  if all_char extsep (basename p) then (p ++ ".tmp", "") else (p, ".tmp").
Proof.
  unfold splitext, basename. rewrite rsplit_sep_app_tmp.
  destruct (rsplit_char sep p) as [[h t]|] eqn:E.
  - rewrite rsplit_dot_app_tmp.
    destruct (all_char extsep t); [reflexivity|].
    apply rsplit_char_join in E. subst p.
    f_equal. now rewrite append_assoc.
  - rewrite rsplit_dot_app_tmp.
    now destruct (all_char extsep p).
Qed.

End HideUnhide.

(** C10, as amended: for every path whose last component has a character
    other than a dot, stripping the extension of the hidden name
    [p ++ ".tmp"] with [splitext] gives back exactly [p]. *)
Theorem unhide_after_hide (p : string) :
  PyStr.all_char OsPath.extsep (OsPath.basename p) = false ->
  fst (OsPath.splitext (p ++ ".tmp")) = p.
Proof.
  intros H. rewrite splitext_hidden, H. reflexivity.
Qed.

Lemma unhide_after_hide_witness :
  fst (OsPath.splitext ("/import/Show/a.mkv" ++ ".tmp")) = "/import/Show/a.mkv".
Proof.
  apply (unhide_after_hide "/import/Show/a.mkv"). reflexivity.
Defined.

(** C10 as stated fails: a path that ends in a slash, and the path of a
    file whose name is made of dots only, are hidden under a name that
    [splitext] leaves whole. *)
Lemma unhide_after_hide_counterexample :
  fst (OsPath.splitext ("/import/Show/" ++ ".tmp")) <> "/import/Show/"
  /\ fst (OsPath.splitext ("/import/Show/..." ++ ".tmp")) <> "/import/Show/...".
Proof.
  split; vm_compute; discriminate.
Qed.

(* ------------------------------------------------------------------ *)
(** ** rarbg_fix: the passes of the worker runner *)

Lemma on_worker_process_probed (lib : rarbg_fix.ffmpeg) (d : rarbg_fix.data)
      (p : rarbg_fix.probe) :
  rarbg_fix.probe_file lib (rarbg_fix.file_in d) = Some p ->
  rarbg_fix.on_worker_process lib d =
  let pass := Spec.current_pass d in
  let basename := Spec.basename_of d in
  if (pass =? 1)%Z then
    if Spec.first_pass_gates lib p then
      rarbg_fix.finish rarbg_fix.FfmpegParser
        (rarbg_fix.set_exec_command
           (Spec.split_command (rarbg_fix.file_in d) basename)
           (rarbg_fix.set_file_out (basename ++ ".rarbg_video.mkv")
              (rarbg_fix.set_pass_num 2 (rarbg_fix.set_repeat true d))))
    else d
  else if (pass =? 2)%Z then
    rarbg_fix.finish rarbg_fix.MkvtoolnixParser
      (rarbg_fix.set_exec_command (Spec.video_remux_command basename)
         (rarbg_fix.set_file_out (basename ++ ".rarbg_video_fixed.mkv")
            (rarbg_fix.set_file_in (basename ++ ".rarbg_video.mkv")
               (rarbg_fix.set_pass_num 3 (rarbg_fix.set_repeat true d)))))
  else if (pass =? 3)%Z then
    rarbg_fix.finish rarbg_fix.MkvtoolnixParser
      (rarbg_fix.set_exec_command (Spec.audio_remux_command basename)
         (rarbg_fix.set_file_out (basename ++ ".rarbg_audio_fixed.mkv")
            (rarbg_fix.set_file_in (basename ++ ".rarbg_audio.mkv")
               (rarbg_fix.set_pass_num 4 (rarbg_fix.set_repeat true d)))))
  else if (pass =? 4)%Z then
    rarbg_fix.finish rarbg_fix.FfmpegParser
      (rarbg_fix.set_exec_command (Spec.recombine_command basename)
         (rarbg_fix.set_file_out (basename ++ ".rarbg_fixed.mp4")
            (rarbg_fix.set_repeat false d)))
  else rarbg_fix.finish rarbg_fix.FfmpegParser d.
Proof.
  intros Hp. unfold rarbg_fix.on_worker_process. rewrite Hp.
  unfold Spec.first_pass_gates, Spec.current_pass, Spec.basename_of. cbv zeta.
  destruct (_ =? 1)%Z; [|reflexivity].
  destruct (PyStr.contains "mp4" _); [|reflexivity].
  destruct (rarbg_fix.streams_need_processing lib p); [|reflexivity].
  destruct (PyStr.contains "rarbg" _); reflexivity.
Qed.

(** C9, as amended: when the probe of [file_in] succeeds and, on the first
    pass, its three tests pass (an mp4, a stream to process, "rarbg" in the
    title), the runner emits the command of the supplied pass: the stream
    split on pass 1, the video remux on pass 2, the audio remux on pass 3,
    each with the next pass number and [repeat] true, and the recombination
    on pass 4 with [repeat] false.  The command is a function of the pass,
    of the base name and, on pass 1, of the input path [file_in]; on passes
    2 to 4 it does not depend on the input path. *)
Theorem worker_pipeline (lib : rarbg_fix.ffmpeg) (d : rarbg_fix.data)
        (p : rarbg_fix.probe) :
  rarbg_fix.probe_file lib (rarbg_fix.file_in d) = Some p ->
  (1 <= Spec.current_pass d <= 4)%Z ->
  (Spec.current_pass d = 1%Z -> Spec.first_pass_gates lib p = true) ->
  let pass := Spec.current_pass d in
  let out := rarbg_fix.on_worker_process lib d in
  rarbg_fix.exec_command out =
    Spec.pipeline_command pass (rarbg_fix.file_in d) (Spec.basename_of d)
  /\ rarbg_fix.repeat out = (pass <? 4)%Z
  /\ rarbg_fix.pass_num out =
       (if (pass <? 4)%Z then Some (pass + 1)%Z else rarbg_fix.pass_num d)
  /\ (pass <> 1%Z ->
      forall input : string,
        Spec.pipeline_command pass input (Spec.basename_of d) =
        Spec.pipeline_command pass (rarbg_fix.file_in d) (Spec.basename_of d)).
Proof.
  intros Hp Hrange Hgate pass out. subst out.
  rewrite (on_worker_process_probed lib d Hp). cbv zeta. fold pass.
  assert (Hcases : pass = 1%Z \/ pass = 2%Z \/ pass = 3%Z \/ pass = 4%Z)
    by (subst pass; lia).
  destruct Hcases as [E|[E|[E|E]]]; rewrite E.
  - rewrite Hgate by exact E. simpl. repeat split. intros H; now elim H.
  - simpl. repeat split.
  - simpl. repeat split.
  - simpl. repeat split.
Qed.

Lemma worker_pipeline_witness :
  let d := Scenario.data0 "/library/film.mp4" (Some 1%Z) in
  let out := rarbg_fix.on_worker_process Scenario.lib0 d in
  rarbg_fix.exec_command out =
    Spec.pipeline_command 1 "/library/film.mp4" "/cache/film"
  /\ rarbg_fix.repeat out = true
  /\ rarbg_fix.pass_num out = Some 2%Z.
Proof.
  pose proof (@worker_pipeline Scenario.lib0
                (Scenario.data0 "/library/film.mp4" (Some 1%Z)) Scenario.probe0
                eq_refl) as H.
  cbv zeta in H.
  destruct H as (H1 & H2 & H3 & _).
  - vm_compute. split; discriminate.
  - intros _. vm_compute. reflexivity.
  - cbv zeta. repeat split; assumption.
Defined.

(** C9 as stated fails twice over.  With a probe that fails the runner, on
    pass 1, hands the dictionary back untouched: no command, no next pass.
    And two runs of pass 1 with the same working file, hence the same base
    name, but different input files emit different commands. *)
Lemma worker_pipeline_counterexample :
  rarbg_fix.on_worker_process Scenario.lib_fail
      (Scenario.data0 "/library/film.mp4" (Some 1%Z))
    = Scenario.data0 "/library/film.mp4" (Some 1%Z)
  /\ (let d1 := Scenario.data0 "/library/film.mp4" (Some 1%Z) in
      let d2 := Scenario.data0 "/library/other.mp4" (Some 1%Z) in
      Spec.current_pass d1 = Spec.current_pass d2
      /\ Spec.basename_of d1 = Spec.basename_of d2
      /\ rarbg_fix.exec_command (rarbg_fix.on_worker_process Scenario.lib0 d1)
         <> rarbg_fix.exec_command (rarbg_fix.on_worker_process Scenario.lib0 d2)).
Proof.
  split; [reflexivity|].
  cbv zeta. repeat split. vm_compute. discriminate.
Qed.

(* ------------------------------------------------------------------ *)
(** ** Running monadic code *)

Section MonadLaws.
Import Host.
Context {A B : Type}.

Lemma after_nil (r : outcome A * world * list event) : Spec.after [] r = r.
Proof. destruct r as [[o w] t]. reflexivity. Qed.

Lemma after_after (l1 l2 : list event) (r : outcome A * world * list event) :
  Spec.after l1 (Spec.after l2 r) = Spec.after (l1 ++ l2) r.
Proof. unfold Spec.after. cbn. now rewrite app_assoc. Qed.

Lemma bind_pure (c : M A) (k : A -> M B) (w : world) (a : A) :
  c w = (Returned a, w, []) -> bind c k w = k a w.
Proof.
  intros H. unfold bind. rewrite H. cbn.
  destruct (k a w) as [[? ?] ?]; reflexivity.
Qed.

Lemma bind_ret (a : A) (k : A -> M B) (w : world) : bind (ret a) k w = k a w.
Proof. now apply bind_pure. Qed.

Lemma bind_read (f : world -> A) (k : A -> M B) (w : world) :
  bind (read f) k w = k (f w) w.
Proof. now apply bind_pure. Qed.

Lemma bind_emit (e : event) (k : unit -> M B) (w : world) :
  bind (emit e) k w = Spec.after [e] (k tt w).
Proof. reflexivity. Qed.

Lemma bind_raise (e : exn) (k : A -> M B) (w : world) :
  bind (raise e) k w = (Raised e, w, []).
Proof. reflexivity. Qed.

Lemma bind_returned (c : M A) (k : A -> M B) (w : world) (a : A) :
  result_of (c w) = Returned a ->
  bind c k w = Spec.after (events_of (c w)) (k a (world_of (c w))).
Proof. intros H. unfold bind. now rewrite H. Qed.

Lemma bind_raised (c : M A) (k : A -> M B) (w : world) (e : exn) :
  result_of (c w) = Raised e ->
  bind c k w = (Raised e, world_of (c w), events_of (c w)).
Proof. intros H. unfold bind. now rewrite H. Qed.

End MonadLaws.

Section SameRun.
Import Host.
Context {A : Type}.
Implicit Types r : outcome A * world * list event.

Lemma same_run_refl r : Spec.same_run r r.
Proof. repeat split. Qed.

Lemma same_run_sym r1 r2 : Spec.same_run r1 r2 -> Spec.same_run r2 r1.
Proof. intros (H1 & H2 & H3). repeat split; congruence. Qed.

Lemma same_run_trans r1 r2 r3 :
  Spec.same_run r1 r2 -> Spec.same_run r2 r3 -> Spec.same_run r1 r3.
Proof. intros (H1 & H2 & H3) (K1 & K2 & K3). repeat split; congruence. Qed.

Lemma calls_app (l1 l2 : list event) :
  Spec.calls (l1 ++ l2) = (Spec.calls l1 ++ Spec.calls l2)%list.
Proof. apply filter_app. Qed.

Lemma calls_logs (l : list event) :
  forallb Spec.is_log l = true -> Spec.calls l = [].
Proof.
  induction l as [|e l IH]; [reflexivity|]. simpl.
  intros H. apply andb_prop in H as [He Hl]. unfold Spec.calls in *. simpl.
  rewrite He. simpl. auto.
Qed.

Lemma calls_sandwich (l1 l2 : list event) (e : event) :
  forallb Spec.is_log l1 = true -> Spec.is_log e = false ->
  forallb Spec.is_log l2 = true -> Spec.calls (l1 ++ e :: l2) = [e].
Proof.
  intros H1 He H2. rewrite calls_app, (calls_logs _ H1).
  change (e :: l2) with ([e] ++ l2)%list. rewrite calls_app, (calls_logs _ H2).
  unfold Spec.calls. cbn. now rewrite He.
Qed.

Lemma events_after (l : list event) r :
  events_of (Spec.after l r) = (l ++ events_of r)%list.
Proof. reflexivity. Qed.

Lemma result_after (l : list event) r :
  result_of (Spec.after l r) = result_of r.
Proof. reflexivity. Qed.

Lemma world_after (l : list event) r :
  world_of (Spec.after l r) = world_of r.
Proof. reflexivity. Qed.


End SameRun.

(* ------------------------------------------------------------------ *)
(** ** Queue matching *)

Section QueueMatching.
Import Host.
Variables (api : Api.t) (isDir : bool) (destBasename absDest : string).

Let found_sonarr (r : Api.item) : notify_sonarr.scan :=
  {| notify_sonarr.match_ := true;
     notify_sonarr.download_id := Api.downloadId r;
     notify_sonarr.episode_title := Api.title r |}.

Let found_radarr (r : Api.item) : notify_radarr.scan :=
  {| notify_radarr.match_ := true;
     notify_radarr.extension_match := true;
     notify_radarr.download_id := Api.downloadId r;
     notify_radarr.movie_title := Api.title r |}.

(** A directory match agrees on the whole basename. *)
Lemma directory_match_same_basename (r : Api.item) :
  isDir = true ->
  Spec.record_matches isDir destBasename r = true ->
  Spec.same_basename destBasename r = true.
Proof.
  intros ->. unfold Spec.record_matches, Spec.same_basename.
  destruct (Api.outputPath r) as [p|]; [|discriminate].
  intros H. now apply andb_prop in H.
Qed.

Lemma sonarr_scan_item (item : Api.item) (w : world) :
  exists logs,
    forallb Spec.is_log logs = true /\
    notify_sonarr.scan_item isDir destBasename item notify_sonarr.scan0 w =
    (Returned (if Spec.record_matches isDir destBasename item
               then (found_sonarr item, Break)
               else (notify_sonarr.scan0, Next)), w, logs).
Proof.
  unfold notify_sonarr.scan_item, Spec.record_matches, PyStr.truthy_opt.
  destruct (Api.outputPath item) as [p|]; [|now exists []].
  destruct (PyStr.truthy p); [|now exists []].
  cbn [negb andb]. unfold notify_sonarr.test_item, logger.debug.
  rewrite bind_emit.
  destruct isDir.
  - destruct (String.eqb destBasename (OsPath.basename p));
      eexists; (split; [|reflexivity]); reflexivity.
  - destruct (String.eqb _ _);
      eexists; (split; [|reflexivity]); reflexivity.
Qed.

Lemma sonarr_scan_queue (records : list Api.item) (w : world) :
  exists logs,
    forallb Spec.is_log logs = true /\
    notify_sonarr.scan_queue isDir destBasename records notify_sonarr.scan0 w =
    (Returned (match Spec.first_match isDir destBasename records with
               | Some r => found_sonarr r
               | None => notify_sonarr.scan0
               end), w, logs).
Proof.
  induction records as [|item rest IH]; [now exists []|].
  destruct (sonarr_scan_item item w) as (l1 & Hl1 & H1).
  cbn [notify_sonarr.scan_queue Spec.first_match find].
  unfold bind. rewrite H1. cbn.
  destruct (Spec.record_matches isDir destBasename item).
  - cbn. exists (l1 ++ [])%list. split; [|reflexivity].
    now rewrite app_nil_r.
  - cbn. destruct IH as (l2 & Hl2 & H2).
    unfold Spec.first_match in H2. rewrite H2. cbn.
    exists (l1 ++ l2)%list. split; [|reflexivity].
    rewrite forallb_app. now rewrite Hl1, Hl2.
Qed.

Lemma radarr_scan_item (item : Api.item) (w : world) :
  exists logs,
    forallb Spec.is_log logs = true /\
    notify_radarr.scan_item api isDir destBasename absDest item
                            notify_radarr.scan0 w =
    ((if Spec.record_matches isDir destBasename item
      then if Spec.same_basename destBasename item
           then Returned (found_radarr item, Break)
           else Raised (NameError "data")
      else Returned (notify_radarr.scan0, Next)), w, logs).
Proof.
  unfold notify_radarr.scan_item, Spec.record_matches, Spec.same_basename,
    PyStr.truthy_opt.
  destruct (Api.outputPath item) as [p|]; [|now exists []].
  destruct (PyStr.truthy p); [|now exists []].
  cbn [negb andb]. unfold notify_radarr.test_item, logger.debug.
  rewrite bind_emit.
  destruct isDir.
  - destruct (String.eqb destBasename (OsPath.basename p));
      eexists; (split; [|reflexivity]); reflexivity.
  - destruct (String.eqb (fst _) _);
      [|eexists; (split; [|reflexivity]); reflexivity].
    destruct (String.eqb destBasename (OsPath.basename p));
      eexists; (split; [|reflexivity]); reflexivity.
Qed.

Lemma radarr_scan_queue (records : list Api.item) (w : world) :
  exists logs,
    forallb Spec.is_log logs = true /\
    notify_radarr.scan_queue api isDir destBasename absDest records
                             notify_radarr.scan0 w =
    (match Spec.first_match isDir destBasename records with
     | Some r => if Spec.same_basename destBasename r
                 then Returned (found_radarr r)
                 else Raised (NameError "data")
     | None => Returned notify_radarr.scan0
     end, w, logs).
Proof.
  induction records as [|item rest IH]; [now exists []|].
  destruct (radarr_scan_item item w) as (l1 & Hl1 & H1).
  cbn [notify_radarr.scan_queue Spec.first_match find].
  unfold bind. rewrite H1. cbn.
  destruct (Spec.record_matches isDir destBasename item).
  - destruct (Spec.same_basename destBasename item); cbn.
    + exists (l1 ++ [])%list. split; [|reflexivity]. now rewrite app_nil_r.
    + now exists l1.
  - cbn. destruct IH as (l2 & Hl2 & H2).
    unfold Spec.first_match in H2. rewrite H2. cbn.
    exists (l1 ++ l2)%list. split; [|reflexivity].
    rewrite forallb_app. now rewrite Hl1, Hl2.
Qed.

(** The earliest matching record is the one [first_match] finds. *)
Lemma first_match_earliest (pre post : list Api.item) (r : Api.item) :
  Forall (fun x => Spec.record_matches isDir destBasename x = false) pre ->
  Spec.record_matches isDir destBasename r = true ->
  Spec.first_match isDir destBasename (pre ++ r :: post) = Some r.
Proof.
  unfold Spec.first_match.
  induction 1 as [|x pre Hx _ IH]; intros Hr; simpl.
  - now rewrite Hr.
  - rewrite Hx. now apply IH.
Qed.

End QueueMatching.

(** C7: the queue loop of both notifiers returns what the earliest matching
    record determines, where a record matches when its [outputPath] is
    present and non-empty and, for a directory delivery, its basename equals
    [destBasename], for a file delivery, the two basenames agree once their
    extensions are stripped.  Records after the first match have no say.  In
    the sonarr notifier the result carries that record's [downloadId] and
    [title]; so it does in the radarr notifier when the basenames agree in
    full, and otherwise its loop ends at that record in the removal branch. *)
Theorem queue_first_match_wins
        (api : Api.t) (isDir : bool) (destBasename absDest : string)
        (records : list Api.item) (w : Host.world) :
  Host.result_of
    (notify_sonarr.scan_queue isDir destBasename records notify_sonarr.scan0 w) =
    Host.Returned
      (match Spec.first_match isDir destBasename records with
       | Some r => {| notify_sonarr.match_ := true;
                      notify_sonarr.download_id := Api.downloadId r;
                      notify_sonarr.episode_title := Api.title r |}
       | None => notify_sonarr.scan0
       end)
  /\ Host.result_of
       (notify_radarr.scan_queue api isDir destBasename absDest records
                                 notify_radarr.scan0 w) =
     match Spec.first_match isDir destBasename records with
     | Some r =>
         if Spec.same_basename destBasename r
         then Host.Returned {| notify_radarr.match_ := true;
                               notify_radarr.extension_match := true;
                               notify_radarr.download_id := Api.downloadId r;
                               notify_radarr.movie_title := Api.title r |}
         else Host.Raised (Host.NameError "data")
     | None => Host.Returned notify_radarr.scan0
     end
  /\ (forall pre post r,
        records = (pre ++ r :: post)%list ->
        Forall (fun x => Spec.record_matches isDir destBasename x = false) pre ->
        Spec.record_matches isDir destBasename r = true ->
        Spec.first_match isDir destBasename records = Some r).
Proof.
  split; [|split].
  - destruct (sonarr_scan_queue isDir destBasename records w) as (l & _ & H).
    now rewrite H.
  - destruct (radarr_scan_queue api isDir destBasename absDest records w)
      as (l & _ & H).
    now rewrite H.
  - intros pre post r -> Hpre Hr. now apply first_match_earliest.
Qed.

Lemma queue_first_match_wins_witness :
  Host.result_of
    (notify_sonarr.scan_queue true "Show" Scenario.show_queue
                              notify_sonarr.scan0 Scenario.w0) =
    Host.Returned {| notify_sonarr.match_ := true;
                     notify_sonarr.download_id := Some "ID1";
                     notify_sonarr.episode_title := Some "One" |}
  /\ Host.result_of
       (notify_radarr.scan_queue (Scenario.api_of Scenario.show_queue) true
          "Show" "/import/Show" Scenario.show_queue notify_radarr.scan0
          Scenario.w0) =
     Host.Returned {| notify_radarr.match_ := true;
                      notify_radarr.extension_match := true;
                      notify_radarr.download_id := Some "ID1";
                      notify_radarr.movie_title := Some "One" |}
  /\ Spec.first_match true "Show" Scenario.show_queue = Some Scenario.show1.
Proof.
  destruct (queue_first_match_wins (Scenario.api_of Scenario.show_queue) true
              "Show" "/import/Show" Scenario.show_queue Scenario.w0)
    as (H1 & H2 & H3).
  split; [exact H1|]. split; [exact H2|].
  apply (H3 [Scenario.no_path] [Scenario.show2] Scenario.show1 eq_refl).
  - repeat constructor.
  - reflexivity.
Defined.

(* ------------------------------------------------------------------ *)
(** ** Import dispatch *)

Section Dispatch.
Import Host.
Variables (api : Api.t) (absDest : string).

Lemma radarr_run_import (id : option string) (w : world) :
  exists l1 l2,
    forallb Spec.is_log l1 = true /\ forallb Spec.is_log l2 = true /\
    notify_radarr.run_import api absDest id w =
    (Returned tt, w,
     l1 ++ Spec.import_scan "DownloadedMoviesScan" absDest id :: l2)%list.
Proof.
  unfold notify_radarr.run_import, Spec.import_scan, Spec.usable,
    Api.post_command, logger.info, logger.debug, logger.error.
  destruct (PyStr.truthy_opt id);
    destruct (Api.has_message (Api.command_answer api)) eqn:E;
    (eexists (_ :: nil), (_ :: _ :: nil);
     (split; [|split]);
     [| |unfold bind; cbn; rewrite E; cbn; reflexivity]; reflexivity).
Qed.

Lemma sonarr_run_import (isDir : bool) (id : option string) (w : world) :
  exists l1 l2,
    forallb Spec.is_log l1 = true /\ forallb Spec.is_log l2 = true /\
    notify_sonarr.run_import api isDir absDest id w =
    (Returned tt, w,
     l1 ++ (if Spec.usable id && isDir then []
            else [Spec.import_scan "DownloadedEpisodesScan" absDest id])
        ++ l2)%list.
Proof.
  unfold notify_sonarr.run_import, Spec.import_scan, Spec.usable,
    Api.post_command, logger.info, logger.debug, logger.error.
  destruct (PyStr.truthy_opt id); destruct isDir; cbn [andb];
    try (eexists (_ :: nil), nil; (split; [|split]);
         [| |reflexivity]; reflexivity);
    destruct (Api.has_message (Api.command_answer api)) eqn:E;
    (eexists (_ :: nil), (_ :: _ :: nil);
     (split; [|split]);
     [| |unfold bind; cbn; rewrite E; cbn; reflexivity]; reflexivity).
Qed.

End Dispatch.

Section RunLemmas.
Import Host.
Context {A B : Type}.

Lemma bind_run (c : M A) (k : A -> M B) (w w' : world) (a : A)
      (l : list event) :
  c w = (Returned a, w', l) -> bind c k w = Spec.after l (k a w').
Proof. intros H. unfold bind. now rewrite H. Qed.

Lemma bind_run_raised (c : M A) (k : A -> M B) (w w' : world) (e : exn)
      (l : list event) :
  c w = (Raised e, w', l) -> bind c k w = (Raised e, w', l).
Proof. intros H. unfold bind. now rewrite H. Qed.

End RunLemmas.

Section MatchAndImport.
Import Host.
Variables (api : Api.t) (isDir : bool) (destBasename absDest : string).

Let records := Api.get_records (Api.queue_answer api).

Lemma get_queue_run (w : world) :
  Api.get_queue api w = (Returned (Api.queue_answer api), w, [GetQueue]).
Proof. reflexivity. Qed.

Lemma sonarr_match_and_import (w : world) :
  let id := Spec.matched_id isDir destBasename records in
  let r := notify_sonarr.match_and_import api isDir destBasename absDest w in
  result_of r = Returned tt
  /\ world_of r = w
  /\ Spec.calls (events_of r) =
     GetQueue ::
     (if Spec.usable id && isDir then []
      else [Spec.import_scan "DownloadedEpisodesScan" absDest id]).
Proof.
  cbv zeta. unfold notify_sonarr.match_and_import, logger.debug.
  rewrite (bind_run _ _ _ (get_queue_run w)), !bind_emit.
  destruct (sonarr_scan_queue isDir destBasename records w) as (l & Hl & H).
  fold records. rewrite (bind_run _ _ _ H).
  match goal with |- context [notify_sonarr.run_import _ _ _ ?i _] =>
    destruct (sonarr_run_import api absDest isDir i w) as (l1 & l2 & Hl1 & Hl2 & H')
  end.
  rewrite H'. clear H H'.
  assert (Hid : forall (x : option Api.item),
             notify_sonarr.download_id
               match x with
               | Some r => {| notify_sonarr.match_ := true;
                              notify_sonarr.download_id := Api.downloadId r;
                              notify_sonarr.episode_title := Api.title r |}
               | None => notify_sonarr.scan0
               end = match x with Some r => Api.downloadId r | None => None end)
    by (now intros [x|]).
  rewrite Hid in *. fold (Spec.matched_id isDir destBasename records).
  rewrite !result_after, !world_after, !events_after.
  repeat split.
  rewrite !calls_app, (calls_logs _ Hl).
  change (events_of (?a, ?b, ?c)) with c.
  rewrite !calls_app, (calls_logs _ Hl1), (calls_logs _ Hl2).
  now destruct (Spec.usable _ && isDir).
Qed.

Lemma radarr_match_and_import (w : world) :
  let id := Spec.matched_id isDir destBasename records in
  let r := notify_radarr.match_and_import api isDir destBasename absDest w in
  result_of r =
    (if Spec.mismatched isDir destBasename records
     then Raised (NameError "data") else Returned tt)
  /\ world_of r = w
  /\ Spec.calls (events_of r) =
     GetQueue ::
     (if Spec.mismatched isDir destBasename records then []
      else [Spec.import_scan "DownloadedMoviesScan" absDest id]).
Proof.
  cbv zeta. unfold notify_radarr.match_and_import, logger.debug.
  rewrite (bind_run _ _ _ (get_queue_run w)), !bind_emit.
  destruct (radarr_scan_queue api isDir destBasename absDest records w)
    as (l & Hl & H).
  fold records. unfold Spec.mismatched, Spec.matched_id.
  rewrite !result_after, !world_after, !events_after.
  destruct (Spec.first_match isDir destBasename records) as [x|].
  - destruct (Spec.same_basename destBasename x).
    + rewrite (bind_run _ _ _ H).
      destruct (radarr_run_import api absDest (Api.downloadId x) w)
        as (l1 & l2 & Hl1 & Hl2 & H').
      cbn [notify_radarr.download_id]. rewrite H'.
      rewrite !result_after, !world_after, !events_after.
      repeat split.
      rewrite !calls_app, (calls_logs _ Hl).
      change (events_of (?a, ?b, ?c)) with c.
      now rewrite calls_sandwich.
    + rewrite (bind_run_raised _ _ _ H).
      repeat split.
      change (events_of (?a, ?b, ?c)) with c.
      now rewrite !calls_app, (calls_logs _ Hl).
  - rewrite (bind_run _ _ _ H).
    destruct (radarr_run_import api absDest None w)
      as (l1 & l2 & Hl1 & Hl2 & H').
    cbn [notify_radarr.download_id notify_radarr.scan0]. rewrite H'.
    rewrite !result_after, !world_after, !events_after.
    repeat split.
    rewrite !calls_app, (calls_logs _ Hl).
    change (events_of (?a, ?b, ?c)) with c.
    now rewrite calls_sandwich.
Qed.

End MatchAndImport.

(* ------------------------------------------------------------------ *)
(** ** The file system after a rename *)

Section FsFacts.
Import Fs.

Lemma get_set_same (c : string) (x : node) (es : list (string * node)) :
  get c (set c x es) = Some x.
Proof.
  induction es as [|[k v] es IH]; simpl.
  - now rewrite String.eqb_refl.
  - destruct (String.eqb k c) eqn:E; simpl; now rewrite E.
Qed.

Lemma insert_lookup (cs : list string) :
  forall (t t' x : node), insert t cs x = Some t' -> lookup t' cs = Some x.
Proof.
  induction cs as [|c cs IH]; intros t t' x; simpl; [discriminate|].
  destruct t as [|es]; [discriminate|].
  destruct cs as [|c' cs'].
  - intros [= <-]. simpl. now rewrite get_set_same.
  - destruct (get c es) as [m|]; [|discriminate].
    destruct (insert m (c' :: cs') x) as [m'|] eqn:E; [|discriminate].
    intros [= <-]. cbn [lookup]. rewrite get_set_same.
    now apply (IH m).
Qed.

Lemma eqb_list_eq (l1 l2 : list string) : eqb_list l1 l2 = true -> l1 = l2.
Proof.
  revert l2; induction l1 as [|a l1 IH]; intros [|b l2]; simpl;
    try discriminate; [reflexivity|].
  intros H. apply andb_prop in H as [Hab Hl].
  apply String.eqb_eq in Hab. subst. f_equal. now apply IH.
Qed.

(** A rename that succeeds leaves an entry at its target. *)
Lemma rename_target_exists (t t' : node) (src dst : list string) :
  rename t src dst = Some t' -> exists n, lookup t' dst = Some n.
Proof.
  unfold rename.
  destruct (lookup t src) as [n|] eqn:Hsrc; [|discriminate].
  destruct (eqb_list src dst) eqn:Heq.
  - intros [= <-]. apply eqb_list_eq in Heq. subst. eauto.
  - destruct (is_prefix src dst); [discriminate|].
    destruct (may_replace n (lookup t dst)); [|discriminate].
    cbn [negb].
    destruct (remove t src) as [t1|]; [|discriminate].
    intros H. exists n. now apply (insert_lookup dst t1).
Qed.

End FsFacts.

Section HideStage.
Import Host.

Lemma rename_at_exists (w w' : world) (src dst : string) :
  os.rename_at w src dst = Some w' -> os.exists_at w' dst = true.
Proof.
  unfold os.rename_at, os.exists_at.
  destruct (Fs.rename _ _ _) as [t|] eqn:E; [|discriminate].
  intros [= <-]. apply rename_target_exists in E as [n Hn].
  unfold os.resolve in *. cbn. now rewrite Hn.
Qed.

Lemma rename_run (src dst : string) (w : world) :
  os.rename src dst w =
  match os.rename_at w src dst with
  | Some w' => (Returned tt, w', [Rename src dst])
  | None => (Raised (OSError "rename" src), w, [Rename src dst])
  end.
Proof.
  unfold os.rename. rewrite bind_emit.
  now destruct (os.rename_at w src dst).
Qed.

Lemma hide_file_run (dest_path : string) (w : world) :
  exists log,
    Spec.is_log log = true /\
    hide_file dest_path w =
    if os.exists_at w (dest_path ++ ".tmp") then (Returned tt, w, [log])
    else match os.rename_at w dest_path (dest_path ++ ".tmp") with
         | Some w' =>
             (Returned tt, w', [log; Rename dest_path (dest_path ++ ".tmp")])
         | None =>
             (Raised (OSError "rename" dest_path), w,
              [log; Rename dest_path (dest_path ++ ".tmp")])
         end.
Proof.
  eexists. split; [|unfold hide_file, logger.debug, os.path_exists;
                     rewrite bind_emit, bind_read].
  2:{ destruct (os.exists_at w (dest_path ++ ".tmp")); cbn [negb].
      - reflexivity.
      - rewrite rename_run. now destruct (os.rename_at _ _ _). }
  reflexivity.
Qed.

Lemma chmod_run (p : string) (mode : Z) (w : world) :
  os.chmod p mode w =
  if os.exists_at w p then (Returned tt, w, [Chmod p mode])
  else (Raised (OSError "chmod" p), w, [Chmod p mode]).
Proof.
  unfold os.chmod, os.path_exists. rewrite bind_emit, bind_read.
  now destruct (os.exists_at w p).
Qed.

Lemma unhide_file_run (x : string) (w : world) :
  exists log,
    Spec.is_log log = true /\
    unhide_file x w =
    match os.rename_at w x (fst (OsPath.splitext x)) with
    | Some w' => (Returned tt, w', [log; Spec.unhide_call x])
    | None => (Raised (OSError "rename" x), w, [log; Spec.unhide_call x])
    end.
Proof.
  eexists. split; [|unfold unhide_file, logger.debug;
                     rewrite bind_emit, rename_run].
  2:{ now destruct (os.rename_at _ _ _). }
  reflexivity.
Qed.

Lemma unhide_loop (l : list string) :
  forall w : world,
    let r := for_each l unhide_file w in
    match result_of r with
    | Returned _ => Spec.calls (events_of r) = map Spec.unhide_call l
    | Raised e =>
        (exists c p, e = OSError c p) /\
        forallb (fun e => negb (Spec.is_api_call e)) (events_of r) = true
    end.
Proof.
  induction l as [|x l IH]; intros w; cbv zeta; [reflexivity|].
  cbn [for_each].
  destruct (unhide_file_run x w) as (lg & Hlg & Hx).
  destruct lg; try discriminate.
  destruct (os.rename_at w x (fst (OsPath.splitext x))) as [w'|].
  - rewrite (bind_run _ _ _ Hx). rewrite result_after, events_after.
    specialize (IH w'). cbv zeta in IH.
    destruct (result_of (for_each l unhide_file w')).
    + rewrite calls_app, IH. reflexivity.
    + destruct IH as [He Hq]. split; [exact He|].
      rewrite forallb_app, Hq. reflexivity.
  - rewrite (bind_run_raised _ _ _ Hx). cbn. split; [eauto|reflexivity].
Qed.

Lemma unhide_calls_no_api (evs : list event) :
  forall l : list string,
    Spec.calls evs = map Spec.unhide_call l ->
    forallb (fun e => negb (Spec.is_api_call e)) evs = true.
Proof.
  induction evs as [|e evs IH]; intros l; [reflexivity|].
  unfold Spec.calls. cbn [filter forallb].
  destruct (Spec.is_log e) eqn:El; cbn [negb].
  - intros H. destruct e; try discriminate. cbn. now apply (IH l).
  - destruct l as [|x l]; [discriminate|].
    cbn [map]. intros [= -> H]. cbn. now apply (IH l).
Qed.

Lemma unhide_files_run (abspath_dest : string) (w : world) :
  let r := unhide_files abspath_dest w in
  match result_of r with
  | Returned _ =>
      Spec.calls (events_of r) =
      (map Spec.unhide_call (os.rglob_at w abspath_dest "*.tmp")
       ++ [Chmod abspath_dest 511])%list
  | Raised e =>
      (exists c p, e = OSError c p) /\
      forallb (fun e => negb (Spec.is_api_call e)) (events_of r) = true
  end.
Proof.
  cbv zeta. unfold unhide_files, os.rglob. rewrite bind_read.
  pose proof (unhide_loop (os.rglob_at w abspath_dest "*.tmp") w) as H.
  cbv zeta in H.
  destruct (for_each _ unhide_file w) as [[res w1] evs] eqn:E.
  cbn [result_of events_of fst snd] in H.
  destruct res as [[]|e].
  - rewrite (bind_run _ _ _ E), result_after, events_after, chmod_run.
    destruct (os.exists_at w1 abspath_dest); cbn [result_of events_of fst snd].
    + now rewrite calls_app, H.
    + split; [eauto|]. rewrite forallb_app. cbn.
      rewrite andb_true_r. now apply (unhide_calls_no_api _ _ H).
  - rewrite (bind_run_raised _ _ _ E). exact H.
Qed.

End HideStage.

(* ------------------------------------------------------------------ *)
(** ** The stages of [import_mode] *)

Lemma relpath_truthy (cwd path start : string) :
  PyStr.truthy path = true -> exists r, OsPath.relpath cwd path start = Some r.
Proof.
  intros H. unfold OsPath.relpath. rewrite H. cbn [negb]. cbv zeta.
  destruct (_ ++ _)%list; eauto.
Qed.

Lemma bind_relpath {B : Type} (path start : string) (k : string -> Host.M B)
      (w : Host.world) :
  PyStr.truthy path = true ->
  Host.bind (os_path_relpath path start) k w = k (Spec.relative w path start) w.
Proof.
  intros H. destruct (relpath_truthy (Host.cwd w) path start H) as [r Hr].
  apply bind_pure. unfold os_path_relpath, Spec.relative. now rewrite Hr.
Qed.

Section Stages.
Import Host.
Variables (api : Api.t) (sp dp ir r : string) (removed : bool) (w : world).
Hypotheses (Hs : PyStr.truthy sp = true) (Hd : PyStr.truthy dp = true).

Let src := Spec.absSource w sp ir.
Let db := Spec.destBasename w dp r.
Let is_dir := os.isdir_at w src.

(** What the radarr notifier does once the paths are accepted. *)
Let radarr_stage : M unit :=
  let dst := Spec.absDest w dp r in
  if is_dir && negb (String.eqb ir r) then
    if notify_radarr.delay (Spec.count w src) (Spec.count w dst) removed
    then hide_file dp
    else unhide_files dst ;; notify_radarr.match_and_import api is_dir db dst
  else notify_radarr.match_and_import api is_dir db dst.

(** What the sonarr notifier does once the paths are accepted. *)
Let sonarr_stage : M unit :=
  let dst := Spec.absDest_sonarr w dp r in
  if is_dir && negb (String.eqb ir r) then
    if (notify_sonarr.files_remaining (Spec.count w src) (Spec.count w dst)
                                      removed >? 0)%Z
    then hide_file dp
    else unhide_files dst ;; notify_sonarr.match_and_import api is_dir db dst
  else notify_sonarr.match_and_import api is_dir db dst.

Lemma radarr_import_mode_run :
  if negb (PyStr.contains src sp)
     || negb (PyStr.contains (Spec.absDest w dp r) dp)
  then exists template,
      notify_radarr.import_mode api sp dp ir r removed w =
      (Returned tt, w, [Log Error template])
  else exists template logs,
      forallb Spec.is_log logs = true /\
      notify_radarr.import_mode api sp dp ir r removed w =
      Spec.after (Log Info template :: logs) (radarr_stage w).
Proof.
  set (run := notify_radarr.import_mode api sp dp ir r removed w).
  assert (E : run = notify_radarr.import_mode api sp dp ir r removed w)
    by reflexivity.
  clearbody run. unfold notify_radarr.import_mode in E.
  rewrite !bind_relpath in E by assumption. cbv zeta in E.
  change (OsPath.join ir (first_segment (Spec.relative w sp ir))) with src in E.
  change (OsPath.join r (first_segment (Spec.relative w dp r)))
    with (Spec.absDest w dp r) in E.
  change (first_segment (Spec.relative w dp r)) with db in E.
  subst radarr_stage. cbv zeta.
  destruct (negb _ || negb _).
  - eexists. exact E.
  - unfold os.path_isdir, os.rglob, logger.info, logger.debug in E.
    rewrite bind_read, !bind_emit in E. fold is_dir in E.
    destruct (is_dir && _).
    + rewrite !bind_read, !bind_emit in E.
      fold (Spec.count w src) in E.
      fold (Spec.count w (Spec.absDest w dp r)) in E.
      destruct (notify_radarr.delay _ _ _);
        rewrite !bind_emit, !after_after in E; cbn [app] in E;
        do 2 eexists; (split; [|exact E]); reflexivity.
    + rewrite !after_after in E; cbn [app] in E.
      do 2 eexists; (split; [|exact E]); reflexivity.
Qed.

Lemma sonarr_import_mode_run :
  if negb (PyStr.contains src sp)
     || negb (PyStr.contains (Spec.absDest_sonarr w dp r) dp)
  then exists template,
      notify_sonarr.import_mode api sp dp ir r removed w =
      (Returned tt, w, [Log Error template])
  else exists template logs,
      forallb Spec.is_log logs = true /\
      notify_sonarr.import_mode api sp dp ir r removed w =
      Spec.after (Log Info template :: logs) (sonarr_stage w).
Proof.
  set (run := notify_sonarr.import_mode api sp dp ir r removed w).
  assert (E : run = notify_sonarr.import_mode api sp dp ir r removed w)
    by reflexivity.
  clearbody run. unfold notify_sonarr.import_mode in E.
  rewrite !bind_relpath in E by assumption. cbv zeta in E.
  change (OsPath.join ir (first_segment (Spec.relative w sp ir))) with src in E.
  change (PyStr.remove_char "\"
            (OsPath.join r (first_segment (Spec.relative w dp r))))
    with (Spec.absDest_sonarr w dp r) in E.
  change (first_segment (Spec.relative w dp r)) with db in E.
  subst sonarr_stage. cbv zeta.
  destruct (PyStr.contains src sp); cbn [negb orb] in *.
  2:{ eexists. exact E. }
  destruct (PyStr.contains (Spec.absDest_sonarr w dp r) dp); cbn [negb] in *.
  2:{ eexists. exact E. }
  unfold os.path_isdir, os.rglob, logger.info, logger.debug in E.
  rewrite bind_read, !bind_emit in E. fold is_dir in E.
  destruct (is_dir && _).
  - rewrite !bind_read, !bind_emit in E.
    fold (Spec.count w src) in E.
    fold (Spec.count w (Spec.absDest_sonarr w dp r)) in E.
    destruct (_ >? 0)%Z;
      rewrite ?bind_emit, !after_after in E; cbn [app] in E;
      do 2 eexists; (split; [|exact E]); reflexivity.
  - rewrite !after_after in E; cbn [app] in E.
    do 2 eexists; (split; [|exact E]); reflexivity.
Qed.

End Stages.

(* ------------------------------------------------------------------ *)
(** ** Path validation *)

(** C2, as amended: a pair of non-empty paths is rejected (one error is
    logged and the function returns, with no rename and no API call) exactly
    when [absSource] does not occur in [sourcePath] or [absDest] does not
    occur in [destPath], occurrence meaning as a substring, anywhere; the
    sonarr notifier looks for [absDest] with its backslashes removed. *)
Theorem path_validation
        (api : Api.t) (sp dp ir r : string) (removed : bool) (w : Host.world) :
  PyStr.truthy sp = true ->
  PyStr.truthy dp = true ->
  (Spec.rejected w (notify_radarr.import_mode api sp dp ir r removed w) <->
   PyStr.contains (Spec.absSource w sp ir) sp = false
   \/ PyStr.contains (Spec.absDest w dp r) dp = false)
  /\ (Spec.rejected w (notify_sonarr.import_mode api sp dp ir r removed w) <->
      PyStr.contains (Spec.absSource w sp ir) sp = false
      \/ PyStr.contains (Spec.absDest_sonarr w dp r) dp = false).
Proof.
  intros Hs Hd. split.
  - pose proof (@radarr_import_mode_run api sp dp ir r removed w Hs Hd) as H.
    destruct (PyStr.contains (Spec.absSource w sp ir) sp);
      destruct (PyStr.contains (Spec.absDest w dp r) dp); cbn [negb orb] in H.
    2-4: destruct H as [t ->]; split; [auto|]; intros _; now repeat split.
    destruct H as (t & logs & _ & ->). split.
    + intros (_ & _ & Hrej). discriminate Hrej.
    + intros [H|H]; discriminate H.
  - pose proof (@sonarr_import_mode_run api sp dp ir r removed w Hs Hd) as H.
    destruct (PyStr.contains (Spec.absSource w sp ir) sp);
      destruct (PyStr.contains (Spec.absDest_sonarr w dp r) dp);
      cbn [negb orb] in H.
    2-4: destruct H as [t ->]; split; [auto|]; intros _; now repeat split.
    destruct H as (t & logs & _ & ->). split.
    + intros (_ & _ & Hrej). discriminate Hrej.
    + intros [H|H]; discriminate H.
Qed.

Lemma path_validation_witness :
  Spec.rejected Scenario.w0
    (notify_radarr.import_mode (Scenario.api_of Scenario.show_queue)
       "/inter/Show/a.mkv" "/import/Show/a.mkv" "/import" "/import" false
       Scenario.w0)
  /\ Spec.rejected Scenario.w0
       (notify_sonarr.import_mode (Scenario.api_of Scenario.show_queue)
          "/inter/Show/a.mkv" "/import/Show/a.mkv" "/import" "/import" false
          Scenario.w0).
Proof.
  destruct (@path_validation (Scenario.api_of Scenario.show_queue)
              "/inter/Show/a.mkv" "/import/Show/a.mkv" "/import" "/import"
              false Scenario.w0 eq_refl eq_refl) as [[_ H1] [_ H2]].
  split; [apply H1|apply H2]; left; vm_compute; reflexivity.
Defined.

(** C2 as stated fails in both directions.  The test is an occurrence test,
    not a prefix test: with the relative root [import] (working directory
    [/]) the reconstructed [import/Film.mkv] is no prefix of
    [/import/Film.mkv] but occurs in it, and with the root [/import] the
    reconstructed [/import/..] occurs in [/x/import/..Film.mkv]; neither pair
    is rejected.  And the sonarr notifier rejects a destination with a
    backslash in its name although both reconstructed roots are prefixes. *)
Lemma path_validation_counterexample :
  (String.prefix (Spec.absSource Scenario.w0 "/import/Film.mkv" "import")
                 "/import/Film.mkv" = false
   /\ Spec.is_rejection
        (Host.events_of
           (notify_radarr.import_mode (Scenario.api_of [])
              "/import/Film.mkv" "/import/Film.mkv" "import" "/import" false
              Scenario.w0)) = false)
  /\ (String.prefix (Spec.absSource Scenario.w0 "/x/import/..Film.mkv" "/import")
                    "/x/import/..Film.mkv" = false
      /\ Spec.is_rejection
           (Host.events_of
              (notify_radarr.import_mode (Scenario.api_of [])
                 "/x/import/..Film.mkv" "/import/Film.mkv" "/import" "/import"
                 false Scenario.w0)) = false)
  /\ (String.prefix (Spec.absSource Scenario.w0 "/import/Film.mkv" "/import")
                    "/import/Film.mkv" = true
      /\ String.prefix (Spec.absDest Scenario.w0 "/import/a\b.mkv" "/import")
                       "/import/a\b.mkv" = true
      /\ Spec.rejected Scenario.w0
           (notify_sonarr.import_mode (Scenario.api_of [])
              "/import/Film.mkv" "/import/a\b.mkv" "/import" "/import" false
              Scenario.w0)).
Proof.
  repeat split; vm_compute; reflexivity.
Qed.

(* ------------------------------------------------------------------ *)
(** ** The runs of an accepted delivery, stage by stage *)

Section Filters.
Import Host.

Lemma filter_calls (P : event -> bool) (evs : list event) :
  (forall e, P e = true -> Spec.is_log e = false) ->
  filter P evs = filter P (Spec.calls evs).
Proof.
  intros HP. induction evs as [|e evs IH]; [reflexivity|].
  unfold Spec.calls in *. cbn [filter].
  destruct (P e) eqn:Pe.
  - rewrite (HP e Pe). cbn [negb filter]. now rewrite Pe, IH.
  - destruct (Spec.is_log e); cbn [negb filter]; [exact IH|].
    now rewrite Pe.
Qed.

Lemma existsb_calls (P : event -> bool) (evs : list event) :
  (forall e, P e = true -> Spec.is_log e = false) ->
  existsb P evs = existsb P (Spec.calls evs).
Proof.
  intros HP. induction evs as [|e evs IH]; [reflexivity|].
  unfold Spec.calls in *. cbn [filter existsb].
  destruct (P e) eqn:Pe.
  - rewrite (HP e Pe). cbn [negb existsb]. now rewrite Pe.
  - destruct (Spec.is_log e); cbn [negb existsb]; [exact IH|].
    now rewrite Pe, IH.
Qed.

Lemma no_api_existsb (evs : list event) :
  forallb (fun e => negb (Spec.is_api_call e)) evs = true ->
  existsb Spec.is_api_call evs = false.
Proof.
  induction evs as [|e evs IH]; [reflexivity|]. cbn.
  intros H. apply andb_prop in H as [He Hr].
  destruct (Spec.is_api_call e); [discriminate|]. now apply IH.
Qed.

Lemma in_calls (e : event) (evs : list event) :
  In e evs -> Spec.is_log e = false -> In e (Spec.calls evs).
Proof.
  intros Hin He. unfold Spec.calls. apply filter_In. split; [exact Hin|].
  now rewrite He.
Qed.

Lemma api_is_not_log (e : event) :
  Spec.is_api_call e = true -> Spec.is_log e = false.
Proof. now destruct e. Qed.

Lemma scan_is_not_log (e : event) :
  Spec.is_import_scan e = true -> Spec.is_log e = false.
Proof. now destruct e. Qed.

Lemma removal_is_not_log (e : event) :
  Spec.is_removal e = true -> Spec.is_log e = false.
Proof. now destruct e. Qed.

Lemma id_bound_is_not_log (e : event) :
  Spec.is_id_bound_scan e = true -> Spec.is_log e = false.
Proof. now destruct e. Qed.

Lemma unhide_calls_no (P : event -> bool) (l : list string) :
  (forall x, P (Spec.unhide_call x) = false) ->
  filter P (map Spec.unhide_call l) = [].
Proof.
  intros HP. induction l as [|x l IH]; [reflexivity|].
  cbn [map filter]. now rewrite HP.
Qed.

End Filters.

Section AfterUnhide.
Import Host.
Variables (k : M unit) (R : outcome unit) (C : list event).
Hypothesis Hk :
  forall w', result_of (k w') = R /\ Spec.calls (events_of (k w')) = C.

(** The completion branch: un-hide, then go on with [k]. *)
Lemma unhide_then (dst : string) (w : world) :
  let run := (unhide_files dst ;; k) w in
  match result_of (unhide_files dst w) with
  | Returned _ =>
      result_of run = R /\
      Spec.calls (events_of run) =
      (map Spec.unhide_call (os.rglob_at w dst "*.tmp")
       ++ Chmod dst 511 :: C)%list
  | Raised e =>
      (exists c p, e = OSError c p) /\
      result_of run = Raised e /\
      forallb (fun e => negb (Spec.is_api_call e)) (events_of run) = true
  end.
Proof.
  cbv zeta. pose proof (unhide_files_run dst w) as H. cbv zeta in H.
  destruct (unhide_files dst w) as [[res w1] evs] eqn:E.
  cbn [result_of events_of fst snd] in *.
  destruct res as [[]|e].
  - rewrite (bind_run _ _ _ E), result_after, events_after, calls_app, H.
    destruct (Hk w1) as [-> ->]. split; [reflexivity|].
    now rewrite <- app_assoc.
  - rewrite (bind_run_raised _ _ _ E). cbn [result_of events_of fst snd].
    destruct H as [He Hq]. auto.
Qed.

End AfterUnhide.

Section StageSummary.
Import Host.
Variables (k : M unit) (R : outcome unit) (C : list event).
Hypothesis Hk :
  forall w', result_of (k w') = R /\ Spec.calls (events_of (k w')) = C.
Variables (logs : list event) (staged delayed : bool) (dst dp : string)
          (w : world).
Hypothesis Hlogs : forallb Spec.is_log logs = true.

Let run :=
  Spec.after logs
    ((if staged then
        if delayed then hide_file dp else unhide_files dst ;; k
      else k) w).

(** A delayed run: at most the hiding rename, and no API call. *)
Lemma delayed_run :
  staged = true -> delayed = true ->
  let newname := dp ++ ".tmp" in
  Spec.calls (events_of run) =
    (if os.exists_at w newname then [] else [Rename dp newname])
  /\ (os.exists_at w newname = true ->
      result_of run = Returned tt /\ world_of run = w)
  /\ (result_of run = Returned tt -> os.exists_at (world_of run) newname = true)
  /\ (forall e, result_of run = Raised e -> exists c p, e = OSError c p).
Proof.
  intros -> ->. cbv zeta. subst run.
  destruct (hide_file_run dp w) as (lg & Hlg & H).
  rewrite result_after, world_after, events_after, calls_app,
    (calls_logs _ Hlogs), H.
  destruct (os.exists_at w (dp ++ ".tmp")) eqn:Ex.
  - cbn [result_of world_of events_of fst snd app].
    unfold Spec.calls. cbn [filter]. rewrite Hlg. cbn.
    split; [reflexivity|]. split; [auto|]. split; [auto|]. intros e [=].
  - destruct (os.rename_at w dp (dp ++ ".tmp")) as [w'|] eqn:Er;
      cbn [result_of world_of events_of fst snd app];
      unfold Spec.calls; cbn [filter]; rewrite Hlg; cbn.
    + split; [reflexivity|]. split; [discriminate|]. split; [|intros e [=]].
      intros _. now apply (rename_at_exists _ _ _ Er).
    + split; [reflexivity|]. split; [discriminate|]. split; [discriminate|].
      intros e [= <-]. eauto.
Qed.

(** A run that goes on to the queue, after un-hiding if staged. *)
Lemma notifying_run :
  staged && delayed = false ->
  match (if staged then result_of (unhide_files dst w) else Returned tt) with
  | Returned _ =>
      result_of run = R /\
      Spec.calls (events_of run) =
      ((if staged
        then map Spec.unhide_call (os.rglob_at w dst "*.tmp")
             ++ [Chmod dst 511]
        else []) ++ C)%list
  | Raised e =>
      (exists c p, e = OSError c p) /\
      result_of run = Raised e /\
      existsb Spec.is_api_call (events_of run) = false
  end.
Proof.
  intros Hsd. subst run.
  rewrite result_after, events_after, calls_app, (calls_logs _ Hlogs).
  cbn [app].
  destruct staged.
  - cbn in Hsd. subst delayed.
    pose proof (@unhide_then k R C Hk dst w) as H. cbv zeta in H.
    destruct (result_of (unhide_files dst w)).
    + destruct H as [H1 H2]. split; [exact H1|].
      rewrite H2. now rewrite <- app_assoc.
    + destruct H as (H1 & H2 & H3). repeat split; try assumption.
      rewrite existsb_app. rewrite (no_api_existsb _ H3), orb_false_r.
      rewrite (existsb_calls _ _ api_is_not_log), (calls_logs _ Hlogs).
      reflexivity.
  - exact (Hk w).
Qed.

End StageSummary.

Section Summaries.
Import Host.
Variables (api : Api.t) (sp dp ir r : string) (removed : bool) (w : world).
Hypotheses (Hs : PyStr.truthy sp = true) (Hd : PyStr.truthy dp = true).

Let records := Api.get_records (Api.queue_answer api).
Let src := Spec.absSource w sp ir.
Let db := Spec.destBasename w dp r.
Let is_dir := os.isdir_at w src.
Let staged := is_dir && negb (String.eqb ir r).
Let id := Spec.matched_id is_dir db records.
Let newname := dp ++ ".tmp".

(** Every run of the radarr notifier on non-empty paths. *)
Lemma radarr_summary :
  let dst := Spec.absDest w dp r in
  let run := notify_radarr.import_mode api sp dp ir r removed w in
  let R := if Spec.mismatched is_dir db records
           then Raised (NameError "data") else Returned tt in
  let C := GetQueue ::
           (if Spec.mismatched is_dir db records then []
            else [Spec.import_scan "DownloadedMoviesScan" dst id]) in
  if negb (PyStr.contains src sp) || negb (PyStr.contains dst dp) then
    Spec.rejected w run
  else if staged && notify_radarr.delay (Spec.count w src) (Spec.count w dst)
                                        removed then
    Spec.calls (events_of run) =
      (if os.exists_at w newname then [] else [Rename dp newname])
    /\ (os.exists_at w newname = true ->
        result_of run = Returned tt /\ world_of run = w)
    /\ (result_of run = Returned tt ->
        os.exists_at (world_of run) newname = true)
    /\ (forall e, result_of run = Raised e -> exists c p, e = OSError c p)
  else
    match (if staged then result_of (unhide_files dst w) else Returned tt) with
    | Returned _ =>
        result_of run = R /\
        Spec.calls (events_of run) =
        ((if staged
          then map Spec.unhide_call (os.rglob_at w dst "*.tmp")
               ++ [Chmod dst 511]
          else []) ++ C)%list
    | Raised e =>
        (exists c p, e = OSError c p) /\
        result_of run = Raised e /\
        existsb Spec.is_api_call (events_of run) = false
    end.
Proof.
  cbv zeta.
  pose proof (@radarr_import_mode_run api sp dp ir r removed w Hs Hd) as H.
  cbv zeta in H. fold src db is_dir staged in H.
  destruct (negb _ || negb _).
  - destruct H as [t ->]. now repeat split.
  - destruct H as (t & logs & Hlogs & ->).
    assert (Hl : forallb Spec.is_log (Log Info t :: logs) = true)
      by exact Hlogs.
    assert (Hk : forall w',
               result_of (notify_radarr.match_and_import api is_dir db
                            (Spec.absDest w dp r) w') =
               (if Spec.mismatched is_dir db records
                then Raised (NameError "data") else Returned tt)
               /\ Spec.calls
                    (events_of (notify_radarr.match_and_import api is_dir db
                                  (Spec.absDest w dp r) w')) =
                  GetQueue ::
                  (if Spec.mismatched is_dir db records then []
                   else [Spec.import_scan "DownloadedMoviesScan"
                           (Spec.absDest w dp r) id])).
    { intros w'.
      destruct (radarr_match_and_import api is_dir db (Spec.absDest w dp r) w')
        as (H1 & _ & H3).
      split; assumption. }
    destruct (staged && notify_radarr.delay _ _ _) eqn:Ed.
    + apply andb_prop in Ed as [Es Edl].
      exact (@delayed_run _ _ _ _ _ _ _ Hl Es Edl).
    + exact (@notifying_run _ _ _ Hk _ _ _ _ _ _ Hl Ed).
Qed.

(** Every run of the sonarr notifier on non-empty paths. *)
Lemma sonarr_summary :
  let dst := Spec.absDest_sonarr w dp r in
  let run := notify_sonarr.import_mode api sp dp ir r removed w in
  let C := GetQueue ::
           (if Spec.usable id && is_dir then []
            else [Spec.import_scan "DownloadedEpisodesScan" dst id]) in
  if negb (PyStr.contains src sp) || negb (PyStr.contains dst dp) then
    Spec.rejected w run
  else if staged && (notify_sonarr.files_remaining
                       (Spec.count w src) (Spec.count w dst) removed >? 0)%Z
  then
    Spec.calls (events_of run) =
      (if os.exists_at w newname then [] else [Rename dp newname])
    /\ (os.exists_at w newname = true ->
        result_of run = Returned tt /\ world_of run = w)
    /\ (result_of run = Returned tt ->
        os.exists_at (world_of run) newname = true)
    /\ (forall e, result_of run = Raised e -> exists c p, e = OSError c p)
  else
    match (if staged then result_of (unhide_files dst w) else Returned tt) with
    | Returned _ =>
        result_of run = Returned tt /\
        Spec.calls (events_of run) =
        ((if staged
          then map Spec.unhide_call (os.rglob_at w dst "*.tmp")
               ++ [Chmod dst 511]
          else []) ++ C)%list
    | Raised e =>
        (exists c p, e = OSError c p) /\
        result_of run = Raised e /\
        existsb Spec.is_api_call (events_of run) = false
    end.
Proof.
  cbv zeta.
  pose proof (@sonarr_import_mode_run api sp dp ir r removed w Hs Hd) as H.
  cbv zeta in H. fold src db is_dir staged in H.
  destruct (negb _ || negb _).
  - destruct H as [t ->]. now repeat split.
  - destruct H as (t & logs & Hlogs & ->).
    assert (Hl : forallb Spec.is_log (Log Info t :: logs) = true)
      by exact Hlogs.
    assert (Hk : forall w',
               result_of (notify_sonarr.match_and_import api is_dir db
                            (Spec.absDest_sonarr w dp r) w') = Returned tt
               /\ Spec.calls
                    (events_of (notify_sonarr.match_and_import api is_dir db
                                  (Spec.absDest_sonarr w dp r) w')) =
                  GetQueue ::
                  (if Spec.usable id && is_dir then []
                   else [Spec.import_scan "DownloadedEpisodesScan"
                           (Spec.absDest_sonarr w dp r) id])).
    { intros w'.
      destruct (sonarr_match_and_import api is_dir db
                  (Spec.absDest_sonarr w dp r) w') as (H1 & _ & H3).
      split; assumption. }
    destruct (staged && (_ >? 0)%Z) eqn:Ed.
    + apply andb_prop in Ed as [Es Edl].
      exact (@delayed_run _ _ _ _ _ _ _ Hl Es Edl).
    + exact (@notifying_run _ _ _ Hk _ _ _ _ _ _ Hl Ed).
Qed.

End Summaries.

(* ------------------------------------------------------------------ *)
(** ** Import dispatch, for the whole function *)

Section DispatchProof.
Import Host.

Lemma not_in_rejection (evs : list event) :
  Spec.is_rejection evs = true -> ~ In GetQueue evs.
Proof.
  destruct evs as [|e evs]; [discriminate|].
  destruct e; try discriminate.
  destruct lvl; try discriminate.
  destruct evs; [|discriminate].
  intros _ [H|[]]. discriminate H.
Qed.

Lemma not_in_hiding (dp : string) (b : bool) :
  ~ In GetQueue (if b then [] else [Rename dp (dp ++ ".tmp")]).
Proof. destruct b; [intros []|intros [H|[]]; discriminate H]. Qed.

Lemma scans_of_notifying (pre : list string) (dst : string) (b : bool)
      (tail : list event) :
  filter Spec.is_import_scan
    ((if b then map Spec.unhide_call pre ++ [Chmod dst 511] else [])
       ++ GetQueue :: tail)%list
  = filter Spec.is_import_scan tail.
Proof.
  rewrite filter_app. destruct b; [|reflexivity].
  rewrite filter_app, unhide_calls_no by reflexivity. reflexivity.
Qed.

End DispatchProof.

(** C3, as amended: take a delivery that reaches import dispatch, that is,
    a run on non-empty paths that fetched the queue and returned.  If queue
    matching yielded a usable downloadId, the radarr notifier issues one
    import-scan request bound to that id and to [absDest], and so does the
    sonarr notifier for a file delivery, while for a directory delivery it
    issues no import-scan at all; otherwise both issue one import-scan
    request with the destination alone. *)
Theorem import_dispatch
        (api : Api.t) (sp dp ir r : string) (removed : bool) (w : Host.world) :
  PyStr.truthy sp = true ->
  PyStr.truthy dp = true ->
  let isDir := os.isdir_at w (Spec.absSource w sp ir) in
  let id := Spec.matched_id isDir (Spec.destBasename w dp r)
                            (Api.get_records (Api.queue_answer api)) in
  let radarr := notify_radarr.import_mode api sp dp ir r removed w in
  let sonarr := notify_sonarr.import_mode api sp dp ir r removed w in
  (In Host.GetQueue (Host.events_of radarr) ->
   Host.result_of radarr = Host.Returned tt ->
   filter Spec.is_import_scan (Host.events_of radarr) =
   [Spec.import_scan "DownloadedMoviesScan" (Spec.absDest w dp r) id])
  /\ (In Host.GetQueue (Host.events_of sonarr) ->
      Host.result_of sonarr = Host.Returned tt ->
      filter Spec.is_import_scan (Host.events_of sonarr) =
      if Spec.usable id && isDir then []
      else [Spec.import_scan "DownloadedEpisodesScan"
              (Spec.absDest_sonarr w dp r) id]).
Proof.
  intros Hs Hd isDir id radarr sonarr. split; intros Hin Hres.
  - pose proof (@radarr_summary api sp dp ir r removed w Hs Hd) as H.
    cbv zeta in H. fold isDir id radarr in H.
    apply in_calls in Hin; [|reflexivity].
    rewrite (filter_calls _ _ scan_is_not_log).
    destruct (negb _ || negb _).
    { destruct H as (_ & _ & H). apply not_in_rejection in H.
      exfalso. apply H. unfold Spec.calls in Hin.
      apply filter_In in Hin. tauto. }
    destruct (_ && notify_radarr.delay _ _ _).
    { destruct H as (H & _). rewrite H in Hin.
      now apply not_in_hiding in Hin. }
    match type of H with
    | match ?x with Host.Returned _ => _ | Host.Raised _ => _ end => destruct x
    end.
    + destruct H as [HR HC]. rewrite HC, scans_of_notifying.
      destruct (Spec.mismatched _ _ _); [congruence|reflexivity].
    + destruct H as (_ & HR & _). congruence.
  - pose proof (@sonarr_summary api sp dp ir r removed w Hs Hd) as H.
    cbv zeta in H. fold isDir id sonarr in H.
    apply in_calls in Hin; [|reflexivity].
    rewrite (filter_calls _ _ scan_is_not_log).
    destruct (negb _ || negb _).
    { destruct H as (_ & _ & H). apply not_in_rejection in H.
      exfalso. apply H. unfold Spec.calls in Hin.
      apply filter_In in Hin. tauto. }
    destruct (_ && (_ >? 0)%Z).
    { destruct H as (H & _). rewrite H in Hin.
      now apply not_in_hiding in Hin. }
    match type of H with
    | match ?x with Host.Returned _ => _ | Host.Raised _ => _ end => destruct x
    end.
    + destruct H as [HR HC]. rewrite HC, scans_of_notifying.
      now destruct (Spec.usable id && isDir).
    + destruct H as (_ & HR & _). congruence.
Qed.

Lemma import_dispatch_witness :
  filter Spec.is_import_scan
    (Host.events_of
       (notify_radarr.import_mode (Scenario.api_of Scenario.show_queue)
          "/import/Show/a.mkv" "/import/Show/a.mkv" "/import" "/import" false
          Scenario.w0)) =
  [Host.PostCommand "DownloadedMoviesScan" "/import/Show" (Some "ID1")]
  /\ filter Spec.is_import_scan
       (Host.events_of
          (notify_sonarr.import_mode (Scenario.api_of [])
             "/import/Show/a.mkv" "/import/Show/a.mkv" "/import" "/import"
             false Scenario.w0)) =
     [Host.PostCommand "DownloadedEpisodesScan" "/import/Show" None].
Proof.
  split.
  - destruct (@import_dispatch (Scenario.api_of Scenario.show_queue)
                "/import/Show/a.mkv" "/import/Show/a.mkv" "/import" "/import"
                false Scenario.w0 eq_refl eq_refl) as [H _].
    apply H; vm_compute; auto 10.
  - destruct (@import_dispatch (Scenario.api_of [])
                "/import/Show/a.mkv" "/import/Show/a.mkv" "/import" "/import"
                false Scenario.w0 eq_refl eq_refl) as [_ H].
    apply H; vm_compute; auto 10.
Defined.

(** C3 as stated fails in the sonarr notifier: a directory delivery whose
    directory is matched in the queue with a usable downloadId reaches the
    dispatch (the queue is fetched and the function returns) and issues no
    import-scan request. *)
Lemma import_dispatch_counterexample :
  let run := notify_sonarr.import_mode (Scenario.api_of Scenario.show_queue)
               "/import/Show/a.mkv" "/import/Show/a.mkv" "/import" "/import"
               false Scenario.w0 in
  os.isdir_at Scenario.w0
    (Spec.absSource Scenario.w0 "/import/Show/a.mkv" "/import") = true
  /\ Spec.matched_id true "Show" Scenario.show_queue = Some "ID1"
  /\ Host.result_of run = Host.Returned tt
  /\ Spec.calls (Host.events_of run) = [Host.GetQueue]
  /\ existsb Spec.is_import_scan (Host.events_of run) = false.
Proof.
  cbv zeta. repeat split; vm_compute; reflexivity.
Qed.

(* ------------------------------------------------------------------ *)
(** ** File matches with a mismatched extension *)

(** C1, as amended: for every file delivery whose queue match agrees on the
    extension-stripped basename and differs in the full basename, the sonarr
    notifier (once the paths are accepted) makes two calls, the queue fetch
    and one import-scan request, bound to the matched record's downloadId
    when that is usable and by path only otherwise, and makes no
    queue-removal request; the radarr notifier issues no import-scan request
    bound to a downloadId. *)
Theorem mismatched_extension_match
        (api : Api.t) (sp dp ir r : string) (removed : bool) (w : Host.world) :
  PyStr.truthy sp = true ->
  PyStr.truthy dp = true ->
  os.isdir_at w (Spec.absSource w sp ir) = false ->
  Spec.mismatched false (Spec.destBasename w dp r)
                  (Api.get_records (Api.queue_answer api)) = true ->
  (Spec.accepted w sp dp ir (Spec.absDest_sonarr w dp r) = true ->
   Spec.calls
     (Host.events_of (notify_sonarr.import_mode api sp dp ir r removed w)) =
   [Host.GetQueue;
    Spec.import_scan "DownloadedEpisodesScan" (Spec.absDest_sonarr w dp r)
      (Spec.matched_id false (Spec.destBasename w dp r)
                       (Api.get_records (Api.queue_answer api)))])
  /\ existsb Spec.is_id_bound_scan
       (Host.events_of (notify_radarr.import_mode api sp dp ir r removed w))
     = false.
Proof.
  intros Hs Hd Hfile Hmis. split.
  - intros Hacc. unfold Spec.accepted in Hacc. rewrite Hs, Hd in Hacc.
    cbn [andb] in Hacc. apply andb_prop in Hacc as [Hc1 Hc2].
    pose proof (@sonarr_summary api sp dp ir r removed w Hs Hd) as H.
    cbv zeta in H. rewrite Hc1, Hc2, Hfile in H. cbn [negb orb andb] in H.
    destruct H as [_ H]. rewrite H. cbn [app].
    now rewrite andb_false_r.
  - pose proof (@radarr_summary api sp dp ir r removed w Hs Hd) as H.
    cbv zeta in H. rewrite Hfile, Hmis in H. cbn [andb] in H.
    rewrite (existsb_calls _ _ id_bound_is_not_log).
    destruct (negb _ || negb _).
    + destruct H as (_ & _ & H).
      destruct (Host.events_of _) as [|e evs]; [reflexivity|].
      destruct e; try discriminate. destruct lvl; try discriminate.
      destruct evs; [reflexivity|discriminate].
    + destruct H as [_ H]. rewrite H. reflexivity.
Qed.

Lemma mismatched_extension_match_witness :
  Spec.calls
    (Host.events_of
       (notify_sonarr.import_mode (Scenario.api_of [Scenario.film_mp4])
          "/import/Film.mkv" "/import/Film.mkv" "/import" "/import" false
          Scenario.w0)) =
  [Host.GetQueue;
   Host.PostCommand "DownloadedEpisodesScan" "/import/Film.mkv" (Some "ID7")]
  /\ existsb Spec.is_id_bound_scan
       (Host.events_of
          (notify_radarr.import_mode (Scenario.api_of [Scenario.film_mp4])
             "/import/Film.mkv" "/import/Film.mkv" "/import" "/import" false
             Scenario.w0)) = false.
Proof.
  destruct (@mismatched_extension_match (Scenario.api_of [Scenario.film_mp4])
              "/import/Film.mkv" "/import/Film.mkv" "/import" "/import" false
              Scenario.w0 eq_refl eq_refl) as [H1 H2];
    try (vm_compute; reflexivity).
  split; [|exact H2]. apply H1. vm_compute. reflexivity.
Defined.

(** C1 as stated fails in both notifiers.  A file [Film.mkv] is delivered
    and the queue holds the download [Film.mp4]: the sonarr notifier imports
    by the record's downloadId and removes nothing; the radarr notifier
    enters its removal branch and stops there with [NameError] on the
    unbound name [data], before any removal or import-scan request. *)
Lemma mismatched_extension_match_counterexample :
  let api := Scenario.api_of [Scenario.film_mp4] in
  let sonarr := notify_sonarr.import_mode api "/import/Film.mkv"
                  "/import/Film.mkv" "/import" "/import" false Scenario.w0 in
  let radarr := notify_radarr.import_mode api "/import/Film.mkv"
                  "/import/Film.mkv" "/import" "/import" false Scenario.w0 in
  os.isdir_at Scenario.w0
    (Spec.absSource Scenario.w0 "/import/Film.mkv" "/import") = false
  /\ Spec.mismatched false "Film.mkv" [Scenario.film_mp4] = true
  /\ Spec.removal_before_path_scan (Host.events_of sonarr) = false
  /\ Spec.removal_before_path_scan (Host.events_of radarr) = false
  /\ Spec.calls (Host.events_of sonarr) =
     [Host.GetQueue;
      Host.PostCommand "DownloadedEpisodesScan" "/import/Film.mkv" (Some "ID7")]
  /\ Host.result_of radarr = Host.Raised (Host.NameError "data")
  /\ Spec.calls (Host.events_of radarr) = [Host.GetQueue].
Proof.
  cbv zeta. repeat split; vm_compute; reflexivity.
Qed.

(* ------------------------------------------------------------------ *)
(** ** Directory deliveries never reach the removal branch *)

Section DirectoryMatches.
Import Host.

Lemma mismatched_directory (db : string) (records : list Api.item) :
  Spec.mismatched true db records = false.
Proof.
  unfold Spec.mismatched, Spec.first_match.
  destruct (find _ records) as [x|] eqn:E; [|reflexivity].
  apply find_some in E as [_ E].
  now rewrite (directory_match_same_basename db x eq_refl E).
Qed.

Lemma rejection_calls (evs : list event) :
  Spec.is_rejection evs = true -> Spec.calls evs = [].
Proof.
  destruct evs as [|e evs]; [reflexivity|].
  destruct e; try discriminate. destruct lvl; try discriminate.
  destruct evs; [reflexivity|discriminate].
Qed.

Lemma no_api_no_removal (evs : list event) :
  existsb Spec.is_api_call evs = false -> existsb Spec.is_removal evs = false.
Proof.
  induction evs as [|e evs IH]; [reflexivity|]. cbn.
  intros H. apply orb_false_elim in H as [He Hr].
  rewrite (IH Hr). now destruct e.
Qed.

Lemma removal_of_notifying (pre : list string) (dst : string) (b : bool)
      (tail : list event) :
  existsb Spec.is_removal
    ((if b then map Spec.unhide_call pre ++ [Chmod dst 511] else [])
       ++ GetQueue :: tail)%list
  = existsb Spec.is_removal tail.
Proof.
  rewrite existsb_app. destruct b; [|reflexivity].
  rewrite existsb_app. cbn. rewrite orb_false_r.
  induction pre as [|x pre IH]; [reflexivity|exact IH].
Qed.

End DirectoryMatches.

(** C8: for every directory delivery (non-empty paths, [absSource] a
    directory), whatever the queue holds, the radarr notifier never executes
    its queue-removal branch: no removal request is made and the function
    does not stop on the unbound name of that branch; its queue loop always
    ends normally with the extension-match flag true.  The sonarr notifier,
    which has no such branch, makes no removal request either. *)
Theorem directory_never_removes
        (api : Api.t) (sp dp ir r : string) (removed : bool) (w : Host.world) :
  PyStr.truthy sp = true ->
  PyStr.truthy dp = true ->
  os.isdir_at w (Spec.absSource w sp ir) = true ->
  let radarr := notify_radarr.import_mode api sp dp ir r removed w in
  let sonarr := notify_sonarr.import_mode api sp dp ir r removed w in
  existsb Spec.is_removal (Host.events_of radarr) = false
  /\ (forall name, Host.result_of radarr <> Host.Raised (Host.NameError name))
  /\ (forall db ad records w',
        exists st,
          Host.result_of
            (notify_radarr.scan_queue api true db ad records
                                      notify_radarr.scan0 w') = Host.Returned st
          /\ notify_radarr.extension_match st = true)
  /\ existsb Spec.is_removal (Host.events_of sonarr) = false.
Proof.
  intros Hs Hd Hdir radarr sonarr. repeat apply conj.
  - pose proof (@radarr_summary api sp dp ir r removed w Hs Hd) as H.
    cbv zeta in H. fold radarr in H. rewrite Hdir in H.
    rewrite mismatched_directory in H.
    rewrite (existsb_calls _ _ removal_is_not_log).
    destruct (negb _ || negb _).
    { destruct H as (_ & _ & H). now rewrite (rejection_calls _ H). }
    destruct (_ && notify_radarr.delay _ _ _).
    { destruct H as (H & _). rewrite H. now destruct (os.exists_at _ _). }
    match type of H with
    | match ?x with Host.Returned _ => _ | Host.Raised _ => _ end => destruct x
    end.
    + destruct H as [_ H]. rewrite H. now rewrite removal_of_notifying.
    + destruct H as (_ & _ & H).
      rewrite <- (existsb_calls _ _ removal_is_not_log).
      now apply no_api_no_removal.
  - intros name.
    pose proof (@radarr_summary api sp dp ir r removed w Hs Hd) as H.
    cbv zeta in H. fold radarr in H. rewrite Hdir in H.
    rewrite mismatched_directory in H.
    destruct (negb _ || negb _).
    { destruct H as (H & _). congruence. }
    destruct (_ && notify_radarr.delay _ _ _).
    { destruct H as (_ & _ & _ & H). intros E.
      destruct (H _ E) as (c & p & [=]). }
    match type of H with
    | match ?x with Host.Returned _ => _ | Host.Raised _ => _ end => destruct x
    end.
    + destruct H as [H _]. congruence.
    + destruct H as ((c & p & ->) & H & _). congruence.
  - intros db ad records w'.
    destruct (radarr_scan_queue api true db ad records w') as (l & _ & H).
    rewrite H. cbn [Host.result_of fst].
    pose proof (mismatched_directory db records) as Hm.
    unfold Spec.mismatched in Hm.
    destruct (Spec.first_match true db records) as [x|].
    + destruct (Spec.same_basename db x); [|discriminate]. eauto.
    + eauto.
  - pose proof (@sonarr_summary api sp dp ir r removed w Hs Hd) as H.
    cbv zeta in H. fold sonarr in H. rewrite Hdir in H.
    rewrite (existsb_calls _ _ removal_is_not_log).
    destruct (negb _ || negb _).
    { destruct H as (_ & _ & H). now rewrite (rejection_calls _ H). }
    destruct (_ && (_ >? 0)%Z).
    { destruct H as (H & _). rewrite H. now destruct (os.exists_at _ _). }
    match type of H with
    | match ?x with Host.Returned _ => _ | Host.Raised _ => _ end => destruct x
    end.
    + destruct H as [_ H]. rewrite H. rewrite removal_of_notifying.
      now destruct (Spec.usable _ && _).
    + destruct H as (_ & _ & H).
      rewrite <- (existsb_calls _ _ removal_is_not_log).
      now apply no_api_no_removal.
Qed.

Lemma directory_never_removes_witness :
  let radarr := notify_radarr.import_mode (Scenario.api_of Scenario.show_queue)
                  "/import/Show/a.mkv" "/import/Show/a.mkv" "/import" "/import"
                  false Scenario.w0 in
  existsb Spec.is_removal (Host.events_of radarr) = false
  /\ Host.result_of radarr <> Host.Raised (Host.NameError "data").
Proof.
  destruct (@directory_never_removes (Scenario.api_of Scenario.show_queue)
              "/import/Show/a.mkv" "/import/Show/a.mkv" "/import" "/import"
              false Scenario.w0 eq_refl eq_refl) as (H1 & H2 & _).
  - vm_compute. reflexivity.
  - cbv zeta. split; [exact H1|exact (H2 "data")].
Defined.

(* ------------------------------------------------------------------ *)
(** ** The delay decision *)

Section DelayDecision.
Import Host.

Lemma radarr_delay_remaining (s d : nat) (removed : bool) :
  notify_radarr.delay (Z.of_nat s) (Z.of_nat d) removed =
  (Spec.remaining removed (Z.of_nat s) (Z.of_nat d) >? 0)%Z.
Proof.
  unfold notify_radarr.delay, Spec.remaining.
  destruct removed; cbn [andb].
  - destruct (Z.ltb_spec (Z.of_nat d) (Z.of_nat s));
      destruct (Z.eqb_spec (Z.of_nat s) 0);
      destruct (Z.gtb_spec (Z.of_nat s) 0); cbn; try reflexivity; lia.
  - rewrite orb_false_r.
    destruct (Z.ltb_spec (Z.of_nat d) (Z.of_nat s));
      destruct (Z.gtb_spec (Z.of_nat s - Z.of_nat d) 0); try reflexivity; lia.
Qed.

Lemma sonarr_files_remaining (s d : Z) (removed : bool) :
  notify_sonarr.files_remaining s d removed = Spec.remaining removed s d.
Proof. reflexivity. Qed.

Lemma count_is_length (w : world) (dir : string) :
  Spec.count w dir = Z.of_nat (length (os.rglob_at w dir "[!.]*.*")).
Proof. reflexivity. Qed.

Lemma staged_directory_unfold (w : world) (sp dp ir r dst : string) :
  Spec.staged_directory w sp dp ir r dst = true ->
  PyStr.truthy sp = true /\ PyStr.truthy dp = true
  /\ PyStr.contains (Spec.absSource w sp ir) sp = true
  /\ PyStr.contains dst dp = true
  /\ os.isdir_at w (Spec.absSource w sp ir) = true
  /\ String.eqb ir r = false.
Proof.
  unfold Spec.staged_directory, Spec.accepted. intros H.
  repeat (apply andb_prop in H as [H ?]).
  repeat split; try assumption. now apply negb_true_iff.
Qed.

End DelayDecision.

Section CountedNames.





End CountedNames.




(* ------------------------------------------------------------------ *)
(** ** A delayed delivery is hidden once *)

Section HiddenOnce.
Import Host.




Lemma delayed_delivery_unfold (w : world) (sp dp ir r dst : string)
      (removed : bool) :
  Spec.delayed_delivery w sp dp ir r dst removed = true ->
  PyStr.truthy sp = true /\ PyStr.truthy dp = true
  /\ PyStr.contains (Spec.absSource w sp ir) sp = true
  /\ PyStr.contains dst dp = true
  /\ os.isdir_at w (Spec.absSource w sp ir) = true
  /\ String.eqb ir r = false
  /\ (Spec.remaining removed (Spec.count w (Spec.absSource w sp ir))
                     (Spec.count w dst) >? 0)%Z = true.
Proof.
  unfold Spec.delayed_delivery. intros H. apply andb_prop in H as [H1 H2].
  apply staged_directory_unfold in H1. tauto.
Qed.

Variables (api : Api.t) (sp dp ir r : string) (removed : bool).




End HiddenOnce.

Section NoSecondHiding.
Import Host.








Variable dp : string.





Variables (api : Api.t) (sp ir r : string) (removed : bool).





End NoSecondHiding.



(* ------------------------------------------------------------------ *)
(** ** A completed delivery is un-hidden before the queue is read *)

Section Unhiding.
Import Host.





Variables (api : Api.t) (sp dp ir r : string) (removed : bool) (w : world).



End Unhiding.



(* ================================================================== *)
(** * Properties of the rest of the plugins *)

(* ------------------------------------------------------------------ *)
(** ** Running a task *)

Section TaskLaws.
Import Task.
Context {A B : Type}.

Lemma task_after_nil (r : outcome A * Host.world * list event) : after [] r = r.
Proof. destruct r as [[o w] t]. reflexivity. Qed.

Lemma task_after_after (l1 l2 : list event)
      (r : outcome A * Host.world * list event) :
  after l1 (after l2 r) = after (l1 ++ l2) r.
Proof. unfold after. cbn. now rewrite app_assoc. Qed.

Lemma task_bind_ret (a : A) (k : A -> M B) (w : Host.world) :
  bind (ret a) k w = k a w.
Proof. unfold bind. cbn. destruct (k a w) as [[? ?] ?]. reflexivity. Qed.

Lemma task_bind_raise (e : exn) (k : A -> M B) (w : Host.world) :
  bind (raise e) k w = (Raised e, w, []).
Proof. reflexivity. Qed.

Lemma task_bind_emit (e : event) (k : unit -> M B) (w : Host.world) :
  bind (emit e) k w = after [e] (k tt w).
Proof. reflexivity. Qed.

Lemma task_bind_run (c : M A) (k : A -> M B) (w w' : Host.world) (a : A)
      (l : list event) :
  c w = (Returned a, w', l) -> bind c k w = after l (k a w').
Proof. intros H. unfold bind. now rewrite H. Qed.

Lemma task_bind_run_raised (c : M A) (k : A -> M B) (w w' : Host.world)
      (e : exn) (l : list event) :
  c w = (Raised e, w', l) -> bind c k w = (Raised e, w', l).
Proof. intros H. unfold bind. now rewrite H. Qed.

Lemma task_bind_call (ev : event) (ans : answer A) (k : A -> M B)
      (w : Host.world) :
  bind (call ev ans) k w =
  match ans with
  | Answers x => after [ev] (k x w)
  | Fails e => (Raised e, w, [ev])
  end.
Proof.
  unfold call. destruct ans as [x|e].
  - unfold bind at 1. cbn. reflexivity.
  - reflexivity.
Qed.

Lemma task_bind_log (lvl : Host.level) (t : string) (k : unit -> M B)
      (w : Host.world) :
  bind (lift (Host.emit (Host.Log lvl t))) k w =
  after [Did (Host.Log lvl t)] (k tt w).
Proof. reflexivity. Qed.

End TaskLaws.

Section TaskResults.
Import Task.
Context {A : Type}.

Lemma task_result_after (l : list event) (r : outcome A * Host.world * list event) :
  result_of (after l r) = result_of r.
Proof. reflexivity. Qed.

Lemma task_world_after (l : list event) (r : outcome A * Host.world * list event) :
  world_of (after l r) = world_of r.
Proof. reflexivity. Qed.

Lemma task_events_after (l : list event) (r : outcome A * Host.world * list event) :
  events_of (after l r) = (l ++ events_of r)%list.
Proof. reflexivity. Qed.

Lemma task_calls_app (l1 l2 : list event) :
  calls (l1 ++ l2) = (calls l1 ++ calls l2)%list.
Proof. apply filter_app. Qed.

Lemma task_try_returned (body : M A) (h : exn -> option (M A))
      (w w' : Host.world) (a : A) (l : list event) :
  body w = (Returned a, w', l) -> try_except body h w = (Returned a, w', l).
Proof. intros H. unfold try_except. now rewrite H. Qed.

Lemma task_try_raised (body : M A) (h : exn -> option (M A))
      (w w' : Host.world) (e : exn) (l : list event) :
  body w = (Raised e, w', l) ->
  try_except body h w =
  match h e with
  | Some c => after l (c w')
  | None => (Raised e, w', l)
  end.
Proof. intros H. unfold try_except. rewrite H. cbn. now destruct (h e). Qed.

End TaskResults.

(* ------------------------------------------------------------------ *)
(** ** notify_radarr: the update mode *)

Section RadarrUpdate.
Import Task notify_radarr_task.
Variables (a : api) (abspath : string) (rename_files : bool) (w : Host.world).

Let term := OsPath.basename abspath.
Let run := update_mode a abspath rename_files w.

Lemma radarr_refresh_run (movie_id : Z) :
  let r := refresh_movie a movie_id w in
  world_of r = w
  /\ result_of r =
     match post_command_answer a "RefreshMovie" with
     | Fails (PyarrError _) => Returned false
     | Fails e => Raised e
     | Answers (Api.RespDict m) => Returned (negb (PyStr.truthy_opt m))
     | Answers _ => Raised (AttributeError "get")
     end
  /\ calls (events_of r) =
     [Command "RefreshMovie" [("movieIds", Ints [movie_id])]].
Proof.
  cbv zeta. unfold refresh_movie, post_command.
  destruct (post_command_answer a "RefreshMovie") as [[m| |]|e].
  - match goal with |- context [try_except ?b ?h w] =>
      set (body := b); set (handler := h) end.
    assert (Hb : exists l,
               body w = (Returned (negb (PyStr.truthy_opt m)), w,
                         Command "RefreshMovie" [("movieIds", Ints [movie_id])]
                         :: l)
               /\ calls l = []).
    { subst body. rewrite task_bind_call.
      unfold log.debug, log.info, log.error, logger.debug, logger.info,
        logger.error.
      rewrite task_bind_log. cbn [get_message]. rewrite task_bind_ret.
      destruct (PyStr.truthy_opt m); rewrite !task_bind_log;
        eexists; split; reflexivity. }
    destruct Hb as (l & Hb & Hl).
    rewrite (@task_try_returned _ _ handler _ _ _ _ Hb).
    cbn [world_of result_of events_of fst snd].
    repeat split. unfold calls in *. cbn [filter is_log negb]. now rewrite Hl.
  - now repeat split.
  - now repeat split.
  - destruct e; now repeat split.
Qed.

Lemma radarr_rename_run (movie_id : Z) :
  let r := rename_movie a movie_id w in
  world_of r = w
  /\ result_of r =
     match post_command_answer a "RenameMovie" with
     | Fails (PyarrError _) => Returned tt
     | Fails e => Raised e
     | Answers _ => Returned tt
     end
  /\ calls (events_of r) =
     [Sleep 3; Command "RenameMovie" [("movieIds", Ints [movie_id])]].
Proof.
  cbv zeta. unfold rename_movie, post_command, call.
  destruct (post_command_answer a "RenameMovie") as [[m| |]|e];
    try now repeat split.
  destruct e; now repeat split.
Qed.

Lemma radarr_update_outline :
  world_of run = w
  /\ result_of run =
     match lookup_movie_answer a term with
     | Fails e => Raised e
     | Answers results =>
         match Notions.first_id results with
         | None => Returned tt
         | Some _ =>
             match post_command_answer a "RefreshMovie" with
             | Fails (PyarrError _) => Returned tt
             | Fails e => Raised e
             | Answers (Api.RespDict m) =>
                 if negb (PyStr.truthy_opt m) && rename_files then
                   match post_command_answer a "RenameMovie" with
                   | Fails (PyarrError _) => Returned tt
                   | Fails e => Raised e
                   | Answers _ => Returned tt
                   end
                 else Returned tt
             | Answers _ => Raised (AttributeError "get")
             end
         end
     end
  /\ calls (events_of run) =
     LookupMovie term ::
     match lookup_movie_answer a term with
     | Fails _ => []
     | Answers results =>
         match Notions.first_id results with
         | None => []
         | Some movie_id =>
             Command "RefreshMovie" [("movieIds", Ints [movie_id])] ::
             (if Notions.accepted (post_command_answer a "RefreshMovie")
                 && rename_files
              then [Sleep 3;
                    Command "RenameMovie" [("movieIds", Ints [movie_id])]]
              else [])
         end
     end.
Proof.
  subst run. unfold update_mode, lookup_movie. cbv zeta.
  fold term. rewrite task_bind_call.
  destruct (lookup_movie_answer a term) as [results|e]; [|now repeat split].
  unfold log.debug, log.error, logger.debug, logger.error.
  rewrite task_bind_log.
  unfold Notions.first_id.
  destruct (find _ results) as [m|]; [|now repeat split].
  destruct (Py.nonzero (id m)) as [movie_id|]; [|now repeat split].
  rewrite task_bind_log.
  destruct (radarr_refresh_run movie_id) as (Hw & Hr & Hc). cbv zeta in *.
  destruct (refresh_movie a movie_id w) as [[res w1] evs] eqn:E.
  cbn [world_of result_of events_of fst snd] in Hw, Hr, Hc. subst w1.
  unfold Notions.accepted.
  destruct res as [refreshed|e].
  - rewrite (@task_bind_run _ _ _ _ _ _ _ _ E). cbv beta.
    rewrite !task_world_after, !task_result_after, !task_events_after.
    rewrite !task_calls_app, Hc.
    destruct (post_command_answer a "RefreshMovie") as [[m1| |]|[]];
      try discriminate Hr; injection Hr as ->.
    + destruct (negb (PyStr.truthy_opt m1) && rename_files).
      * destruct (radarr_rename_run movie_id) as (Hw2 & Hr2 & Hc2).
        cbv zeta in *. rewrite Hw2, Hr2, Hc2. now repeat split.
      * now repeat split.
    + now repeat split.
  - rewrite (@task_bind_run_raised _ _ _ _ _ _ _ _ E).
    rewrite !task_world_after, !task_result_after, !task_events_after.
    rewrite !task_calls_app. cbn [world_of result_of events_of fst snd].
    rewrite Hc.
    destruct (post_command_answer a "RefreshMovie") as [[m1| |]|[]];
      try discriminate Hr; injection Hr as ->; now repeat split.
Qed.

End RadarrUpdate.

(* ------------------------------------------------------------------ *)
(** ** notify_sonarr: the update mode *)

Section SonarrUpdate.
Import Task notify_sonarr_task.
Variables (a : api) (dest_path : string) (rename_files : bool) (w : Host.world).

Let term := OsPath.basename dest_path.
Let run := update_mode a dest_path rename_files w.

Lemma episode_ids_run (l : list (option Z)) :
  episode_ids l w =
  match Notions.all_ids l with
  | Some ids => (Returned ids, w, [])
  | None => (Raised (KeyError "id"), w, [])
  end.
Proof.
  induction l as [|[i|] l IH]; cbn [episode_ids Notions.all_ids];
    [reflexivity| |reflexivity].
  destruct (Notions.all_ids l) as [ids|]; cbn [option_map].
  - now rewrite (@task_bind_run _ _ _ _ _ _ _ _ IH).
  - now rewrite (@task_bind_run_raised _ _ _ _ _ _ _ _ IH).
Qed.

Lemma sonarr_rescan_run (series_id : Z) :
  let r := rescan_series a series_id w in
  world_of r = w
  /\ result_of r =
     match post_command_answer a "RescanSeries" with
     | Fails (PyarrError _) => Returned false
     | Fails e => Raised e
     | Answers (Api.RespDict m) => Returned (negb (PyStr.truthy_opt m))
     | Answers _ => Raised (AttributeError "get")
     end
  /\ calls (events_of r) =
     [Command "RescanSeries" [("seriesId", Int series_id)]].
Proof.
  cbv zeta. unfold rescan_series, post_command.
  destruct (post_command_answer a "RescanSeries") as [[m| |]|e].
  - match goal with |- context [try_except ?b ?h w] =>
      set (body := b); set (handler := h) end.
    assert (Hb : exists l,
               body w = (Returned (negb (PyStr.truthy_opt m)), w,
                         Command "RescanSeries" [("seriesId", Int series_id)]
                         :: l)
               /\ calls l = []).
    { subst body. rewrite task_bind_call.
      unfold log.debug, log.info, log.error, logger.debug, logger.info,
        logger.error.
      cbn [get_message]. rewrite task_bind_ret.
      destruct (PyStr.truthy_opt m); rewrite !task_bind_log;
        eexists; split; reflexivity. }
    destruct Hb as (l & Hb & Hl).
    rewrite (@task_try_returned _ _ handler _ _ _ _ Hb).
    cbn [world_of result_of events_of fst snd].
    repeat split. unfold calls in *. cbn [filter is_log negb]. now rewrite Hl.
  - now repeat split.
  - now repeat split.
  - destruct e; now repeat split.
Qed.

Lemma sonarr_rename_run (series_id : Z) :
  let r := rename_episode_files a series_id w in
  world_of r = w
  /\ result_of r = Returned tt
  /\ calls (events_of r) =
     Sleep 10 :: GetEpisodeFile series_id ::
     match get_episode_file_answer a series_id with
     | Fails _ => []
     | Answers rename_list =>
         match Notions.all_ids rename_list with
         | Some file_ids =>
             [Command "RenameFiles"
                [("seriesId", Int series_id); ("files", Ints file_ids)]]
         | None => []
         end
     end.
Proof.
  cbv zeta. unfold rename_episode_files, sleep. rewrite task_bind_emit.
  rewrite task_world_after, task_result_after, task_events_after.
  unfold get_episode_file, post_command.
  match goal with |- context [try_except ?b ?h w] =>
    set (body := b); set (handler := h) end.
  assert (Hh : forall e w',
             exists lg, handler e = Some lg
                        /\ world_of (lg w') = w'
                        /\ result_of (lg w') = Returned tt
                        /\ calls (events_of (lg w')) = []).
  { intros e w'. subst handler.
    destruct e; eexists; (split; [reflexivity|]); repeat split. }
  destruct (get_episode_file_answer a series_id) as [rename_list|e] eqn:Ea.
  - pose proof (episode_ids_run rename_list) as Hids.
    destruct (Notions.all_ids rename_list) as [file_ids|] eqn:Ei.
    + destruct (post_command_answer a "RenameFiles") as [result|e] eqn:Ep.
      * assert (Hb : exists lg,
                   body w = (Returned tt, w,
                             [GetEpisodeFile series_id;
                              Command "RenameFiles"
                                [("seriesId", Int series_id);
                                 ("files", Ints file_ids)]; lg])
                   /\ is_log lg = true).
        { subst body. rewrite task_bind_call, ?Ea.
          rewrite (@task_bind_run _ _ _ _ _ _ _ _ Hids).
          rewrite task_bind_call, ?Ep.
          destruct (Api.is_dict result); eexists; split; reflexivity. }
        destruct Hb as (lg & Hb & Hlg).
        rewrite (@task_try_returned _ _ handler _ _ _ _ Hb). cbn [world_of result_of events_of fst snd].
        repeat split. unfold calls. cbn [app filter is_log negb].
        now rewrite Hlg.
      * assert (Hb : body w = (Raised e, w,
                               [GetEpisodeFile series_id;
                                Command "RenameFiles"
                                  [("seriesId", Int series_id);
                                   ("files", Ints file_ids)]])).
        { subst body. rewrite task_bind_call, ?Ea.
          rewrite (@task_bind_run _ _ _ _ _ _ _ _ Hids).
          now rewrite task_bind_call, ?Ep. }
        rewrite (@task_try_raised _ _ handler _ _ _ _ Hb).
        destruct (Hh e w)
          as (lg & -> & H1 & H2 & H3).
        rewrite task_world_after, task_result_after, !task_events_after.
        now rewrite !task_calls_app, H1, H2, H3.
    + assert (Hb : body w = (Raised (KeyError "id"), w,
                             [GetEpisodeFile series_id])).
      { subst body. rewrite task_bind_call, ?Ea.
        now rewrite (@task_bind_run_raised _ _ _ _ _ _ _ _ Hids). }
      rewrite (@task_try_raised _ _ handler _ _ _ _ Hb).
      destruct (Hh (KeyError "id") w)
        as (lg & -> & H1 & H2 & H3).
      rewrite task_world_after, task_result_after, !task_events_after.
      now rewrite !task_calls_app, H1, H2, H3.
  - assert (Hb : body w = (Raised e, w, [GetEpisodeFile series_id])).
    { subst body. now rewrite task_bind_call, ?Ea. }
    rewrite (@task_try_raised _ _ handler _ _ _ _ Hb).
    destruct (Hh e w) as (lg & -> & H1 & H2 & H3).
    rewrite task_world_after, task_result_after, !task_events_after.
    now rewrite !task_calls_app, H1, H2, H3.
Qed.

Lemma sonarr_update_outline :
  world_of run = w
  /\ result_of run =
     match get_parsed_title_answer a term with
     | Fails e => Raised e
     | Answers episode_data =>
         match Notions.series_id episode_data with
         | None => Returned tt
         | Some _ =>
             match post_command_answer a "RescanSeries" with
             | Fails (PyarrError _) => Returned tt
             | Fails e => Raised e
             | Answers (Api.RespDict _) => Returned tt
             | Answers _ => Raised (AttributeError "get")
             end
         end
     end
  /\ calls (events_of run) =
     GetParsedTitle term ::
     match get_parsed_title_answer a term with
     | Fails _ => []
     | Answers episode_data =>
         match Notions.series_id episode_data with
         | None => []
         | Some series_id =>
             Command "RescanSeries" [("seriesId", Int series_id)] ::
             (if Notions.accepted (post_command_answer a "RescanSeries")
                 && rename_files
              then
                Sleep 10 :: GetEpisodeFile series_id ::
                match get_episode_file_answer a series_id with
                | Fails _ => []
                | Answers rename_list =>
                    match Notions.all_ids rename_list with
                    | Some file_ids =>
                        [Command "RenameFiles"
                           [("seriesId", Int series_id);
                            ("files", Ints file_ids)]]
                    | None => []
                    end
                end
              else [])
         end
     end.
Proof.
  subst run. unfold update_mode, get_parsed_title. cbv zeta.
  fold term. rewrite task_bind_call.
  destruct (get_parsed_title_answer a term) as [episode_data|e];
    [|now repeat split].
  unfold log.error, logger.error.
  unfold Notions.series_id.
  assert (Hid : Py.nonzero
                  match episode_data with Some s => id s | None => None end =
                match episode_data with
                | Some s => Py.nonzero (id s)
                | None => None
                end) by now destruct episode_data.
  rewrite Hid. clear Hid.
  destruct (match episode_data with Some s => Py.nonzero (id s) | None => None end)
    as [series_id|]; [|now repeat split].
  destruct (sonarr_rescan_run series_id) as (Hw & Hr & Hc). cbv zeta in *.
  destruct (rescan_series a series_id w) as [[res w1] evs] eqn:E.
  cbn [world_of result_of events_of fst snd] in Hw, Hr, Hc. subst w1.
  unfold Notions.accepted.
  destruct res as [rescanned|e].
  - rewrite (@task_bind_run _ _ _ _ _ _ _ _ E). cbv beta.
    rewrite !task_world_after, !task_result_after, !task_events_after.
    rewrite !task_calls_app, Hc.
    destruct (post_command_answer a "RescanSeries") as [[m1| |]|[]];
      try discriminate Hr; injection Hr as ->.
    + destruct (negb (PyStr.truthy_opt m1) && rename_files).
      * destruct (sonarr_rename_run series_id) as (Hw2 & Hr2 & Hc2).
        cbv zeta in *. rewrite Hw2, Hr2, Hc2. now repeat split.
      * now repeat split.
    + now repeat split.
  - rewrite (@task_bind_run_raised _ _ _ _ _ _ _ _ E).
    rewrite !task_world_after, !task_result_after, !task_events_after.
    rewrite !task_calls_app. cbn [world_of result_of events_of fst snd].
    rewrite Hc.
    destruct (post_command_answer a "RescanSeries") as [[m1| |]|[]];
      try discriminate Hr; injection Hr as ->; now repeat split.
Qed.

End SonarrUpdate.

(* ------------------------------------------------------------------ *)
(** ** [import_mode] outside a staged delivery *)

Section ImportEdges.
Import Host.
Variables (api : Api.t) (sp dp ir r : string) (removed : bool) (w : world).

Lemma relpath_empty (start : string) :
  os_path_relpath "" start w = (Raised (ValueError "no path specified"), w, []).
Proof. reflexivity. Qed.

Lemma truthy_false (s : string) : PyStr.truthy s = false -> s = "".
Proof. now destruct s. Qed.

Lemma radarr_empty_path :
  PyStr.truthy sp = false \/ PyStr.truthy dp = false ->
  notify_radarr.import_mode api sp dp ir r removed w =
  (Raised (ValueError "no path specified"), w, []).
Proof.
  intros H. unfold notify_radarr.import_mode.
  destruct (PyStr.truthy sp) eqn:Hs.
  - destruct H as [H|H]; [discriminate|]. apply truthy_false in H. subst dp.
    rewrite bind_relpath by assumption.
    now rewrite (@bind_run_raised _ _ _ _ _ _ _ _ (relpath_empty r)).
  - apply truthy_false in Hs. subst sp.
    now rewrite (@bind_run_raised _ _ _ _ _ _ _ _ (relpath_empty ir)).
Qed.

Lemma sonarr_empty_path :
  PyStr.truthy sp = false \/ PyStr.truthy dp = false ->
  notify_sonarr.import_mode api sp dp ir r removed w =
  (Raised (ValueError "no path specified"), w, []).
Proof.
  intros H. unfold notify_sonarr.import_mode.
  destruct (PyStr.truthy sp) eqn:Hs.
  - destruct H as [H|H]; [discriminate|]. apply truthy_false in H. subst dp.
    rewrite bind_relpath by assumption.
    now rewrite (@bind_run_raised _ _ _ _ _ _ _ _ (relpath_empty r)).
  - apply truthy_false in Hs. subst sp.
    now rewrite (@bind_run_raised _ _ _ _ _ _ _ _ (relpath_empty ir)).
Qed.

Lemma changes_files_not_log (e : event) :
  Task.changes_files e = true -> Spec.is_log e = false.
Proof. now destruct e. Qed.

Lemma no_change_in_logs (l : list event) :
  forallb Spec.is_log l = true -> existsb Task.changes_files l = false.
Proof.
  intros H. rewrite (existsb_calls _ _ changes_files_not_log).
  now rewrite (calls_logs _ H).
Qed.

Lemma radarr_unstaged :
  ir = r \/ os.isdir_at w (Spec.absSource w sp ir) = false ->
  let run := notify_radarr.import_mode api sp dp ir r removed w in
  world_of run = w /\ existsb Task.changes_files (events_of run) = false.
Proof.
  intros Hu. cbv zeta.
  destruct (PyStr.truthy sp) eqn:Hs; [destruct (PyStr.truthy dp) eqn:Hd|].
  2,3: rewrite radarr_empty_path by auto; now split.
  pose proof (@radarr_import_mode_run api sp dp ir r removed w Hs Hd) as H.
  cbv zeta in H.
  destruct (negb _ || negb _).
  - destruct H as [t ->]. now split.
  - destruct H as (t & logs & Hlogs & ->).
    assert (Hst : os.isdir_at w (Spec.absSource w sp ir)
                  && negb (String.eqb ir r) = false).
    { destruct Hu as [->| ->]; [|reflexivity].
      rewrite String.eqb_refl. apply andb_false_r. }
    rewrite Hst.
    match goal with |- context [notify_radarr.match_and_import ?a ?b ?c ?d w] =>
      destruct (radarr_match_and_import a b c d w) as (_ & Hw & Hc)
    end.
    rewrite world_after, events_after. split; [exact Hw|].
    rewrite existsb_app.
    rewrite (no_change_in_logs (Log Info t :: logs) Hlogs).
    rewrite (existsb_calls _ _ changes_files_not_log), Hc.
    cbn. now destruct (Spec.mismatched _ _ _).
Qed.

Lemma sonarr_unstaged :
  ir = r \/ os.isdir_at w (Spec.absSource w sp ir) = false ->
  let run := notify_sonarr.import_mode api sp dp ir r removed w in
  world_of run = w /\ existsb Task.changes_files (events_of run) = false.
Proof.
  intros Hu. cbv zeta.
  destruct (PyStr.truthy sp) eqn:Hs; [destruct (PyStr.truthy dp) eqn:Hd|].
  2,3: rewrite sonarr_empty_path by auto; now split.
  pose proof (@sonarr_import_mode_run api sp dp ir r removed w Hs Hd) as H.
  cbv zeta in H.
  destruct (negb _ || negb _).
  - destruct H as [t ->]. now split.
  - destruct H as (t & logs & Hlogs & ->).
    assert (Hst : os.isdir_at w (Spec.absSource w sp ir)
                  && negb (String.eqb ir r) = false).
    { destruct Hu as [->| ->]; [|reflexivity].
      rewrite String.eqb_refl. apply andb_false_r. }
    rewrite Hst.
    match goal with |- context [notify_sonarr.match_and_import ?a ?b ?c ?d w] =>
      destruct (sonarr_match_and_import a b c d w) as (_ & Hw & Hc)
    end.
    rewrite world_after, events_after. split; [exact Hw|].
    rewrite existsb_app.
    rewrite (no_change_in_logs (Log Info t :: logs) Hlogs).
    rewrite (existsb_calls _ _ changes_files_not_log), Hc.
    cbn. now destruct (Spec.usable _ && _).
Qed.

End ImportEdges.

(* ------------------------------------------------------------------ *)
(** ** [process_files] *)

Section TaskFilters.
Import Task.

Lemma task_existsb_calls (P : event -> bool) (evs : list event) :
  (forall e, P e = true -> is_log e = false) ->
  existsb P evs = existsb P (calls evs).
Proof.
  intros HP. induction evs as [|e evs IH]; [reflexivity|].
  unfold calls in *. cbn [filter existsb].
  destruct (P e) eqn:Pe.
  - rewrite (HP e Pe). cbn [negb existsb]. now rewrite Pe.
  - destruct (is_log e); cbn [negb existsb]; [exact IH|].
    now rewrite Pe, IH.
Qed.

Lemma fs_call_not_log (e : event) : is_fs_call e = true -> is_log e = false.
Proof. destruct e as [e'| | | | |]; try discriminate. now destruct e'. Qed.

Lemma fs_calls_of_lift (evs : list Host.event) :
  existsb is_fs_call (map Did evs) = existsb changes_files evs.
Proof. induction evs as [|e evs IH]; [reflexivity|]. cbn. now rewrite IH. Qed.

Lemma lift_run {A : Type} (c : Host.M A) (w : Host.world) :
  world_of (lift c w) = Host.world_of (c w)
  /\ events_of (lift c w) = map Did (Host.events_of (c w))
  /\ result_of (lift c w) =
     match Host.result_of (c w) with
     | Host.Returned x => Returned x
     | Host.Raised e => Raised (Plain e)
     end.
Proof. now repeat split. Qed.

Lemma check_file_size_run (e : Unmanic.env) (path minimum : string)
      (w : Host.world) :
  Unmanic.check_file_size_under_max_file_size e path minimum w =
  if os.exists_at w path then
    match Unmanic.parse_size e minimum with
    | Some m =>
        (Returned (negb (m <? Unmanic.st_size e w path)%Z), w, [])
    | None => (Raised InvalidSize, w, [])
    end
  else (Raised (Plain (Host.OSError "stat" path)), w, []).
Proof.
  unfold Unmanic.check_file_size_under_max_file_size, Unmanic.os_stat_size,
    Unmanic.humanfriendly_parse_size, bind.
  destruct (os.exists_at w path); [|reflexivity].
  cbn. destruct (Unmanic.parse_size e minimum) as [m|]; [|reflexivity].
  cbn. now destruct (m <? _)%Z.
Qed.

(** A loop whose body leaves the world alone and makes no call of a kind
    [P] does neither. *)
Lemma for_each_from_quiet {A : Type} (P : event -> bool)
      (body : nat -> A -> M unit) (xs : list A) :
  (forall n x w, world_of (body n x w) = w
                 /\ existsb P (events_of (body n x w)) = false) ->
  forall n w,
    world_of (for_each_from n xs body w) = w
    /\ existsb P (events_of (for_each_from n xs body w)) = false.
Proof.
  intros Hb. induction xs as [|x xs IH]; intros n w; [now split|].
  cbn [for_each_from]. destruct (Hb n x w) as [Hw He].
  destruct (body n x w) as [[res w1] evs] eqn:E.
  cbn [world_of events_of fst snd] in Hw, He. subst w1.
  destruct res as [[]|err].
  - rewrite (@task_bind_run _ _ _ _ _ _ _ _ E).
    rewrite task_world_after, task_events_after, existsb_app, He.
    exact (IH (S n) w).
  - rewrite (@task_bind_run_raised _ _ _ _ _ _ _ _ E). now split.
Qed.

(** Once a loop has raised, the items that follow do not matter. *)
Lemma for_each_from_raised {A : Type} (body : nat -> A -> M unit)
      (pre post : list A) (err : exn) :
  forall n w,
    result_of (for_each_from n pre body w) = Raised err ->
    for_each_from n (pre ++ post)%list body w = for_each_from n pre body w.
Proof.
  induction pre as [|x pre IH]; intros n w; [discriminate|].
  cbn [for_each_from app]. intros H.
  destruct (body n x w) as [[res w1] evs] eqn:E.
  destruct res as [[]|err'].
  - rewrite !(@task_bind_run _ _ _ _ _ _ _ _ E) in *.
    rewrite task_result_after in H. now rewrite (IH _ _ H).
  - now rewrite !(@task_bind_run_raised _ _ _ _ _ _ _ _ E).
Qed.

End TaskFilters.

Section UpdateQuiet.
Import Task.

Lemma radarr_update_quiet (a : notify_radarr_task.api) (abspath : string)
      (rename_files : bool) (w : Host.world) :
  let run := notify_radarr_task.update_mode a abspath rename_files w in
  world_of run = w
  /\ forallb (fun ev => match ev with Did _ => false | _ => true end)
             (calls (events_of run)) = true.
Proof.
  cbv zeta.
  destruct (radarr_update_outline a abspath rename_files w) as (Hw & _ & Hc).
  split; [exact Hw|]. rewrite Hc.
  destruct (notify_radarr_task.lookup_movie_answer a _) as [results|];
    [|reflexivity].
  destruct (Notions.first_id results); [|reflexivity].
  now destruct (Notions.accepted _ && rename_files).
Qed.

Lemma sonarr_update_quiet (a : notify_sonarr_task.api) (dest_path : string)
      (rename_files : bool) (w : Host.world) :
  let run := notify_sonarr_task.update_mode a dest_path rename_files w in
  world_of run = w
  /\ forallb (fun ev => match ev with Did _ => false | _ => true end)
             (calls (events_of run)) = true.
Proof.
  cbv zeta.
  destruct (sonarr_update_outline a dest_path rename_files w) as (Hw & _ & Hc).
  split; [exact Hw|]. rewrite Hc.
  destruct (notify_sonarr_task.get_parsed_title_answer a _) as [data|];
    [|reflexivity].
  destruct (Notions.series_id data) as [i|]; [|reflexivity].
  destruct (Notions.accepted _ && rename_files); [|reflexivity].
  destruct (notify_sonarr_task.get_episode_file_answer a i) as [l|];
    [|reflexivity].
  now destruct (Notions.all_ids l).
Qed.

(** Calls that are no call of [import_mode] change no file. *)
Lemma quiet_no_fs_call (evs : list event) :
  forallb (fun ev => match ev with Did _ => false | _ => true end)
          (calls evs) = true ->
  existsb is_fs_call evs = false.
Proof.
  intros H. rewrite (task_existsb_calls _ _ fs_call_not_log).
  induction (calls evs) as [|ev l IH]; [reflexivity|].
  cbn in H. apply andb_prop in H as [H1 H2].
  cbn. rewrite (IH H2). now destruct ev.
Qed.

(** They are not calls of [import_mode] other than logging either. *)
Lemma quiet_only_logs (evs : list event) :
  forallb (fun ev => match ev with Did _ => false | _ => true end)
          (calls evs) = true ->
  forallb (fun ev => match ev with Did e' => Spec.is_log e' | _ => true end)
          evs = true.
Proof.
  induction evs as [|ev l IH]; [reflexivity|].
  unfold calls in *. cbn [filter forallb].
  destruct ev as [e'| | | | |]; cbn [is_log negb forallb]; try (intros H; now apply andb_prop in H as [_ H]; rewrite IH).
  destruct e'; cbn [negb forallb Spec.is_log andb]; try discriminate.
  exact IH.
Qed.

End UpdateQuiet.

Section ProcessFiles.
Import Task.
Variables (e : Unmanic.env)
          (RadarrAPI : string -> string -> nat -> notify_radarr_task.api)
          (SonarrAPI : string -> string -> nat -> notify_sonarr_task.api)
          (settings : Unmanic.settings) (source_file : option string)
          (host_url api_key : string).


Lemma effective_root_without_delay :
  Unmanic.delay_import settings = false
  \/ Unmanic.intermediate_root settings = "" ->
  Unmanic.effective_intermediate_root settings = Unmanic.import_root settings.
Proof.
  unfold Unmanic.effective_intermediate_root.
  intros [-> | ->]; [reflexivity|]. now rewrite andb_false_r.
Qed.

(** The size test of the loop body reads, and does nothing else. *)
Lemma size_gate_run (f : string) (w : Host.world) :
  exists small,
    (if negb (Unmanic.delay_import settings)
     then Unmanic.check_file_size_under_max_file_size e f
            (Unmanic.minimum_file_size settings)
     else ret false) w = (small, w, []).
Proof.
  destruct (negb _); [|now eexists].
  rewrite check_file_size_run.
  destruct (os.exists_at w f); [|now eexists].
  destruct (Unmanic.parse_size e _); now eexists.
Qed.

Lemma with_source_unstaged {A : Type} (f : string -> Host.M A)
      (w : Host.world) :
  (forall p, Host.world_of (f p w) = w
             /\ existsb changes_files (Host.events_of (f p w)) = false) ->
  Host.world_of (with_source_path source_file f w) = w
  /\ existsb changes_files (Host.events_of (with_source_path source_file f w))
     = false.
Proof.
  intros H. unfold with_source_path.
  destruct source_file as [p|]; [apply H|now split].
Qed.

Lemma radarr_without_delay (files : list string) (w : Host.world) :
  Unmanic.delay_import settings = false
  \/ Unmanic.intermediate_root settings = "" ->
  world_of (notify_radarr_task.process_files e RadarrAPI settings source_file files
    host_url api_key w) = w
  /\ existsb is_fs_call (events_of (notify_radarr_task.process_files e RadarrAPI settings source_file files
    host_url api_key w)) = false.
Proof.
  intros Hd. unfold notify_radarr_task.process_files.
  cbv zeta. rewrite (effective_root_without_delay Hd).
  apply for_each_from_quiet. intros n f w'.
  loop_body_cases settings.
  - destruct (radarr_update_quiet (RadarrAPI host_url api_key n) f
                (Unmanic.rename_files settings) w') as [Hw Hq].
    split; [exact Hw|]. now apply quiet_no_fs_call.
  - destruct (size_gate_run f w') as (small & Hs).
    destruct small as [[|]|err].
    + rewrite (@task_bind_run _ _ _ _ _ _ _ _ Hs). now split.
    + rewrite (@task_bind_run _ _ _ _ _ _ _ _ Hs).
      unfold log.debug, logger.debug. rewrite task_bind_log.
      rewrite !task_world_after, !task_events_after.
      cbn [app existsb is_fs_call changes_files orb].
      match goal with |- context [lift ?c w'] =>
        destruct (lift_run c w') as (-> & -> & _) end.
      rewrite fs_calls_of_lift.
      apply with_source_unstaged. intros p.
      apply radarr_unstaged. now left.
    + rewrite (@task_bind_run_raised _ _ _ _ _ _ _ _ Hs). now split.
  - now split.
Qed.

Lemma sonarr_without_delay (files : list string) (w : Host.world) :
  Unmanic.delay_import settings = false
  \/ Unmanic.intermediate_root settings = "" ->
  world_of (notify_sonarr_task.process_files e SonarrAPI settings source_file files
    host_url api_key w) = w
  /\ existsb is_fs_call (events_of (notify_sonarr_task.process_files e SonarrAPI settings source_file files
    host_url api_key w)) = false.
Proof.
  intros Hd. unfold notify_sonarr_task.process_files.
  cbv zeta. rewrite (effective_root_without_delay Hd).
  apply for_each_from_quiet. intros n f w'.
  loop_body_cases settings.
  - destruct (sonarr_update_quiet (SonarrAPI host_url api_key n) f
                (Unmanic.rename_files settings) w') as [Hw Hq].
    split; [exact Hw|]. now apply quiet_no_fs_call.
  - destruct (size_gate_run f w') as (small & Hs).
    destruct small as [[|]|err].
    + rewrite (@task_bind_run _ _ _ _ _ _ _ _ Hs). now split.
    + rewrite (@task_bind_run _ _ _ _ _ _ _ _ Hs).
      unfold log.debug, logger.debug. rewrite task_bind_log.
      rewrite !task_world_after, !task_events_after.
      cbn [app existsb is_fs_call changes_files orb].
      match goal with |- context [lift ?c w'] =>
        destruct (lift_run c w') as (-> & -> & _) end.
      rewrite fs_calls_of_lift.
      apply with_source_unstaged. intros p.
      apply sonarr_unstaged. now left.
    + rewrite (@task_bind_run_raised _ _ _ _ _ _ _ _ Hs). now split.
  - now split.
Qed.

(** Files no larger than the minimum are passed over. *)
Lemma radarr_small_files (m : Z) (files : list string) (w : Host.world) :
  Unmanic.mode settings = "import_mode" ->
  Unmanic.delay_import settings = false ->
  Unmanic.parse_size e (Unmanic.minimum_file_size settings) = Some m ->
  (forall f, In f files ->
             os.exists_at w f = true /\ (Unmanic.st_size e w f <= m)%Z) ->
  notify_radarr_task.process_files e RadarrAPI settings source_file files
    host_url api_key w =
  (Returned tt, w,
   map (fun _ => Did (Host.Log Host.Info
          "Ignoring file as it is under configured minimum size file: '%s'"))
       files).
Proof.
  intros Hm Hd Hp. unfold notify_radarr_task.process_files. cbv zeta. rewrite Hm, Hd.
  cbn [String.eqb Ascii.eqb Bool.eqb negb].
  generalize 0. induction files as [|f fs IH]; intros n Hf; [reflexivity|].
  cbn [for_each_from map].
  destruct (Hf f (or_introl eq_refl)) as [Hex Hsz].
  pose proof (check_file_size_run e f (Unmanic.minimum_file_size settings) w)
    as Hc.
  rewrite Hex, Hp in Hc.
  assert (Hlt : (m <? Unmanic.st_size e w f)%Z = false)
    by (apply Z.ltb_ge; exact Hsz).
  rewrite Hlt in Hc. cbn [negb] in Hc.
  match goal with |- bind (bind ?c ?k) ?k2 w = _ =>
    assert (Hb : bind c k w =
                 (Returned tt, w,
                  [Did (Host.Log Host.Info
                     "Ignoring file as it is under configured minimum size file: '%s'")]))
      by (now rewrite (@task_bind_run _ _ _ _ _ _ _ _ Hc))
  end.
  rewrite (@task_bind_run _ _ _ _ _ _ _ _ Hb).
  rewrite IH by (intros g Hg; apply Hf; now right).
  reflexivity.
Qed.

Lemma sonarr_small_files (m : Z) (files : list string) (w : Host.world) :
  Unmanic.mode settings = "import_mode" ->
  Unmanic.delay_import settings = false ->
  Unmanic.parse_size e (Unmanic.minimum_file_size settings) = Some m ->
  (forall f, In f files ->
             os.exists_at w f = true /\ (Unmanic.st_size e w f <= m)%Z) ->
  notify_sonarr_task.process_files e SonarrAPI settings source_file files
    host_url api_key w =
  (Returned tt, w,
   map (fun _ => Did (Host.Log Host.Info
          "Ignoring file as it is under configured minimum size file: '%s'"))
       files).
Proof.
  intros Hm Hd Hp. unfold notify_sonarr_task.process_files. cbv zeta. rewrite Hm, Hd.
  cbn [String.eqb Ascii.eqb Bool.eqb negb].
  generalize 0. induction files as [|f fs IH]; intros n Hf; [reflexivity|].
  cbn [for_each_from map].
  destruct (Hf f (or_introl eq_refl)) as [Hex Hsz].
  pose proof (check_file_size_run e f (Unmanic.minimum_file_size settings) w)
    as Hc.
  rewrite Hex, Hp in Hc.
  assert (Hlt : (m <? Unmanic.st_size e w f)%Z = false)
    by (apply Z.ltb_ge; exact Hsz).
  rewrite Hlt in Hc. cbn [negb] in Hc.
  match goal with |- bind (bind ?c ?k) ?k2 w = _ =>
    assert (Hb : bind c k w =
                 (Returned tt, w,
                  [Did (Host.Log Host.Info
                     "Ignoring file as it is under configured minimum size file: '%s'")]))
      by (now rewrite (@task_bind_run _ _ _ _ _ _ _ _ Hc))
  end.
  rewrite (@task_bind_run _ _ _ _ _ _ _ _ Hb).
  rewrite IH by (intros g Hg; apply Hf; now right).
  reflexivity.
Qed.

(** A loop all of whose bodies make only calls of a kind [P] makes only
    such calls. *)
Lemma for_each_from_all {A : Type} (P : event -> bool)
      (body : nat -> A -> M unit) (xs : list A) :
  (forall n x w, forallb P (events_of (body n x w)) = true) ->
  forall n w, forallb P (events_of (for_each_from n xs body w)) = true.
Proof.
  intros Hb. induction xs as [|x xs IH]; intros n w; [reflexivity|].
  cbn [for_each_from]. specialize (Hb n x w).
  destruct (body n x w) as [[res w1] evs] eqn:E.
  cbn [events_of snd] in Hb.
  destruct res as [[]|err].
  - rewrite (@task_bind_run _ _ _ _ _ _ _ _ E).
    rewrite task_events_after, forallb_app, Hb. apply IH.
  - now rewrite (@task_bind_run_raised _ _ _ _ _ _ _ _ E).
Qed.

Lemma for_each_from_same_world {A : Type} (body : nat -> A -> M unit)
      (xs : list A) :
  (forall n x w, world_of (body n x w) = w) ->
  forall n w, world_of (for_each_from n xs body w) = w.
Proof.
  intros Hb. induction xs as [|x xs IH]; intros n w; [reflexivity|].
  cbn [for_each_from]. specialize (Hb n x w).
  destruct (body n x w) as [[res w1] evs] eqn:E.
  cbn [world_of fst snd] in Hb. subst w1.
  destruct res as [[]|err].
  - rewrite (@task_bind_run _ _ _ _ _ _ _ _ E). rewrite task_world_after.
    apply IH.
  - now rewrite (@task_bind_run_raised _ _ _ _ _ _ _ _ E).
Qed.

Lemma for_each_from_nothing {A : Type} (xs : list A) :
  forall n w, for_each_from n xs (fun _ _ => ret tt) w = (Returned tt, w, []).
Proof.
  induction xs as [|x xs IH]; intros n w; [reflexivity|].
  cbn [for_each_from]. rewrite task_bind_ret. apply IH.
Qed.

Lemma import_calls_of_lift (evs : list Host.event) :
  forallb Notions.is_import_call (map Did evs) = true.
Proof. induction evs as [|x evs IH]; [reflexivity|exact IH]. Qed.

Lemma radarr_modes (files : list string) (w : Host.world) :
  (Unmanic.mode settings = "update_mode" ->
   world_of (notify_radarr_task.process_files e RadarrAPI settings source_file files
    host_url api_key w) = w
   /\ forallb Notions.is_update_call (events_of (notify_radarr_task.process_files e RadarrAPI settings source_file files
    host_url api_key w)) = true)
  /\ (Unmanic.mode settings = "import_mode" ->
      forallb Notions.is_import_call (events_of (notify_radarr_task.process_files e RadarrAPI settings source_file files
    host_url api_key w)) = true)
  /\ (Unmanic.mode settings <> "update_mode" ->
      Unmanic.mode settings <> "import_mode" ->
      notify_radarr_task.process_files e RadarrAPI settings source_file files
    host_url api_key w = (Returned tt, w, [])).
Proof.
  unfold notify_radarr_task.process_files. cbv zeta.
  split; [|split].
  - intros ->. cbn [String.eqb Ascii.eqb Bool.eqb]. split.
    + apply for_each_from_same_world. intros n f w'.
      apply (radarr_update_quiet (RadarrAPI host_url api_key n) f
               (Unmanic.rename_files settings) w').
    + apply for_each_from_all. intros n f w'.
      apply quiet_only_logs.
      apply (radarr_update_quiet (RadarrAPI host_url api_key n) f
               (Unmanic.rename_files settings) w').
  - intros ->. cbn [String.eqb Ascii.eqb Bool.eqb].
    apply for_each_from_all. intros n f w'.
    destruct (size_gate_run f w') as (small & Hs).
    destruct small as [[|]|err].
    + now rewrite (@task_bind_run _ _ _ _ _ _ _ _ Hs).
    + rewrite (@task_bind_run _ _ _ _ _ _ _ _ Hs).
      unfold log.debug, logger.debug. rewrite task_bind_log.
      rewrite !task_events_after. cbn [app forallb Notions.is_import_call andb].
      match goal with |- context [lift ?c w'] =>
        destruct (lift_run c w') as (_ & -> & _) end.
      apply import_calls_of_lift.
    + now rewrite (@task_bind_run_raised _ _ _ _ _ _ _ _ Hs).
  - intros H1 H2. apply String.eqb_neq in H1, H2. rewrite H1, H2.
    apply for_each_from_nothing.
Qed.

Lemma sonarr_modes (files : list string) (w : Host.world) :
  (Unmanic.mode settings = "update_mode" ->
   world_of (notify_sonarr_task.process_files e SonarrAPI settings source_file files
    host_url api_key w) = w
   /\ forallb Notions.is_update_call (events_of (notify_sonarr_task.process_files e SonarrAPI settings source_file files
    host_url api_key w)) = true)
  /\ (Unmanic.mode settings = "import_mode" ->
      forallb Notions.is_import_call (events_of (notify_sonarr_task.process_files e SonarrAPI settings source_file files
    host_url api_key w)) = true)
  /\ (Unmanic.mode settings <> "update_mode" ->
      Unmanic.mode settings <> "import_mode" ->
      notify_sonarr_task.process_files e SonarrAPI settings source_file files
    host_url api_key w = (Returned tt, w, [])).
Proof.
  unfold notify_sonarr_task.process_files. cbv zeta.
  split; [|split].
  - intros ->. cbn [String.eqb Ascii.eqb Bool.eqb]. split.
    + apply for_each_from_same_world. intros n f w'.
      apply (sonarr_update_quiet (SonarrAPI host_url api_key n) f
               (Unmanic.rename_files settings) w').
    + apply for_each_from_all. intros n f w'.
      apply quiet_only_logs.
      apply (sonarr_update_quiet (SonarrAPI host_url api_key n) f
               (Unmanic.rename_files settings) w').
  - intros ->. cbn [String.eqb Ascii.eqb Bool.eqb].
    apply for_each_from_all. intros n f w'.
    destruct (size_gate_run f w') as (small & Hs).
    destruct small as [[|]|err].
    + now rewrite (@task_bind_run _ _ _ _ _ _ _ _ Hs).
    + rewrite (@task_bind_run _ _ _ _ _ _ _ _ Hs).
      unfold log.debug, logger.debug. rewrite task_bind_log.
      rewrite !task_events_after. cbn [app forallb Notions.is_import_call andb].
      match goal with |- context [lift ?c w'] =>
        destruct (lift_run c w') as (_ & -> & _) end.
      apply import_calls_of_lift.
    + now rewrite (@task_bind_run_raised _ _ _ _ _ _ _ _ Hs).
  - intros H1 H2. apply String.eqb_neq in H1, H2. rewrite H1, H2.
    apply for_each_from_nothing.
Qed.

End ProcessFiles.

(* ------------------------------------------------------------------ *)
(** ** What the update mode requests, and what it lets escape *)

(** X1: the requests of radarr's [update_mode], in order: the lookup of the
    file's base name; then, when a lookup result has a non-zero id, the
    refresh of the first such movie; then, when the refresh was answered
    with a dictionary without a message and renaming is on, a pause of 3
    seconds and the rename of that same movie.  The file system is left
    alone. *)
Theorem radarr_update_requests
        (a : notify_radarr_task.api) (abspath : string) (rename_files : bool)
        (w : Host.world) :
  let term := OsPath.basename abspath in
  let run := notify_radarr_task.update_mode a abspath rename_files w in
  Task.world_of run = w
  /\ Task.calls (Task.events_of run) =
     Task.LookupMovie term ::
     match notify_radarr_task.lookup_movie_answer a term with
     | Task.Fails _ => []
     | Task.Answers results =>
         match Notions.first_id results with
         | None => []
         | Some movie_id =>
             Task.Command "RefreshMovie" [("movieIds", Task.Ints [movie_id])] ::
             (if Notions.accepted
                   (notify_radarr_task.post_command_answer a "RefreshMovie")
                 && rename_files
              then [Task.Sleep 3;
                    Task.Command "RenameMovie"
                      [("movieIds", Task.Ints [movie_id])]]
              else [])
         end
     end.
Proof.
  cbv zeta.
  destruct (radarr_update_outline a abspath rename_files w) as (Hw & _ & Hc).
  split; [exact Hw|exact Hc].
Qed.

(** X2: what radarr's [update_mode] lets escape.  An exception of the pyarr
    client escapes exactly when the lookup raised it: those of the two
    commands are logged and swallowed.  Every exception that escapes is one
    the client raised, or the [AttributeError] of a refresh answer that is
    no dictionary. *)
Theorem radarr_update_errors
        (a : notify_radarr_task.api) (abspath : string) (rename_files : bool)
        (w : Host.world) :
  let term := OsPath.basename abspath in
  let run := notify_radarr_task.update_mode a abspath rename_files w in
  (forall p,
      Task.result_of run = Task.Raised (Task.PyarrError p) <->
      notify_radarr_task.lookup_movie_answer a term =
      Task.Fails (Task.PyarrError p))
  /\ (forall err,
        Task.result_of run = Task.Raised err ->
        notify_radarr_task.lookup_movie_answer a term = Task.Fails err
        \/ notify_radarr_task.post_command_answer a "RefreshMovie" =
           Task.Fails err
        \/ notify_radarr_task.post_command_answer a "RenameMovie" =
           Task.Fails err
        \/ (err = Task.AttributeError "get"
            /\ exists r,
                notify_radarr_task.post_command_answer a "RefreshMovie" =
                Task.Answers r /\ Api.is_dict r = false)).
Proof.
  cbv zeta.
  destruct (radarr_update_outline a abspath rename_files w) as (_ & Hr & _).
  rewrite Hr. clear Hr.
  destruct (notify_radarr_task.lookup_movie_answer a _) as [results|e0].
  2:{ split; [intros p; split; congruence|]. intros err [= <-]. now left. }
  destruct (Notions.first_id results).
  2:{ split; [intros p; split; discriminate|]. discriminate. }
  destruct (notify_radarr_task.post_command_answer a "RefreshMovie")
    as [[m| |]|e1].
  - destruct (negb (PyStr.truthy_opt m) && rename_files).
    + destruct (notify_radarr_task.post_command_answer a "RenameMovie")
        as [r2|e2].
      * split; [intros p; split; discriminate|]. discriminate.
      * destruct e2; (split; [intros p; split; discriminate|]);
          try discriminate; intros err [= <-]; auto.
    + split; [intros p; split; discriminate|]. discriminate.
  - split; [intros p; split; discriminate|].
    intros err [= <-]. do 3 right. split; [reflexivity|]. now eexists.
  - split; [intros p; split; discriminate|].
    intros err [= <-]. do 3 right. split; [reflexivity|]. now eexists.
  - destruct e1; (split; [intros p; split; discriminate|]);
      try discriminate; intros err [= <-]; auto.
Qed.

(** X3: the requests of sonarr's [update_mode], in order: the parse of the
    file's base name; then, when the parsed title names a series with a
    non-zero id, the rescan of that series; then, when the rescan was
    answered with a dictionary without a message and renaming is on, a
    pause of 10 seconds and the listing of the series' episode files; and
    the rename of those files only when the listing was answered and every
    episode file has an id.  The file system is left alone. *)
Theorem sonarr_update_requests
        (a : notify_sonarr_task.api) (dest_path : string) (rename_files : bool)
        (w : Host.world) :
  let term := OsPath.basename dest_path in
  let run := notify_sonarr_task.update_mode a dest_path rename_files w in
  Task.world_of run = w
  /\ Task.calls (Task.events_of run) =
     Task.GetParsedTitle term ::
     match notify_sonarr_task.get_parsed_title_answer a term with
     | Task.Fails _ => []
     | Task.Answers episode_data =>
         match Notions.series_id episode_data with
         | None => []
         | Some series_id =>
             Task.Command "RescanSeries" [("seriesId", Task.Int series_id)] ::
             (if Notions.accepted
                   (notify_sonarr_task.post_command_answer a "RescanSeries")
                 && rename_files
              then
                Task.Sleep 10 :: Task.GetEpisodeFile series_id ::
                match notify_sonarr_task.get_episode_file_answer a series_id with
                | Task.Fails _ => []
                | Task.Answers rename_list =>
                    match Notions.all_ids rename_list with
                    | Some file_ids =>
                        [Task.Command "RenameFiles"
                           [("seriesId", Task.Int series_id);
                            ("files", Task.Ints file_ids)]]
                    | None => []
                    end
                end
              else [])
         end
     end.
Proof.
  cbv zeta.
  destruct (sonarr_update_outline a dest_path rename_files w) as (Hw & _ & Hc).
  split; [exact Hw|exact Hc].
Qed.

(** X4: what sonarr's [update_mode] lets escape.  An exception of the pyarr
    client escapes exactly when the parse of the title raised it.  Nothing
    escapes from the rename stage: once the pause of 10 seconds has begun
    the function returns normally, whatever the client does.  Every
    exception that escapes was raised by the parse of the title or by the
    rescan, or is the [AttributeError] of a rescan answer that is no
    dictionary. *)
Theorem sonarr_update_errors
        (a : notify_sonarr_task.api) (dest_path : string) (rename_files : bool)
        (w : Host.world) :
  let term := OsPath.basename dest_path in
  let run := notify_sonarr_task.update_mode a dest_path rename_files w in
  (forall p,
      Task.result_of run = Task.Raised (Task.PyarrError p) <->
      notify_sonarr_task.get_parsed_title_answer a term =
      Task.Fails (Task.PyarrError p))
  /\ (In (Task.Sleep 10) (Task.events_of run) ->
      Task.result_of run = Task.Returned tt)
  /\ (forall err,
        Task.result_of run = Task.Raised err ->
        notify_sonarr_task.get_parsed_title_answer a term = Task.Fails err
        \/ notify_sonarr_task.post_command_answer a "RescanSeries" =
           Task.Fails err
        \/ (err = Task.AttributeError "get"
            /\ exists r,
                notify_sonarr_task.post_command_answer a "RescanSeries" =
                Task.Answers r /\ Api.is_dict r = false)).
Proof.
  cbv zeta.
  destruct (sonarr_update_outline a dest_path rename_files w) as (_ & Hr & Hc).
  assert (Hin : In (Task.Sleep 10)
                  (Task.events_of
                     (notify_sonarr_task.update_mode a dest_path rename_files w)) ->
                In (Task.Sleep 10)
                  (Task.calls
                     (Task.events_of
                        (notify_sonarr_task.update_mode a dest_path
                           rename_files w)))).
  { intros H. unfold Task.calls. apply filter_In. now split. }
  rewrite Hr, Hc in *. clear Hr Hc.
  destruct (notify_sonarr_task.get_parsed_title_answer a _) as [data|e0].
  2:{ split; [intros p; split; congruence|]. split.
      - intros H. apply Hin in H. destruct H as [H|[]]. discriminate.
      - intros err [= <-]. now left. }
  destruct (Notions.series_id data) as [sid|].
  2:{ split; [intros p; split; discriminate|]. split; [reflexivity|].
      discriminate. }
  destruct (notify_sonarr_task.post_command_answer a "RescanSeries")
    as [[m| |]|e1].
  - split; [intros p; split; discriminate|]. split; [reflexivity|].
    discriminate.
  - split; [intros p; split; discriminate|]. split.
    + intros H. apply Hin in H. cbn in H.
      destruct H as [H|[H|[]]]; discriminate.
    + intros err [= <-]. do 2 right. split; [reflexivity|]. now eexists.
  - split; [intros p; split; discriminate|]. split.
    + intros H. apply Hin in H. cbn in H.
      destruct H as [H|[H|[]]]; discriminate.
    + intros err [= <-]. do 2 right. split; [reflexivity|]. now eexists.
  - assert (Hno : In (Task.Sleep 10)
                    [Task.GetParsedTitle (OsPath.basename dest_path);
                     Task.Command "RescanSeries"
                       [("seriesId", Task.Int sid)]] -> False).
    { intros [H|[H|[]]]; discriminate. }
    destruct e1; (split; [intros p; split; discriminate|]);
      (split; [intros H; apply Hin in H; cbn in H; try (now elim (Hno H));
               try reflexivity|]);
      try discriminate; intros err [= <-]; auto.
Qed.

Lemma sonarr_update_errors_witness :
  Task.result_of
    (notify_sonarr_task.update_mode (Cases.sonarr0 "" "" 0)
       "/tv/Show/e1.mkv" true Scenario.w0) = Task.Returned tt.
Proof.
  destruct (@sonarr_update_errors (Cases.sonarr0 "" "" 0) "/tv/Show/e1.mkv"
              true Scenario.w0) as (_ & H & _).
  apply H. vm_compute. tauto.
Defined.

(* ------------------------------------------------------------------ *)
(** ** The edges of [import_mode] *)

Section NoValueError.
Import Host.
Variables (api : Api.t) (sp dp ir r : string) (removed : bool) (w : world).
Hypotheses (Hs : PyStr.truthy sp = true) (Hd : PyStr.truthy dp = true).

Lemma radarr_never_value_error (msg : string) :
  result_of (notify_radarr.import_mode api sp dp ir r removed w)
  <> Raised (ValueError msg).
Proof.
  pose proof (@radarr_summary api sp dp ir r removed w Hs Hd) as H.
  cbv zeta in H. intros E.
  destruct (negb _ || negb _).
  - destruct H as (H & _). congruence.
  - destruct (_ && notify_radarr.delay _ _ _).
    + destruct H as (_ & _ & _ & H). destruct (H _ E) as (c & p & [=]).
    + match type of H with
      | match ?x with Returned _ => _ | Raised _ => _ end =>
          destruct x as [[]|e0]
      end.
      * destruct H as [H _]. rewrite H in E.
        now destruct (Spec.mismatched _ _ _).
      * destruct H as ((c & p & ->) & H & _). congruence.
Qed.

Lemma sonarr_never_value_error (msg : string) :
  result_of (notify_sonarr.import_mode api sp dp ir r removed w)
  <> Raised (ValueError msg).
Proof.
  pose proof (@sonarr_summary api sp dp ir r removed w Hs Hd) as H.
  cbv zeta in H. intros E.
  destruct (negb _ || negb _).
  - destruct H as (H & _). congruence.
  - destruct (_ && (_ >? 0)%Z).
    + destruct H as (_ & _ & _ & H). destruct (H _ E) as (c & p & [=]).
    + match type of H with
      | match ?x with Returned _ => _ | Raised _ => _ end =>
          destruct x as [[]|e0]
      end.
      * destruct H as [H _]. congruence.
      * destruct H as ((c & p & ->) & H & _). congruence.
Qed.

End NoValueError.

Lemma truthy_empty (s : string) : PyStr.truthy s = false <-> s = "".
Proof. destruct s; split; intros H; try reflexivity; discriminate. Qed.

(** X5: [import_mode] raises the [ValueError] of [os.path.relpath] exactly
    when the source path or the destination path is empty, and then before
    anything else: no logging, no file system call, no request. *)
Theorem import_mode_empty_path
        (api : Api.t) (sp dp ir r : string) (removed : bool) (w : Host.world) :
  ((sp = "" \/ dp = "") <->
   notify_radarr.import_mode api sp dp ir r removed w =
   (Host.Raised (Host.ValueError "no path specified"), w, []))
  /\ ((sp = "" \/ dp = "") <->
      notify_sonarr.import_mode api sp dp ir r removed w =
      (Host.Raised (Host.ValueError "no path specified"), w, []))
  /\ (forall msg,
        Host.result_of (notify_radarr.import_mode api sp dp ir r removed w)
        = Host.Raised (Host.ValueError msg)
        \/ Host.result_of (notify_sonarr.import_mode api sp dp ir r removed w)
           = Host.Raised (Host.ValueError msg) ->
        sp = "" \/ dp = "").
Proof.
  assert (Hc : forall msg,
             Host.result_of (notify_radarr.import_mode api sp dp ir r removed w)
             = Host.Raised (Host.ValueError msg)
             \/ Host.result_of (notify_sonarr.import_mode api sp dp ir r removed w)
                = Host.Raised (Host.ValueError msg) ->
             sp = "" \/ dp = "").
  { intros msg H.
    destruct (PyStr.truthy sp) eqn:Hs; [|left; now apply truthy_empty].
    destruct (PyStr.truthy dp) eqn:Hd; [|right; now apply truthy_empty].
    exfalso. destruct H as [H|H].
    - exact (@radarr_never_value_error api sp dp ir r removed w Hs Hd msg H).
    - exact (@sonarr_never_value_error api sp dp ir r removed w Hs Hd msg H). }
  split; [|split; [|exact Hc]].
  - split.
    + intros H. apply radarr_empty_path.
      destruct H as [->| ->]; [now left|now right].
    + intros H. apply (Hc "no path specified"). left. now rewrite H.
  - split.
    + intros H. apply sonarr_empty_path.
      destruct H as [->| ->]; [now left|now right].
    + intros H. apply (Hc "no path specified"). right. now rewrite H.
Qed.

(** X6: outside a staged delivery, that is when the intermediate root is
    the import root or the source is no directory, [import_mode] changes
    nothing on disk: no rename, no chmod, and the file system is as
    before. *)
Theorem import_mode_unstaged
        (api : Api.t) (sp dp ir r : string) (removed : bool) (w : Host.world) :
  ir = r \/ os.isdir_at w (Spec.absSource w sp ir) = false ->
  let radarr := notify_radarr.import_mode api sp dp ir r removed w in
  let sonarr := notify_sonarr.import_mode api sp dp ir r removed w in
  Host.world_of radarr = w
  /\ existsb Task.changes_files (Host.events_of radarr) = false
  /\ Host.world_of sonarr = w
  /\ existsb Task.changes_files (Host.events_of sonarr) = false.
Proof.
  intros H. cbv zeta.
  destruct (@radarr_unstaged api sp dp ir r removed w H) as [H1 H2].
  destruct (@sonarr_unstaged api sp dp ir r removed w H) as [H3 H4].
  auto.
Qed.

Lemma import_mode_unstaged_witness :
  let radarr := notify_radarr.import_mode (Scenario.api_of Scenario.show_queue)
                  "/import/Film.mkv" "/import/Film.mkv" "/import" "/import"
                  false Scenario.w0 in
  let sonarr := notify_sonarr.import_mode (Scenario.api_of Scenario.show_queue)
                  "/import/Film.mkv" "/import/Film.mkv" "/import" "/import"
                  false Scenario.w0 in
  Host.world_of radarr = Scenario.w0
  /\ existsb Task.changes_files (Host.events_of radarr) = false
  /\ Host.world_of sonarr = Scenario.w0
  /\ existsb Task.changes_files (Host.events_of sonarr) = false.
Proof.
  apply (@import_mode_unstaged (Scenario.api_of Scenario.show_queue)
           "/import/Film.mkv" "/import/Film.mkv" "/import" "/import" false
           Scenario.w0).
  left. reflexivity.
Defined.

Section MissingFile.
Import Host.

Lemma rename_missing (w : world) (src dst : string) :
  os.exists_at w src = false -> os.rename_at w src dst = None.
Proof.
  unfold os.exists_at, os.rename_at, Fs.rename.
  now destruct (Fs.lookup (root w) (os.resolve w src)).
Qed.

Lemma hide_missing (dp : string) (w : world) (logs : list event) :
  forallb Spec.is_log logs = true ->
  os.exists_at w dp = false ->
  os.exists_at w (dp ++ ".tmp") = false ->
  let run := Spec.after logs (hide_file dp w) in
  result_of run = Raised (OSError "rename" dp)
  /\ world_of run = w
  /\ Spec.calls (events_of run) = [Rename dp (dp ++ ".tmp")].
Proof.
  intros Hl H1 H2. cbv zeta.
  destruct (hide_file_run dp w) as (lg & Hlg & H).
  rewrite H2, (@rename_missing w dp (dp ++ ".tmp") H1) in H. rewrite H.
  rewrite result_after, world_after, events_after, calls_app,
    (calls_logs _ Hl).
  repeat split. unfold Spec.calls. cbn. now rewrite Hlg.
Qed.

End MissingFile.

(** X7: hiding a file that is not there.  When a delivery is delayed and
    neither the delivered path nor its hidden name exists, the one call of
    [import_mode] is the hiding rename; it fails, the [OSError] escapes and
    the file system is as before. *)
Theorem hiding_a_missing_file
        (api : Api.t) (sp dp ir r : string) (removed : bool) (w : Host.world) :
  os.exists_at w dp = false ->
  os.exists_at w (dp ++ ".tmp") = false ->
  (Spec.delayed_delivery w sp dp ir r (Spec.absDest w dp r) removed = true ->
   let run := notify_radarr.import_mode api sp dp ir r removed w in
   Host.result_of run = Host.Raised (Host.OSError "rename" dp)
   /\ Host.world_of run = w
   /\ Spec.calls (Host.events_of run) = [Host.Rename dp (dp ++ ".tmp")])
  /\ (Spec.delayed_delivery w sp dp ir r (Spec.absDest_sonarr w dp r) removed
      = true ->
      let run := notify_sonarr.import_mode api sp dp ir r removed w in
      Host.result_of run = Host.Raised (Host.OSError "rename" dp)
      /\ Host.world_of run = w
      /\ Spec.calls (Host.events_of run) = [Host.Rename dp (dp ++ ".tmp")]).
Proof.
  intros H1 H2. split.
  - intros H. apply delayed_delivery_unfold in H
      as (Hs & Hd & Hc1 & Hc2 & Hdir & Hne & Hrem).
    pose proof (@radarr_import_mode_run api sp dp ir r removed w Hs Hd) as H.
    cbv zeta in H. rewrite Hc1, Hc2, Hdir, Hne in H. cbn [negb orb andb] in H.
    destruct H as (t & logs & Hlogs & ->).
    rewrite !count_is_length, radarr_delay_remaining in *.
    rewrite <- !count_is_length in *. rewrite Hrem.
    now apply (@hide_missing dp w (Host.Log Host.Info t :: logs)).
  - intros H. apply delayed_delivery_unfold in H
      as (Hs & Hd & Hc1 & Hc2 & Hdir & Hne & Hrem).
    pose proof (@sonarr_import_mode_run api sp dp ir r removed w Hs Hd) as H.
    cbv zeta in H. rewrite Hc1, Hc2, Hdir, Hne in H. cbn [negb orb andb] in H.
    destruct H as (t & logs & Hlogs & ->).
    rewrite sonarr_files_remaining, Hrem.
    now apply (@hide_missing dp w (Host.Log Host.Info t :: logs)).
Qed.

Lemma hiding_a_missing_file_witness :
  let run := notify_radarr.import_mode (Scenario.api_of [])
               "/inter/Show/b.mkv" "/import/Show/b.mkv" "/inter" "/import"
               false Scenario.w0 in
  Host.result_of run = Host.Raised (Host.OSError "rename" "/import/Show/b.mkv")
  /\ Host.world_of run = Scenario.w0
  /\ Spec.calls (Host.events_of run) =
     [Host.Rename "/import/Show/b.mkv" "/import/Show/b.mkv.tmp"].
Proof.
  destruct (@hiding_a_missing_file (Scenario.api_of [])
              "/inter/Show/b.mkv" "/import/Show/b.mkv" "/inter" "/import"
              false Scenario.w0) as [H _].
  - vm_compute. reflexivity.
  - vm_compute. reflexivity.
  - apply H. vm_compute. reflexivity.
Defined.

(* ------------------------------------------------------------------ *)
(** ** The runner and [process_files] *)

Section Runner.
Import Task.
Variables (e : Unmanic.env)
          (RadarrAPI : string -> string -> nat -> notify_radarr_task.api)
          (SonarrAPI : string -> string -> nat -> notify_sonarr_task.api)
          (data : Unmanic.task_data).

Let s := Notions.task_settings e data.
Let files :=
  match Unmanic.destination_files data with Some l => l | None => [] end.

Lemma radarr_runner_unfold :
  notify_radarr_task.on_postprocessor_task_results e RadarrAPI data =
  notify_radarr_task.process_files e RadarrAPI s (Notions.source_path data)
    files (Unmanic.host_url s) (Unmanic.api_key s).
Proof.
  unfold notify_radarr_task.on_postprocessor_task_results. subst s files.
  unfold Notions.task_settings, Notions.source_path.
  now destruct (Py.nonzero (Unmanic.library_id data)).
Qed.

Lemma sonarr_runner_unfold :
  notify_sonarr_task.on_postprocessor_task_results e SonarrAPI data =
  notify_sonarr_task.process_files e SonarrAPI s (Notions.source_path data)
    files (Unmanic.host_url s) (Unmanic.api_key s).
Proof.
  unfold notify_sonarr_task.on_postprocessor_task_results. subst s files.
  unfold Notions.task_settings, Notions.source_path.
  now destruct (Py.nonzero (Unmanic.library_id data)).
Qed.

End Runner.

(** X8: without delayed import no file is hidden.  When the settings of
    the task's library have [delay_import] off, or name no intermediate
    directory, the runner of either notifier renames nothing and changes
    no mode, whatever the mode, the destination files and the answers of
    the media manager: [process_files] then hands [import_mode] the import
    root as its intermediate root. *)
Theorem runner_without_delay
        (e : Unmanic.env)
        (RadarrAPI : string -> string -> nat -> notify_radarr_task.api)
        (SonarrAPI : string -> string -> nat -> notify_sonarr_task.api)
        (data : Unmanic.task_data) (w : Host.world) :
  Unmanic.delay_import (Notions.task_settings e data) = false
  \/ Unmanic.intermediate_root (Notions.task_settings e data) = "" ->
  let radarr :=
    notify_radarr_task.on_postprocessor_task_results e RadarrAPI data w in
  let sonarr :=
    notify_sonarr_task.on_postprocessor_task_results e SonarrAPI data w in
  Task.world_of radarr = w
  /\ existsb Task.is_fs_call (Task.events_of radarr) = false
  /\ Task.world_of sonarr = w
  /\ existsb Task.is_fs_call (Task.events_of sonarr) = false.
Proof.
  intros H. cbv zeta. rewrite radarr_runner_unfold, sonarr_runner_unfold.
  match goal with |- context [notify_radarr_task.process_files _ _ ?s ?src ?fs ?u ?k w] =>
    destruct (@radarr_without_delay e RadarrAPI s src u k fs w H) as [H1 H2]
  end.
  match goal with |- context [notify_sonarr_task.process_files _ _ ?s ?src ?fs ?u ?k w] =>
    destruct (@sonarr_without_delay e SonarrAPI s src u k fs w H) as [H3 H4]
  end.
  auto.
Qed.

Lemma runner_without_delay_witness :
  let e := Cases.env0 (Cases.settings0 "import_mode" false) in
  let data := Cases.task0 (Some "/import/Show/a.mkv")
                ["/import/Show/a.mkv"; "/import/Film.mkv"] in
  let radarr :=
    notify_radarr_task.on_postprocessor_task_results e Cases.radarr0 data
      Scenario.w0 in
  let sonarr :=
    notify_sonarr_task.on_postprocessor_task_results e Cases.sonarr0 data
      Scenario.w0 in
  Task.world_of radarr = Scenario.w0
  /\ existsb Task.is_fs_call (Task.events_of radarr) = false
  /\ Task.world_of sonarr = Scenario.w0
  /\ existsb Task.is_fs_call (Task.events_of sonarr) = false.
Proof.
  apply (@runner_without_delay
           (Cases.env0 (Cases.settings0 "import_mode" false))
           Cases.radarr0 Cases.sonarr0
           (Cases.task0 (Some "/import/Show/a.mkv")
              ["/import/Show/a.mkv"; "/import/Film.mkv"]) Scenario.w0).
  left. reflexivity.
Defined.

(** X9: one failure ends the task.  Once the processing of a destination
    file has let an exception escape, [process_files] has ended with it:
    the destination files that follow are not looked at. *)
Theorem process_files_stops_at_error
        (e : Unmanic.env)
        (RadarrAPI : string -> string -> nat -> notify_radarr_task.api)
        (SonarrAPI : string -> string -> nat -> notify_sonarr_task.api)
        (settings : Unmanic.settings) (source_file : option string)
        (pre post : list string) (host_url api_key : string)
        (w : Host.world) :
  (forall err,
      Task.result_of
        (notify_radarr_task.process_files e RadarrAPI settings source_file
           pre host_url api_key w) = Task.Raised err ->
      notify_radarr_task.process_files e RadarrAPI settings source_file
        (pre ++ post)%list host_url api_key w =
      notify_radarr_task.process_files e RadarrAPI settings source_file
        pre host_url api_key w)
  /\ (forall err,
        Task.result_of
          (notify_sonarr_task.process_files e SonarrAPI settings source_file
             pre host_url api_key w) = Task.Raised err ->
        notify_sonarr_task.process_files e SonarrAPI settings source_file
          (pre ++ post)%list host_url api_key w =
        notify_sonarr_task.process_files e SonarrAPI settings source_file
          pre host_url api_key w).
Proof.
  split; intros err H.
  - unfold notify_radarr_task.process_files in *. cbv zeta in *.
    now apply for_each_from_raised with (err := err).
  - unfold notify_sonarr_task.process_files in *. cbv zeta in *.
    now apply for_each_from_raised with (err := err).
Qed.

(** A film delivered in another container than the one radarr has queued
    stops the task: the files after it are not processed. *)
Lemma process_files_stops_at_error_witness :
  let run files :=
    notify_radarr_task.process_files
      (Cases.env0 (Cases.settings0 "import_mode" true)) Cases.radarr0
      (Cases.settings0 "import_mode" true) (Some "/inter/Film.mkv")
      files "" "" Scenario.w0 in
  Task.result_of (run ["/import/Film.mkv"]) =
  Task.Raised (Task.Plain (Host.NameError "data"))
  /\ run ["/import/Film.mkv"; "/import/Show/a.mkv"] = run ["/import/Film.mkv"].
Proof.
  cbv zeta. split; [vm_compute; reflexivity|].
  destruct (@process_files_stops_at_error
              (Cases.env0 (Cases.settings0 "import_mode" true))
              Cases.radarr0 Cases.sonarr0
              (Cases.settings0 "import_mode" true) (Some "/inter/Film.mkv")
              ["/import/Film.mkv"] ["/import/Show/a.mkv"] "" "" Scenario.w0)
    as [H _].
  apply (H (Task.Plain (Host.NameError "data"))). vm_compute. reflexivity.
Defined.

(** X10: the size test of the import mode.  With [delay_import] off, a
    destination file is passed over when its size is not above the minimum
    size, the minimum itself included: one line is logged for it and
    nothing is requested, whatever [limit_import_on_file_size] says. *)
Theorem small_files_passed_over
        (e : Unmanic.env)
        (RadarrAPI : string -> string -> nat -> notify_radarr_task.api)
        (SonarrAPI : string -> string -> nat -> notify_sonarr_task.api)
        (settings : Unmanic.settings) (source_file : option string)
        (files : list string) (host_url api_key : string)
        (w : Host.world) (minimum : Z) :
  Unmanic.mode settings = "import_mode" ->
  Unmanic.delay_import settings = false ->
  Unmanic.parse_size e (Unmanic.minimum_file_size settings) = Some minimum ->
  (forall f, In f files ->
             os.exists_at w f = true /\ (Unmanic.st_size e w f <= minimum)%Z) ->
  let ignored :=
    map (fun _ => Task.Did (Host.Log Host.Info
           "Ignoring file as it is under configured minimum size file: '%s'"))
        files in
  notify_radarr_task.process_files e RadarrAPI settings source_file files
    host_url api_key w = (Task.Returned tt, w, ignored)
  /\ notify_sonarr_task.process_files e SonarrAPI settings source_file files
       host_url api_key w = (Task.Returned tt, w, ignored).
Proof.
  intros Hm Hd Hp Hf. cbv zeta. split.
  - exact (@radarr_small_files e RadarrAPI settings source_file host_url
             api_key minimum files w Hm Hd Hp Hf).
  - exact (@sonarr_small_files e SonarrAPI settings source_file host_url
             api_key minimum files w Hm Hd Hp Hf).
Qed.

Lemma small_files_passed_over_witness :
  let s := Cases.settings0 "import_mode" false in
  notify_radarr_task.process_files (Cases.env0 s) Cases.radarr0 s
    (Some "/import/Film.mkv") ["/import/Film.mkv"] "" "" Scenario.w0 =
  (Task.Returned tt, Scenario.w0,
   [Task.Did (Host.Log Host.Info
      "Ignoring file as it is under configured minimum size file: '%s'")]).
Proof.
  cbv zeta.
  destruct (@small_files_passed_over
              (Cases.env0 (Cases.settings0 "import_mode" false))
              Cases.radarr0 Cases.sonarr0
              (Cases.settings0 "import_mode" false)
              (Some "/import/Film.mkv") ["/import/Film.mkv"] "" ""
              Scenario.w0 100%Z) as [H _].
  - reflexivity.
  - reflexivity.
  - vm_compute. reflexivity.
  - intros f [<-|[]]. split; [vm_compute; reflexivity|].
    vm_compute. discriminate.
  - exact H.
Defined.

(** X11: the modes keep apart.  In update mode [process_files] leaves the
    file system alone and makes no call of [import_mode]: no queue is
    fetched, no import requested.  In import mode it makes no request of
    the update mode and never pauses.  With any other mode set it does
    nothing at all. *)
Theorem modes_keep_apart
        (e : Unmanic.env)
        (RadarrAPI : string -> string -> nat -> notify_radarr_task.api)
        (SonarrAPI : string -> string -> nat -> notify_sonarr_task.api)
        (settings : Unmanic.settings) (source_file : option string)
        (files : list string) (host_url api_key : string)
        (w : Host.world) :
  let radarr :=
    notify_radarr_task.process_files e RadarrAPI settings source_file files
      host_url api_key w in
  let sonarr :=
    notify_sonarr_task.process_files e SonarrAPI settings source_file files
      host_url api_key w in
  (Unmanic.mode settings = "update_mode" ->
   Task.world_of radarr = w /\ Task.world_of sonarr = w
   /\ forallb Notions.is_update_call (Task.events_of radarr) = true
   /\ forallb Notions.is_update_call (Task.events_of sonarr) = true)
  /\ (Unmanic.mode settings = "import_mode" ->
      forallb Notions.is_import_call (Task.events_of radarr) = true
      /\ forallb Notions.is_import_call (Task.events_of sonarr) = true)
  /\ (Unmanic.mode settings <> "update_mode" ->
      Unmanic.mode settings <> "import_mode" ->
      radarr = (Task.Returned tt, w, [])
      /\ sonarr = (Task.Returned tt, w, [])).
Proof.
  cbv zeta.
  destruct (@radarr_modes e RadarrAPI settings source_file host_url api_key
              files w) as (R1 & R2 & R3).
  destruct (@sonarr_modes e SonarrAPI settings source_file host_url api_key
              files w) as (S1 & S2 & S3).
  split; [|split].
  - intros H. destruct (R1 H), (S1 H). auto.
  - intros H. auto.
  - intros H1 H2. auto.
Qed.

Lemma modes_keep_apart_witness :
  let s := Cases.settings0 "update_mode" true in
  let radarr :=
    notify_radarr_task.process_files (Cases.env0 s) Cases.radarr0 s None
      ["/movies/Film.mkv"] "" "" Scenario.w0 in
  Task.calls (Task.events_of radarr) =
  [Task.LookupMovie "Film.mkv";
   Task.Command "RefreshMovie" [("movieIds", Task.Ints [7%Z])];
   Task.Sleep 3;
   Task.Command "RenameMovie" [("movieIds", Task.Ints [7%Z])]]
  /\ forallb Notions.is_update_call (Task.events_of radarr) = true.
Proof.
  cbv zeta. split; [vm_compute; reflexivity|].
  destruct (@modes_keep_apart
              (Cases.env0 (Cases.settings0 "update_mode" true))
              Cases.radarr0 Cases.sonarr0 (Cases.settings0 "update_mode" true)
              None ["/movies/Film.mkv"] "" "" Scenario.w0) as (H & _).
  destruct (H eq_refl) as (_ & _ & H1 & _). exact H1.
Defined.

(** X12: a task without a source path.  In import mode with delayed
    import on, when the task data name no source file, the runner of
    either notifier ends at the first destination file with the
    [ValueError] of [os.path.relpath], after one line of logging and
    before any request or file system call. *)
Theorem runner_without_source
        (e : Unmanic.env)
        (RadarrAPI : string -> string -> nat -> notify_radarr_task.api)
        (SonarrAPI : string -> string -> nat -> notify_sonarr_task.api)
        (data : Unmanic.task_data) (f : string) (rest : list string)
        (w : Host.world) :
  Unmanic.mode (Notions.task_settings e data) = "import_mode" ->
  Unmanic.delay_import (Notions.task_settings e data) = true ->
  Notions.source_path data = None ->
  Unmanic.destination_files data = Some (f :: rest) ->
  let stopped :=
    (Task.Raised (Task.Plain (Host.ValueError "no path specified")), w,
     [Task.Did (Host.Log Host.Debug
        "Calling import source with source_file: '%s', dest_file: '%s'")]) in
  notify_radarr_task.on_postprocessor_task_results e RadarrAPI data w = stopped
  /\ notify_sonarr_task.on_postprocessor_task_results e SonarrAPI data w
     = stopped.
Proof.
  intros Hm Hd Hs Hf. cbv zeta.
  rewrite radarr_runner_unfold, sonarr_runner_unfold.
  unfold notify_radarr_task.process_files, notify_sonarr_task.process_files.
  cbv zeta. rewrite Hm, Hd, Hs, Hf. split; reflexivity.
Qed.

Lemma runner_without_source_witness :
  let e := Cases.env0 (Cases.settings0 "import_mode" true) in
  Task.result_of
    (notify_sonarr_task.on_postprocessor_task_results e Cases.sonarr0
       (Cases.task0 None ["/import/Show/a.mkv"; "/import/Film.mkv"])
       Scenario.w0) =
  Task.Raised (Task.Plain (Host.ValueError "no path specified")).
Proof.
  cbv zeta.
  destruct (@runner_without_source
              (Cases.env0 (Cases.settings0 "import_mode" true))
              Cases.radarr0 Cases.sonarr0
              (Cases.task0 None ["/import/Show/a.mkv"; "/import/Film.mkv"])
              "/import/Show/a.mkv" ["/import/Film.mkv"] Scenario.w0
              eq_refl eq_refl eq_refl eq_refl) as [_ H].
  now rewrite H.
Defined.

(* ------------------------------------------------------------------ *)
(** ** rarbg_fix: how the passes fit together *)

Section WorkerPasses.
Import rarbg_fix.

Lemma at_pass_run (lib : ffmpeg) (d : data) (n : Z) (base : string) :
  Notions.at_pass lib d n base ->
  on_worker_process lib d =
  if (n =? 1)%Z then
    finish FfmpegParser
      (set_exec_command (Spec.split_command (file_in d) base)
         (set_file_out (base ++ ".rarbg_video.mkv")
            (set_pass_num 2 (set_repeat true d))))
  else if (n =? 2)%Z then
    finish MkvtoolnixParser
      (set_exec_command (Spec.video_remux_command base)
         (set_file_out (base ++ ".rarbg_video_fixed.mkv")
            (set_file_in (base ++ ".rarbg_video.mkv")
               (set_pass_num 3 (set_repeat true d)))))
  else if (n =? 3)%Z then
    finish MkvtoolnixParser
      (set_exec_command (Spec.audio_remux_command base)
         (set_file_out (base ++ ".rarbg_audio_fixed.mkv")
            (set_file_in (base ++ ".rarbg_audio.mkv")
               (set_pass_num 4 (set_repeat true d)))))
  else if (n =? 4)%Z then
    finish FfmpegParser
      (set_exec_command (Spec.recombine_command base)
         (set_file_out (base ++ ".rarbg_fixed.mp4") (set_repeat false d)))
  else finish FfmpegParser d.
Proof.
  intros (p & Hp & Hn & Hb & Hg).
  rewrite (on_worker_process_probed lib d Hp). cbv zeta. rewrite Hn, Hb.
  destruct (Z.eqb_spec n 1) as [E|E]; [|reflexivity].
  now rewrite (Hg E).
Qed.

End WorkerPasses.

(** X13: the four passes hand their files on.  When the runner is entered
    on the passes 1 to 4 with working files of one base name, the video
    remux of pass 2 reads the file pass 1 wrote as its output, the audio
    remux of pass 3 reads the audio file pass 1 named last in its command,
    and the recombination of pass 4 reads the outputs of the passes 2 and
    3, in this order, and writes [base.rarbg_fixed.mp4]. *)
Theorem worker_passes_connect
        (lib : rarbg_fix.ffmpeg) (d1 d2 d3 d4 : rarbg_fix.data)
        (base : string) :
  Notions.at_pass lib d1 1 base ->
  Notions.at_pass lib d2 2 base ->
  Notions.at_pass lib d3 3 base ->
  Notions.at_pass lib d4 4 base ->
  let o1 := rarbg_fix.on_worker_process lib d1 in
  let o2 := rarbg_fix.on_worker_process lib d2 in
  let o3 := rarbg_fix.on_worker_process lib d3 in
  let o4 := rarbg_fix.on_worker_process lib d4 in
  rarbg_fix.exec_command o2 =
    ["mkvmerge"; "-A"; "-S"; "-o"; rarbg_fix.file_out o2; rarbg_fix.file_out o1]
  /\ rarbg_fix.file_in o2 = rarbg_fix.file_out o1
  /\ rarbg_fix.exec_command o3 =
       ["mkvmerge"; "-D"; "-o"; rarbg_fix.file_out o3;
        last (rarbg_fix.exec_command o1) ""]
  /\ rarbg_fix.file_in o3 = last (rarbg_fix.exec_command o1) ""
  /\ rarbg_fix.exec_command o4 =
       ["ffmpeg"; "-y"; "-i"; rarbg_fix.file_out o2;
        "-i"; rarbg_fix.file_out o3;
        "-c"; "copy"; "-map"; "0"; "-map"; "1"; rarbg_fix.file_out o4]
  /\ rarbg_fix.file_out o4 = base ++ ".rarbg_fixed.mp4".
Proof.
  intros H1 H2 H3 H4. cbv zeta.
  rewrite (at_pass_run H1), (at_pass_run H2), (at_pass_run H3),
    (at_pass_run H4).
  cbn. repeat split.
Qed.

Lemma worker_passes_connect_witness :
  let d n := Scenario.data0 "/library/film.mp4" (Some n) in
  let o2 := rarbg_fix.on_worker_process Scenario.lib0 (d 2%Z) in
  rarbg_fix.exec_command o2 =
    ["mkvmerge"; "-A"; "-S"; "-o"; "/cache/film.rarbg_video_fixed.mkv";
     "/cache/film.rarbg_video.mkv"]
  /\ rarbg_fix.file_out (rarbg_fix.on_worker_process Scenario.lib0 (d 1%Z))
     = "/cache/film.rarbg_video.mkv".
Proof.
  cbv zeta.
  assert (H : forall n, (n = 1%Z -> True) ->
                        Notions.at_pass Scenario.lib0
                          (Scenario.data0 "/library/film.mp4" (Some n)) n
                          "/cache/film").
  { intros n _. exists Scenario.probe0. repeat split. }
  destruct (@worker_passes_connect Scenario.lib0
              (Scenario.data0 "/library/film.mp4" (Some 1%Z))
              (Scenario.data0 "/library/film.mp4" (Some 2%Z))
              (Scenario.data0 "/library/film.mp4" (Some 3%Z))
              (Scenario.data0 "/library/film.mp4" (Some 4%Z))
              "/cache/film"
              (H 1%Z (fun _ => I)) (H 2%Z (fun _ => I))
              (H 3%Z (fun _ => I)) (H 4%Z (fun _ => I)))
    as (E2 & _).
  split; [|reflexivity]. rewrite E2. reflexivity.
Defined.

(** X14: the progress parser goes with the tool.  On the passes 1 to 4 the
    parser handed back is the mkvmerge parser exactly when the command
    emitted runs mkvmerge, and the ffmpeg parser exactly when it runs
    ffmpeg.  On any other pass number nothing but the parser is set: no
    command, no next pass, no request to repeat. *)
Theorem worker_parser_matches_tool
        (lib : rarbg_fix.ffmpeg) (d : rarbg_fix.data) (n : Z) (base : string) :
  Notions.at_pass lib d n base ->
  let out := rarbg_fix.on_worker_process lib d in
  ((1 <= n <= 4)%Z ->
   (hd "" (rarbg_fix.exec_command out) = "mkvmerge" <->
    rarbg_fix.command_progress_parser out = Some rarbg_fix.MkvtoolnixParser)
   /\ (hd "" (rarbg_fix.exec_command out) = "ffmpeg" <->
       rarbg_fix.command_progress_parser out = Some rarbg_fix.FfmpegParser))
  /\ (~ (1 <= n <= 4)%Z ->
      out = rarbg_fix.set_command_progress_parser rarbg_fix.FfmpegParser d).
Proof.
  intros H. cbv zeta. rewrite (at_pass_run H). split.
  - intros Hn.
    assert (Hc : n = 1%Z \/ n = 2%Z \/ n = 3%Z \/ n = 4%Z) by lia.
    destruct Hc as [->|[->|[->| ->]]]; cbn;
      (split; split; intros E; try reflexivity; discriminate E).
  - intros Hn.
    destruct (Z.eqb_spec n 1); [lia|]. destruct (Z.eqb_spec n 2); [lia|].
    destruct (Z.eqb_spec n 3); [lia|]. destruct (Z.eqb_spec n 4); [lia|].
    reflexivity.
Qed.

Lemma worker_parser_matches_tool_witness :
  rarbg_fix.command_progress_parser
    (rarbg_fix.on_worker_process Scenario.lib0
       (Scenario.data0 "/cache/film.rarbg_video.mkv" (Some 3%Z)))
  = Some rarbg_fix.MkvtoolnixParser
  /\ rarbg_fix.on_worker_process Scenario.lib0
       (Scenario.data0 "/library/film.mp4" (Some 5%Z))
     = rarbg_fix.set_command_progress_parser rarbg_fix.FfmpegParser
         (Scenario.data0 "/library/film.mp4" (Some 5%Z)).
Proof.
  split.
  - destruct (@worker_parser_matches_tool Scenario.lib0
                (Scenario.data0 "/cache/film.rarbg_video.mkv" (Some 3%Z))
                3%Z "/cache/film") as [H _].
    + exists Scenario.probe0. repeat split.
    + destruct H as [[H _] _]; [lia|]. apply H. reflexivity.
  - destruct (@worker_parser_matches_tool Scenario.lib0
                (Scenario.data0 "/library/film.mp4" (Some 5%Z))
                5%Z "/cache/film") as [_ H].
    + exists Scenario.probe0. repeat split.
    + apply H. lia.
Defined.

Section BaseName.
Import PyStr.

Lemma rfind_head_absent (sep s : string) :
  contains sep s = false -> rfind_head sep s = None.
Proof.
  induction s as [|a t IH]; cbn [contains rfind_head]; intros H.
  - apply orb_false_elim in H as [H _]. now rewrite H.
  - apply orb_false_elim in H as [H1 H2]. now rewrite (IH H2), H1.
Qed.

Lemma rfind_head_prefix (sep s h : string) :
  rfind_head sep s = Some h -> exists t, s = h ++ t.
Proof.
  revert h. induction s as [|a t IH]; cbn [rfind_head]; intros h.
  - destruct (String.prefix sep ""); intros [= <-]. now exists "".
  - destruct (rfind_head sep t) as [h'|].
    + intros [= <-]. destruct (IH h' eq_refl) as [u ->]. now exists u.
    + destruct (String.prefix sep (String a t)); intros [= <-].
      now exists (String a t).
Qed.

Lemma prefix_app (sep h t : string) :
  String.prefix sep h = true -> String.prefix sep (h ++ t) = true.
Proof.
  revert h. induction sep as [|c sep IH]; intros h;
    [intros _; now destruct (h ++ t)|].
  destruct h as [|b h]; cbn; [discriminate|].
  destruct (ascii_dec c b); [apply IH|discriminate].
Qed.

Lemma contains_app (sep h t : string) :
  contains sep (h ++ t) = false -> contains sep h = false.
Proof.
  induction h as [|b h IH]; cbn [append contains].
  - intros H. rewrite orb_false_r.
    destruct (String.prefix sep "") eqn:E; [|reflexivity].
    assert (Hp := @prefix_app sep "" t E). cbn [append] in Hp.
    destruct t; cbn [contains] in H; rewrite Hp in H; discriminate.
  - intros H. apply orb_false_elim in H as [H1 H2].
    rewrite (IH H2), orb_false_r.
    destruct (String.prefix sep (String b h)) eqn:E; [|reflexivity].
    assert (Hp := @prefix_app sep (String b h) t E). cbn [append] in Hp.
    congruence.
Qed.

Lemma base_name_empty (d : rarbg_fix.data) :
  contains "." (rarbg_fix.file_out d) = false
  \/ contains "-WORKING-" (rarbg_fix.file_out d) = false ->
  Spec.basename_of d = "".
Proof.
  unfold Spec.basename_of, rpartition_head. intros [H|H].
  - now rewrite (rfind_head_absent _ _ H).
  - destruct (rfind_head "." (rarbg_fix.file_out d)) as [h|] eqn:E;
      [|reflexivity].
    destruct (rfind_head_prefix _ _ E) as [t Ht]. rewrite Ht in H.
    now rewrite (rfind_head_absent _ _ (contains_app _ _ _ H)).
Qed.

End BaseName.

(** X15: a working file without its marker.  When the output path the
    runner is given has no dot, or does not contain [-WORKING-], the base
    name it derives is empty, and the first pass then writes to
    [.rarbg_video.mkv] and [.rarbg_audio.mkv], names without a directory. *)
Theorem worker_base_name_needs_marker
        (lib : rarbg_fix.ffmpeg) (d : rarbg_fix.data) (base : string) :
  PyStr.contains "." (rarbg_fix.file_out d) = false
  \/ PyStr.contains "-WORKING-" (rarbg_fix.file_out d) = false ->
  Spec.basename_of d = ""
  /\ (Notions.at_pass lib d 1 base ->
      let out := rarbg_fix.on_worker_process lib d in
      rarbg_fix.file_out out = ".rarbg_video.mkv"
      /\ last (rarbg_fix.exec_command out) "" = ".rarbg_audio.mkv").
Proof.
  intros H. pose proof (base_name_empty d H) as Hb. split; [exact Hb|].
  intros Hp. cbv zeta. rewrite (at_pass_run Hp).
  destruct Hp as (p & _ & _ & <- & _). rewrite Hb. split; reflexivity.
Qed.

Lemma worker_base_name_needs_marker_witness :
  let d := {| rarbg_fix.file_in := "/library/film.mp4";
              rarbg_fix.file_out := "/cache/film.mp4";
              rarbg_fix.pass_num := None;
              rarbg_fix.repeat := false;
              rarbg_fix.exec_command := [];
              rarbg_fix.command_progress_parser := None |} in
  Spec.basename_of d = ""
  /\ rarbg_fix.file_out (rarbg_fix.on_worker_process Scenario.lib0 d)
     = ".rarbg_video.mkv".
Proof.
  cbv zeta.
  destruct (@worker_base_name_needs_marker Scenario.lib0
              {| rarbg_fix.file_in := "/library/film.mp4";
                 rarbg_fix.file_out := "/cache/film.mp4";
                 rarbg_fix.pass_num := None;
                 rarbg_fix.repeat := false;
                 rarbg_fix.exec_command := [];
                 rarbg_fix.command_progress_parser := None |} "")
    as [H1 H2].
  - right. vm_compute. reflexivity.
  - split; [exact H1|]. apply H2.
    exists Scenario.probe0. repeat split.
Defined.

(** X16: the file test and the first pass agree.  Given one probe result
    for the file, the library file test marks a file for processing exactly
    when the first pass of the worker goes on to pass 2: both ask for an
    mp4 with a stream to process and "rarbg" in its title.  The test only
    ever sets the mark, it never clears one, and without a probe object it
    changes nothing. *)
Theorem file_test_agrees_with_worker
        (lib : rarbg_fix.ffmpeg) (t : rarbg_fix_test.data)
        (d : rarbg_fix.data) (p : rarbg_fix.probe) :
  rarbg_fix.probe_file lib (rarbg_fix_test.path t) = Some p ->
  rarbg_fix.probe_file lib (rarbg_fix.file_in d) = Some p ->
  Spec.current_pass d = 1%Z ->
  let tested := rarbg_fix_test.on_library_management_file_test lib true t in
  let out := rarbg_fix.on_worker_process lib d in
  rarbg_fix_test.add_file_to_pending_tasks tested =
    rarbg_fix_test.add_file_to_pending_tasks t || Spec.first_pass_gates lib p
  /\ (rarbg_fix.pass_num out = Some 2%Z <-> Spec.first_pass_gates lib p = true)
  /\ (rarbg_fix_test.add_file_to_pending_tasks t = false ->
      (rarbg_fix_test.add_file_to_pending_tasks tested = true <->
       rarbg_fix.pass_num out = Some 2%Z))
  /\ rarbg_fix_test.on_library_management_file_test lib false t = t.
Proof.
  intros Ht Hd Hn. cbv zeta.
  assert (Hpass : rarbg_fix.pass_num d <> Some 2%Z).
  { unfold Spec.current_pass in Hn.
    destruct (rarbg_fix.pass_num d); [intros [= ->]; discriminate|discriminate]. }
  rewrite (on_worker_process_probed lib d Hd). cbv zeta. rewrite Hn.
  unfold rarbg_fix_test.on_library_management_file_test. rewrite Ht.
  unfold Spec.first_pass_gates. cbn [Z.eqb Pos.eqb].
  destruct (PyStr.contains "mp4" (rarbg_fix.format_name p));
    destruct (PyStr.contains "rarbg" (PyStr.lower (rarbg_fix.title p)));
    destruct (rarbg_fix.streams_need_processing lib p);
    destruct (rarbg_fix_test.add_file_to_pending_tasks t) eqn:Ef;
    cbn [negb andb orb];
    cbn [rarbg_fix_test.add_file_to_pending_tasks rarbg_fix.pass_num
         rarbg_fix.finish rarbg_fix.set_command_progress_parser
         rarbg_fix.set_exec_command rarbg_fix.set_file_out
         rarbg_fix.set_pass_num rarbg_fix.set_repeat];
    rewrite ?Ef;
    (split; [reflexivity|]); (split; [split; congruence|]);
    (split; [|reflexivity]); intros Hf; split; congruence.
Qed.

Lemma file_test_agrees_with_worker_witness :
  rarbg_fix_test.add_file_to_pending_tasks
    (rarbg_fix_test.on_library_management_file_test Scenario.lib0 true
       {| rarbg_fix_test.path := "/library/film.mp4";
          rarbg_fix_test.add_file_to_pending_tasks := false |}) = true.
Proof.
  destruct (@file_test_agrees_with_worker Scenario.lib0
              {| rarbg_fix_test.path := "/library/film.mp4";
                 rarbg_fix_test.add_file_to_pending_tasks := false |}
              (Scenario.data0 "/library/film.mp4" None) Scenario.probe0
              eq_refl eq_refl eq_refl) as (H & _).
  rewrite H. reflexivity.
Defined.

(* ------------------------------------------------------------------ *)
(** ** Numerals: ['%d' % n] and [int(s)] *)

Section Numerals.
Import Py.

Lemma digit_not_space (a : ascii) : is_digit a = true -> is_space a = false.
Proof.
  intros H. destruct a as [[] [] [] [] [] [] [] []];
    try reflexivity; vm_compute in H; discriminate H.
Qed.

Lemma lstrip_plain (a : ascii) (t : string) :
  is_space a = false -> lstrip (String a t) = String a t.
Proof. intros H. cbn. now rewrite H. Qed.

Lemma rstrip_plain (s : string) :
  all_chars (fun a => negb (is_space a)) s = true -> rstrip s = s.
Proof.
  induction s as [|a t IH]; [reflexivity|]. cbn [all_chars rstrip].
  intros H. apply andb_prop in H as [Ha Ht]. rewrite (IH Ht).
  apply negb_true_iff in Ha. rewrite Ha. now destruct t.
Qed.

Lemma all_chars_weaken (p q : ascii -> bool) (s : string) :
  (forall a, p a = true -> q a = true) ->
  all_chars p s = true -> all_chars q s = true.
Proof.
  intros Hpq. induction s as [|a t IH]; [reflexivity|]. cbn.
  intros H. apply andb_prop in H as [Ha Ht]. now rewrite (Hpq a Ha), IH.
Qed.

Lemma digits_plain (s : string) (b : bool) :
  all_chars is_digit s = true -> s <> "" -> digits b s = Some s.
Proof.
  revert b. induction s as [|a t IH]; intros b H Hne; [now elim Hne|].
  cbn in H. apply andb_prop in H as [Ha Ht]. cbn [digits]. rewrite Ha.
  destruct t as [|a' t']; [reflexivity|].
  now rewrite (IH true Ht).
Qed.

Lemma uint_digits (u : Decimal.uint) :
  all_chars is_digit (DecimalString.NilEmpty.string_of_uint u) = true.
Proof. induction u; cbn; auto. Qed.

Lemma uint_nonempty (u : Decimal.uint) :
  u <> Decimal.Nil -> DecimalString.NilEmpty.string_of_uint u <> "".
Proof. destruct u; intros H; try discriminate. now elim H. Qed.

(** [int] reads a string of digits as the number it writes. *)
Lemma int_of_digits (s : string) :
  all_chars is_digit s = true -> s <> "" ->
  int_of_str s =
  option_map Z.of_uint (DecimalString.NilEmpty.uint_of_string s).
Proof.
  intros H Hne. unfold int_of_str.
  rewrite rstrip_plain
    by (apply (all_chars_weaken is_digit); [|exact H];
        intros a Ha; now rewrite (digit_not_space a Ha)).
  destruct s as [|a t]; [now elim Hne|].
  pose proof H as H'. cbn in H'. apply andb_prop in H' as [Ha _].
  rewrite (@lstrip_plain a t (digit_not_space a Ha)).
  assert (Hsign : match String a t with
                  | String "-" t' => (true, t')
                  | String "+" t' => (false, t')
                  | _ => (false, String a t)
                  end = (false, String a t)).
  { destruct a as [[] [] [] [] [] [] [] []]; try reflexivity;
      vm_compute in Ha; discriminate Ha. }
  rewrite Hsign. rewrite (@digits_plain (String a t) false H Hne).
  now destruct (DecimalString.NilEmpty.uint_of_string (String a t)).
Qed.

Lemma int_of_minus (s : string) :
  all_chars is_digit s = true -> s <> "" ->
  int_of_str (String "-" s) =
  option_map (fun u => (- Z.of_uint u)%Z)
             (DecimalString.NilEmpty.uint_of_string s).
Proof.
  intros H Hne. unfold int_of_str.
  rewrite rstrip_plain.
  2:{ cbn [all_chars]. apply andb_true_intro. split; [reflexivity|].
      apply (all_chars_weaken is_digit); [|exact H].
      intros a Ha. now rewrite (digit_not_space a Ha). }
  rewrite lstrip_plain by reflexivity.
  rewrite (@digits_plain s false H Hne).
  now destruct (DecimalString.NilEmpty.uint_of_string s).
Qed.

(** Reading back what ['%d'] wrote. *)
Lemma int_of_format (n : Z) : int_of_str (format_d n) = Some n.
Proof.
  unfold format_d. destruct n as [|p|p]; [reflexivity| |].
  - cbn [Z.to_int DecimalString.NilZero.string_of_int].
    pose proof (DecimalPos.Unsigned.to_uint_nonnil p) as Hn.
    assert (E : DecimalString.NilZero.string_of_uint (Pos.to_uint p) =
                DecimalString.NilEmpty.string_of_uint (Pos.to_uint p))
      by (destruct (Pos.to_uint p); try reflexivity; now elim Hn).
    rewrite E, int_of_digits by (apply uint_digits || now apply uint_nonempty).
    rewrite DecimalString.NilEmpty.usu. cbn [option_map]. f_equal.
    exact (DecimalZ.of_to (Z.pos p)).
  - cbn [Z.to_int DecimalString.NilZero.string_of_int].
    pose proof (DecimalPos.Unsigned.to_uint_nonnil p) as Hn.
    assert (E : DecimalString.NilZero.string_of_uint (Pos.to_uint p) =
                DecimalString.NilEmpty.string_of_uint (Pos.to_uint p))
      by (destruct (Pos.to_uint p); try reflexivity; now elim Hn).
    rewrite E, int_of_minus by (apply uint_digits || now apply uint_nonempty).
    rewrite DecimalString.NilEmpty.usu. cbn [option_map]. f_equal.
    exact (DecimalZ.of_to (Z.neg p)).
Qed.

(** A numeral is made of digits, after a minus sign at most. *)
Lemma format_chars (n : Z) :
  all_chars (fun a => is_digit a || Ascii.eqb a "-") (format_d n) = true.
Proof.
  assert (Hu : forall u,
             all_chars (fun a => is_digit a || Ascii.eqb a "-")
               (DecimalString.NilZero.string_of_uint u) = true).
  { intros u.
    assert (H := uint_digits u).
    destruct u; try reflexivity;
      (apply (all_chars_weaken is_digit); [|exact H];
       intros a Ha; now rewrite Ha). }
  unfold format_d. destruct n as [|p|p]; [reflexivity|apply Hu|].
  cbn [Z.to_int DecimalString.NilZero.string_of_int all_chars].
  now rewrite Hu.
Qed.

Lemma format_nonempty (n : Z) : PyStr.truthy (format_d n) = true.
Proof.
  unfold format_d. destruct n as [|p|p]; [reflexivity| |reflexivity].
  cbn [Z.to_int DecimalString.NilZero.string_of_int].
  destruct (Pos.to_uint p); reflexivity.
Qed.

End Numerals.

(* ------------------------------------------------------------------ *)
(** ** mkvtoolnix: the progress parser *)

Section SplitFacts.
Import Py PyStr.

Lemma split_from_skip (sep s' x : string) :
  split_from sep (String.length s') (s' ++ x) = split_from sep 0 x.
Proof. induction s' as [|c s' IH]; [reflexivity|exact IH]. Qed.

Lemma prefix_self_app (sep x : string) : String.prefix sep (sep ++ x) = true.
Proof.
  induction sep as [|c sep IH]; cbn; [now destruct x|].
  now destruct (ascii_dec c c).
Qed.

(** The text in front of a separator is the first piece, the rest is
    split on. *)
Lemma split_str_at_head (c : ascii) (sep x : string) :
  split_str (String c sep) (String c sep ++ x) =
  "" :: split_str (String c sep) x.
Proof.
  unfold split_str. cbn [append split_from].
  pose proof (prefix_self_app (String c sep) x) as H. cbn [append] in H.
  rewrite H.
  replace (String.length (String c sep) - 1) with (String.length sep)
    by (cbn [String.length]; lia).
  now rewrite split_from_skip.
Qed.

Lemma split_from_cons (sep : string) (k : nat) (s : string) :
  exists h r, split_from sep k s = h :: r.
Proof.
  revert k. induction s as [|a t IH]; intros k; [now eexists _, _|].
  cbn [split_from]. destruct k as [|k]; [|apply IH].
  destruct (String.prefix sep (String a t)); [now eexists _, _|].
  destruct (IH 0) as (h & r & ->). now eexists _, _.
Qed.

Lemma split_cons (c : ascii) (s : string) : exists h r, split c s = h :: r.
Proof.
  induction s as [|a t IH]; [now eexists _, _|]. cbn [split].
  destruct (Ascii.eqb a c); [now eexists _, _|].
  destruct IH as (h & r & ->). now eexists _, _.
Qed.

Lemma contains_char (c a : ascii) (t : string) :
  contains (String c "") (String a t) =
  Ascii.eqb a c || contains (String c "") t.
Proof.
  cbn [contains String.prefix]. f_equal.
  destruct (ascii_dec c a) as [<-|Hne].
  - rewrite Ascii.eqb_refl. now destruct t.
  - symmetry. apply Ascii.eqb_neq. congruence.
Qed.

(** A separator without the character [c] that starts a text reaching
    into [c] lies in front of it. *)
Lemma prefix_before_char (c : ascii) (sep x rest : string) :
  contains (String c "") sep = false ->
  String.prefix sep (x ++ String c rest) = true ->
  String.prefix sep x = true.
Proof.
  revert x. induction sep as [|b sep IH]; intros x Hc H;
    [now destruct x|].
  rewrite contains_char in Hc. apply orb_false_elim in Hc as [Hb Hs].
  destruct x as [|a x]; cbn [append String.prefix] in *.
  - destruct (ascii_dec b c) as [->|]; [|discriminate].
    now rewrite Ascii.eqb_refl in Hb.
  - destruct (ascii_dec b a); [|discriminate]. now apply (IH x).
Qed.

(** The text between a separator and the next [c]. *)
Lemma text_before_char (c b : ascii) (sep frag rest : string) :
  contains (String c "") (String b sep) = false ->
  contains (String c "") frag = false ->
  contains (String b sep) frag = false ->
  hd "" (split c (hd "" (split_str (String b sep) (frag ++ String c rest))))
  = frag.
Proof.
  intros Hsep. unfold split_str.
  induction frag as [|a f IH]; intros Hc Hs.
  - cbn [append split_from].
    assert (Hp : String.prefix (String b sep) (String c rest) = false).
    { rewrite contains_char in Hsep. apply orb_false_elim in Hsep as [Hb _].
      cbn [String.prefix]. destruct (ascii_dec b c) as [->|]; [|reflexivity].
      now rewrite Ascii.eqb_refl in Hb. }
    rewrite Hp.
    destruct (split_from_cons (String b sep) 0 rest) as (h & r & ->).
    cbn [hd split]. now rewrite Ascii.eqb_refl.
  - rewrite contains_char in Hc. apply orb_false_elim in Hc as [Ha Hc].
    cbn [contains] in Hs. apply orb_false_elim in Hs as [Hp Hs].
    cbn [append split_from].
    assert (Hp' : String.prefix (String b sep)
                    (String a (f ++ String c rest)) = false).
    { destruct (String.prefix (String b sep) (String a (f ++ String c rest)))
        eqn:E; [|reflexivity].
      pose proof (@prefix_before_char c (String b sep) (String a f) rest
                    Hsep E) as Hx.
      congruence. }
    rewrite Hp'.
    specialize (IH Hc Hs).
    destruct (split_from_cons (String b sep) 0 (f ++ String c rest))
      as (h & r & E).
    rewrite E in *. cbn [hd] in *. cbn [split]. rewrite Ha.
    destruct (split_cons c h) as (h' & r' & E').
    rewrite E' in *. cbn [hd] in *. now rewrite IH.
Qed.

End SplitFacts.

Section ProgressLines.
Import mkvtoolnix.

Lemma progress_line (percent : value) (frag rest : string) :
  PyStr.contains "%" frag = false ->
  PyStr.contains "Progress: " frag = false ->
  parse_progress percent ("Progress: " ++ frag ++ "%" ++ rest) =
  if PyStr.truthy frag then
    match Py.int_of_str frag with
    | None => inr ValueError
    | Some a =>
        match int percent with
        | inr e => inr e
        | inl b => if (a >? b)%Z then inl (PyStr frag) else inl percent
        end
    end
  else inl percent.
Proof.
  intros Hc Hs. unfold parse_progress.
  assert (Hin : PyStr.contains "Progress: "
                  ("Progress: " ++ frag ++ "%" ++ rest) = true).
  { pose proof (prefix_self_app "Progress: " (frag ++ "%" ++ rest)) as H.
    cbn [append] in *. cbn [PyStr.contains]. now rewrite H. }
  rewrite Hin. cbn [PyStr.truthy append andb]. cbv zeta.
  pose proof (split_str_at_head "P" "rogress: " (frag ++ "%" ++ rest)) as H.
  cbn [append] in H. rewrite H. clear H.
  destruct (split_from_cons "Progress: " 0 (frag ++ String "%" rest))
    as (h & r & E).
  pose proof (@text_before_char "%" "P" "rogress: " frag rest eq_refl Hc Hs)
    as Ht.
  unfold Py.split_str in *. cbn [append] in *. rewrite E in *. cbn [hd] in Ht.
  now rewrite Ht.
Qed.

Lemma numeral_plain (n : Z) :
  PyStr.contains "%" (Py.format_d n) = false
  /\ PyStr.contains "Progress: " (Py.format_d n) = false.
Proof.
  pose proof (format_chars n) as H.
  induction (Py.format_d n) as [|a t IH]; [now split|].
  cbn [Py.all_chars] in H. apply andb_prop in H as [Ha Ht].
  destruct (IH Ht) as [H1 H2]. split.
  - rewrite contains_char, H1, orb_false_r.
    destruct a as [[] [] [] [] [] [] [] []]; try reflexivity;
      vm_compute in Ha; discriminate Ha.
  - cbn [PyStr.contains]. rewrite H2, orb_false_r.
    destruct a as [[] [] [] [] [] [] [] []]; try reflexivity;
      vm_compute in Ha; discriminate Ha.
Qed.

Lemma parse_progress_step (percent percent' : value) (line : string) (b : Z) :
  int percent = inl b ->
  parse_progress percent line = inl percent' ->
  percent' = percent
  \/ exists p a, percent' = PyStr p /\ Py.int_of_str p = Some a /\ (b < a)%Z.
Proof.
  intros Hb. unfold parse_progress.
  destruct (PyStr.truthy line && _); [|intros [= <-]; now left].
  cbv zeta.
  destruct (Py.split_str "Progress: " line) as [|x [|text l]];
    try (intros [= <-]; now left).
  destruct (PyStr.truthy _); [|intros [= <-]; now left].
  destruct (Py.int_of_str _) as [a|] eqn:Ea; [|discriminate].
  rewrite Hb. destruct (Z.gtb_spec a b); intros [= <-]; [|now left].
  right. eexists _, a. repeat split; [exact Ea|lia].
Qed.

End ProgressLines.

(** X17: what the parser reads from a progress line.  In a line that
    starts with [Progress: ] the text up to the next [%] is the
    percentage, whatever follows it: an empty text changes nothing, a text
    that [int] does not read raises [ValueError], and a number becomes the
    new [percent], kept as the text that was read, exactly when it is
    above the old one. *)
Theorem parse_progress_reads_line
        (percent : mkvtoolnix.value) (frag rest : string) :
  PyStr.contains "%" frag = false ->
  PyStr.contains "Progress: " frag = false ->
  mkvtoolnix.parse_progress percent ("Progress: " ++ frag ++ "%" ++ rest) =
  if PyStr.truthy frag then
    match Py.int_of_str frag with
    | None => inr mkvtoolnix.ValueError
    | Some a =>
        match mkvtoolnix.int percent with
        | inr e => inr e
        | inl b =>
            if (a >? b)%Z then inl (mkvtoolnix.PyStr frag) else inl percent
        end
    end
  else inl percent.
Proof. intros Hc Hs. now apply progress_line. Qed.

(** A percentage with a decimal fraction is no [int]. *)
Lemma parse_progress_reads_line_witness :
  mkvtoolnix.parse_progress (mkvtoolnix.PyInt 0) "Progress: 12.5% done"
  = inr mkvtoolnix.ValueError.
Proof.
  exact (@parse_progress_reads_line (mkvtoolnix.PyInt 0) "12.5" " done"
           eq_refl eq_refl).
Defined.

(** X18: progress lines as mkvmerge prints them.  For every integer [n],
    the line [Progress: n%], followed by anything, sets [percent] to the
    numeral of [n] when [n] is above the number [percent] holds, and
    leaves it as it is otherwise; [int] reads the numeral ['%d'] writes
    back as [n]. *)
Theorem parse_progress_numeral
        (percent : mkvtoolnix.value) (n b : Z) (rest : string) :
  mkvtoolnix.int percent = inl b ->
  Py.int_of_str (Py.format_d n) = Some n
  /\ mkvtoolnix.parse_progress percent
       ("Progress: " ++ Py.format_d n ++ "%" ++ rest) =
     inl (if (n >? b)%Z then mkvtoolnix.PyStr (Py.format_d n) else percent).
Proof.
  intros Hb. split; [apply int_of_format|].
  destruct (numeral_plain n) as [H1 H2].
  rewrite (@progress_line percent _ rest H1 H2).
  rewrite format_nonempty, int_of_format, Hb.
  now destruct (n >? b)%Z.
Qed.

Lemma parse_progress_numeral_witness :
  mkvtoolnix.parse_progress (mkvtoolnix.PyStr "9") "Progress: 42%"
  = inl (mkvtoolnix.PyStr "42").
Proof.
  destruct (@parse_progress_numeral (mkvtoolnix.PyStr "9") 42 9 "" eq_refl)
    as [_ H].
  exact H.
Defined.

(** X19: the percentage never goes back.  Over any run of output lines,
    if [percent] holds a number at the start and no line raises, it holds
    a number at the end that is not smaller; and whenever it has changed
    it is a string that [int] reads as a larger number. *)
Theorem parse_progress_never_decreases
        (lines : list string) (percent percent' : mkvtoolnix.value) (b : Z) :
  mkvtoolnix.int percent = inl b ->
  Notions.after_lines percent lines = inl percent' ->
  exists b',
    mkvtoolnix.int percent' = inl b' /\ (b <= b')%Z
    /\ (percent' = percent
        \/ ((b < b')%Z /\ exists p, percent' = mkvtoolnix.PyStr p)).
Proof.
  revert percent b. induction lines as [|line rest IH]; intros percent b Hb.
  - intros [= <-]. exists b. repeat split; [exact Hb|lia|now left].
  - cbn [Notions.after_lines].
    destruct (mkvtoolnix.parse_progress percent line) as [mid|err] eqn:E;
      [|discriminate].
    intros Hrest.
    destruct (@parse_progress_step percent mid line b Hb E)
      as [->|(p & a & -> & Hp & Hlt)].
    + exact (IH percent b Hb Hrest).
    + assert (Ha : mkvtoolnix.int (mkvtoolnix.PyStr p) = inl a)
        by (cbn; now rewrite Hp).
      destruct (IH _ a Ha Hrest) as (b' & H1 & H2 & H3).
      exists b'. split; [exact H1|]. split; [lia|]. right.
      split; [lia|].
      destruct H3 as [->|[_ H3]]; [now exists p|exact H3].
Qed.

Lemma parse_progress_never_decreases_witness :
  exists b',
    mkvtoolnix.int (mkvtoolnix.PyStr "70") = inl b' /\ (0 <= b')%Z
    /\ (mkvtoolnix.PyStr "70" = mkvtoolnix.PyInt 0
        \/ ((0 < b')%Z /\ exists p, mkvtoolnix.PyStr "70" = mkvtoolnix.PyStr p)).
Proof.
  apply (@parse_progress_never_decreases
           ["Progress: 30%"; "muxing"; "Progress: 70%"; "Progress: 50%"; ""]
           (mkvtoolnix.PyInt 0) (mkvtoolnix.PyStr "70") 0).
  - reflexivity.
  - vm_compute. reflexivity.
Defined.

(* ------------------------------------------------------------------ *)
(** ** notify_sonarr: [ordinalize] *)

Section Ordinals.

Lemma append_cancel (p s t : string) : p ++ s = p ++ t <-> s = t.
Proof.
  split; [|now intros ->].
  induction p as [|a p IH]; cbn [append]; [easy|].
  intros [= H]. now apply IH.
Qed.

Lemma last_digit_of_hundred (n : Z) : (n mod 10 = (n mod 100) mod 10)%Z.
Proof.
  replace 100%Z with (10 * 10)%Z by reflexivity.
  rewrite Z.rem_mul_r by lia.
  rewrite (Z.mul_comm 10 ((n / 10) mod 10)), Z.mod_add by lia.
  now rewrite Z.mod_mod by lia.
Qed.

End Ordinals.

(** X20: [ordinalize] against the English ordinals.  For a natural number
    the suffix is the English one exactly when the number is at most 20 or
    does not end in 11, 12 or 13: the test for the teens looks at the
    number itself, not at its last two digits, so 111, 112 and 113 come
    out with [st], [nd] and [rd]. *)
Theorem ordinalize_english (n : Z) :
  (0 <= n)%Z ->
  notify_sonarr_task.ordinalize n = Py.format_d n ++ Notions.english_suffix n
  <-> ~ (20 < n /\ 11 <= n mod 100 <= 13)%Z.
Proof.
  intros Hn. unfold notify_sonarr_task.ordinalize, Notions.english_suffix.
  cbv zeta. rewrite append_cancel.
  pose proof (last_digit_of_hundred n) as Hd.
  pose proof (Z.mod_pos_bound n 100 ltac:(lia)) as Hb.
  pose proof (Z.mod_pos_bound n 10 ltac:(lia)) as Hb'.
  pose proof (Z.div_mod n 10 ltac:(lia)) as Hq10.
  assert (Hsmall : (n < 100 -> n mod 100 = n)%Z)
    by (intros; apply Z.mod_small; lia).
  set (tens := (n mod 100)%Z) in *. set (ones := (n mod 10)%Z) in *.
  assert (Hones : (11 <= tens <= 13 -> ones = tens - 10)%Z).
  { intros H. rewrite Hd.
    replace (tens mod 10)%Z with (((tens - 10) + 1 * 10) mod 10)%Z
      by (f_equal; lia).
    rewrite Z.mod_add by lia. apply Z.mod_small. lia. }
  assert (Hlow : (tens < 10 -> ones = tens)%Z)
    by (intros; rewrite Hd; apply Z.mod_small; lia).
  destruct (Z.gtb_spec n 3), (Z.ltb_spec n 21), (Z.leb_spec 11 tens),
    (Z.leb_spec tens 13), (Z.eqb_spec ones 1), (Z.eqb_spec ones 2),
    (Z.eqb_spec ones 3); cbn [andb];
    split; intros Hq; try reflexivity; try discriminate; try lia;
    try (exfalso; apply Hq; lia).
Qed.

Lemma ordinalize_english_witness :
  notify_sonarr_task.ordinalize 112 <>
  Py.format_d 112 ++ Notions.english_suffix 112.
Proof.
  intros H.
  apply (proj1 (@ordinalize_english 112 ltac:(lia))) in H.
  apply H. split; [lia|]. vm_compute. split; discriminate.
Defined.
